(** * InternetSpeedMonitor: the rate sampler, the autostart manager, the
    window and the application

    A shallow embedding of the four classes of [InternetSpeedMonitor.PY],
    [SpeedMonitor], [AutoStartManager], [SpeedDisplayWindow] and
    [InternetSpeedApp], with the properties the specification states
    about the first two and further properties of all four.

    Python values are modelled as the interpreter has them: [int] as [Z]
    (unbounded), [float] as IEEE-754 binary64 through the library's
    [spec_float] with precision 53 and maximal exponent 1024, [str] as
    [string].  Statements that raise are modelled in a state-and-exception
    monad: a raised exception keeps the mutations made before it, as in
    Python.  Calls of [logger] have no effect on the modelled state and are
    left as comments. *)

From Stdlib Require Import ZArith Lia Bool String Ascii List.
From Stdlib Require Import Floats.SpecFloat.
From stdpp Require Import base gmap sets strings pretty.

Local Open Scope Z_scope.

(** ** Exceptions and the state-and-exception monad *)

(** The Python exception classes that the modelled statements can raise.
    All of them derive from [Exception]; [OSError] and the five after it
    are [OSError] or subclasses of it, which is what [WindowsError] names
    on Windows. *)
Inductive exn : Type :=
  | OSError
  | FileNotFoundError
  | FileExistsError
  | IsADirectoryError
  | NotADirectoryError
  | PermissionError
  | AttributeError
  | ZeroDivisionError
  | OverflowError
  | UnicodeEncodeError.

Definition is_OSError (e : exn) : bool :=
  match e with
  | OSError | FileNotFoundError | FileExistsError
  | IsADirectoryError | NotADirectoryError | PermissionError => true
  | AttributeError | ZeroDivisionError | OverflowError | UnicodeEncodeError => false
  end.

(** How a statement ends: normally with a value, or by raising. *)
Inductive result (A : Type) : Type :=
  | Return (a : A)
  | Raise (e : exn).
Arguments Return {A} a.
Arguments Raise {A} e.

Definition M (S A : Type) : Type := S -> result A * S.

Definition ret {S A} (a : A) : M S A := fun s => (Return a, s).
Definition raise {S A} (e : exn) : M S A := fun s => (Raise e, s).
Definition bind {S A B} (c : M S A) (k : A -> M S B) : M S B :=
  fun s => match c s with
           | (Return a, s') => k a s'
           | (Raise e, s') => (Raise e, s')
           end.
Definition gets {S A} (f : S -> A) : M S A := fun s => (Return (f s), s).
Definition modify {S} (f : S -> S) : M S unit := fun s => (Return tt, f s).

(** [try: body  except Exception as e: handler]: every modelled exception
    derives from [Exception], so the handler takes them all. *)
Definition try_except {S A} (body : M S A) (handler : exn -> M S A) : M S A :=
  fun s => match body s with
           | (Return a, s') => (Return a, s')
           | (Raise e, s') => handler e s'
           end.

(** [try: body  except WindowsError: handler]: only the subclasses of
    [OSError] are caught, anything else propagates. *)
Definition try_except_WindowsError {S A} (body : M S A) (handler : M S A) : M S A :=
  fun s => match body s with
           | (Return a, s') => (Return a, s')
           | (Raise e, s') => if is_OSError e then handler s' else (Raise e, s')
           end.

(** [try: body  except FileExistsError: handler] *)
Definition try_except_FileExistsError {S A} (body : M S A) (handler : M S A) : M S A :=
  fun s => match body s with
           | (Return a, s') => (Return a, s')
           | (Raise FileExistsError, s') => handler s'
           | (Raise e, s') => (Raise e, s')
           end.

Declare Scope py_scope.
Delimit Scope py_scope with py.
Notation "'let*' x ':=' c 'in' k" := (bind c (fun x => k))
  (at level 10, x name, c at level 100, k at level 200) : py_scope.
Local Open Scope py_scope.

(** ** Python floats *)

Module PyFloat.

(** A Python [float] is a binary64 number. *)
Definition float : Type := spec_float.
Definition prec : Z := 53.
Definition emax : Z := 1024.

(** [float(n)] for an [int] [n]: the nearest binary64, ties to even. *)
Definition of_Z (n : Z) : float := binary_normalize prec emax n 0 false.

Definition zero : float := S754_zero false.
(** The literal [0.1]: 0x3FB999999999999A. *)
Definition tenth : float := S754_finite false 7205759403792794 (-56).
Definition one : float := Eval cbv in of_Z 1.

Definition sub (a b : float) : float := SFsub prec emax a b.
Definition div (a b : float) : float := SFdiv prec emax a b.
Definition ltb (a b : float) : bool := SFltb a b.
Definition leb (a b : float) : bool := SFleb a b.

Definition is_zero (a : float) : bool :=
  match a with S754_zero _ => true | _ => false end.

(** The implicit conversion of an [int] operand of a float operation:
    [OverflowError] when the integer is beyond the binary64 range. *)
Definition of_int {S} (n : Z) : M S float :=
  match of_Z n with
  | S754_infinity _ => raise OverflowError
  | f => ret f
  end.

(** [a / b] on floats: [ZeroDivisionError] on a zero divisor; an
    overflowing quotient is an infinity, not an exception. *)
Definition truediv {S} (a b : float) : M S float :=
  if is_zero b then raise ZeroDivisionError else ret (div a b).

(** [n / b] with [n : int] and [b : float]: [float.__rtruediv__]
    converts [n] first, then divides. *)
Definition int_truediv {S} (n : Z) (b : float) : M S float :=
  let* a := of_int n in truediv a b.

(** [a / n] with [a : float] and [n : int]. *)
Definition truediv_int {S} (a : float) (n : Z) : M S float :=
  let* b := of_int n in truediv a b.

(** The sign bit is clear, or the value is a NaN. *)
Definition sign_clear (f : float) : bool :=
  match f with
  | S754_zero s | S754_infinity s | S754_finite s _ _ => negb s
  | S754_nan => true
  end.

End PyFloat.

(** ** SpeedMonitor *)

Module SpeedMonitor.
Import PyFloat.

(** The fields of psutil's [snetio] tuple that the code reads. *)
Record snetio : Type := { bytes_sent : Z; bytes_recv : Z }.

(** What one call of [psutil.net_io_counters()] does: it raises, or it
    returns [None] (no interface) or the counters. *)
Definition net_reading : Type := result (option snetio).

(** The attributes of a [SpeedMonitor] object.  The two speeds start as
    the [int] 0, which a float signal carries as 0.0. *)
Record t : Type := {
  upload_speed : float;
  download_speed : float;
  last_upload : Z;
  last_download : Z;
  last_time : float
}.

(** The object together with what [speed_updated] has emitted so far,
    oldest first; each emission carries (upload, download). *)
Record proc : Type := { self : t; emitted : list (float * float) }.

Definition set_upload_speed (v : float) : M proc unit :=
  modify (fun p => {| self := {| upload_speed := v;
                                 download_speed := download_speed (self p);
                                 last_upload := last_upload (self p);
                                 last_download := last_download (self p);
                                 last_time := last_time (self p) |};
                      emitted := emitted p |}).
Definition set_download_speed (v : float) : M proc unit :=
  modify (fun p => {| self := {| upload_speed := upload_speed (self p);
                                 download_speed := v;
                                 last_upload := last_upload (self p);
                                 last_download := last_download (self p);
                                 last_time := last_time (self p) |};
                      emitted := emitted p |}).
Definition set_last_upload (v : Z) : M proc unit :=
  modify (fun p => {| self := {| upload_speed := upload_speed (self p);
                                 download_speed := download_speed (self p);
                                 last_upload := v;
                                 last_download := last_download (self p);
                                 last_time := last_time (self p) |};
                      emitted := emitted p |}).
Definition set_last_download (v : Z) : M proc unit :=
  modify (fun p => {| self := {| upload_speed := upload_speed (self p);
                                 download_speed := download_speed (self p);
                                 last_upload := last_upload (self p);
                                 last_download := v;
                                 last_time := last_time (self p) |};
                      emitted := emitted p |}).
Definition set_last_time (v : float) : M proc unit :=
  modify (fun p => {| self := {| upload_speed := upload_speed (self p);
                                 download_speed := download_speed (self p);
                                 last_upload := last_upload (self p);
                                 last_download := last_download (self p);
                                 last_time := v |};
                      emitted := emitted p |}).

(** [self.speed_updated.emit(up, down)] *)
Definition emit (up down : float) : M proc unit :=
  modify (fun p => {| self := self p; emitted := emitted p ++ [(up, down)] |}).

(** [psutil.net_io_counters()] with the given behaviour of the OS. *)
Definition net_io_counters (io : net_reading) : M proc (option snetio) :=
  fun p => (io, p).

(** [net_io.bytes_sent], [net_io.bytes_recv]: [None] has no attribute. *)
Definition get_bytes_sent (net_io : option snetio) : M proc Z :=
  match net_io with Some c => ret (bytes_sent c) | None => raise AttributeError end.
Definition get_bytes_recv (net_io : option snetio) : M proc Z :=
  match net_io with Some c => ret (bytes_recv c) | None => raise AttributeError end.

(** [SpeedMonitor.__init__]: [now] is what [time.time()] returns. *)
Definition init (io : net_reading) (now : float) : result t :=
  match io with
  | Return net_io =>
      match net_io with
      | Some c => Return {| upload_speed := zero; download_speed := zero;
                            last_upload := bytes_sent c;
                            last_download := bytes_recv c;
                            last_time := now |}
      | None => Raise AttributeError
      end
  | Raise e => Raise e
  end.

(** [SpeedMonitor.update_speed]: [io] is what the counter query does in
    this call and [now] what [time.time()] returns. *)
Definition update_speed (io : net_reading) (now : float) : M proc unit :=
  try_except
    (let* net_io := net_io_counters io in
     let current_time := now in
     let* last := gets (fun p => last_time (self p)) in
     let time_diff := sub current_time last in
     if ltb time_diff tenth then ret tt
     else
       let* sent := get_bytes_sent net_io in
       let* last_up := gets (fun p => last_upload (self p)) in
       let upload_diff := sent - last_up in
       let* recv := get_bytes_recv net_io in
       let* last_down := gets (fun p => last_download (self p)) in
       let download_diff := recv - last_down in
       let* q := int_truediv upload_diff time_diff in
       let* up := truediv_int q 1024 in
       let* _ := set_upload_speed up in
       let* q := int_truediv download_diff time_diff in
       let* down := truediv_int q 1024 in
       let* _ := set_download_speed down in
       let* sent := get_bytes_sent net_io in
       let* _ := set_last_upload sent in
       let* recv := get_bytes_recv net_io in
       let* _ := set_last_download recv in
       let* _ := set_last_time current_time in
       let* up := gets (fun p => upload_speed (self p)) in
       let* down := gets (fun p => download_speed (self p)) in
       emit up down)
    (fun e => (* logger.error *) ret tt).

(** The rate formula as the specification writes it, [delta / dt / 1024],
    in binary64 arithmetic. *)
Definition rate_KBps (delta : Z) (dt : float) : float :=
  div (div (of_Z delta) dt) (of_Z 1024).

(** [x < 0] *)
Definition is_negative (x : float) : bool := ltb x zero.

(** The time elapsed since the stored snapshot, [now - self.last_time]. *)
Definition elapsed (p : proc) (now : float) : float := sub now (last_time (self p)).

(** The outcome that the specification describes for a sample that is
    let through: both rates by the formula, the snapshot replaced by
    the current reading, one emission. *)
Definition sampled (p : proc) (c : snetio) (now : float) : proc :=
  let up := rate_KBps (bytes_sent c - last_upload (self p)) (elapsed p now) in
  let down := rate_KBps (bytes_recv c - last_download (self p)) (elapsed p now) in
  {| self := {| upload_speed := up;
                download_speed := down;
                last_upload := bytes_sent c;
                last_download := bytes_recv c;
                last_time := now |};
     emitted := emitted p ++ [(up, down)] |}.

(** C3 as the specification states it: no emitted rate is negative. *)
Definition emitted_rates_never_negative : Prop :=
  forall (p : proc) (io : net_reading) (now : float) (up down : float),
    emitted (snd (update_speed io now p)) = emitted p ++ [(up, down)] ->
    is_negative up = false /\ is_negative down = false.

End SpeedMonitor.

(** ** The operating-system stores used by AutoStartManager *)

Module OS.

(** *** Windows registry *)

(** The Python value that [winreg.QueryValueEx] hands back for the data
    of a registry value: [str] for [REG_SZ] and [REG_EXPAND_SZ], [int]
    for the integer types, [bytes] for [REG_BINARY], a list of [str] for
    [REG_MULTI_SZ], [None] for an empty value. *)
Inductive reg_data : Type :=
  | RStr (s : string)
  | RInt (n : Z)
  | RBytes (b : list Z)
  | RList (l : list string)
  | RNone.

Record reg_value : Type := { data : reg_data; kind : Z }.

Definition REG_SZ : Z := 1.
Definition KEY_QUERY_VALUE : Z := 1.
Definition KEY_SET_VALUE : Z := 2.
Definition KEY_READ : Z := 131097.   (* 0x20019 *)
Definition KEY_WRITE : Z := 131078.  (* 0x20006 *)

(** The subkey of [HKEY_CURRENT_USER] that lists the per-user auto-run
    programs; the backslashes of the raw string literal are kept. *)
Definition Run : string := "Software\Microsoft\Windows\CurrentVersion\Run".

(** An open key handle: the subkey it names and the access mask it was
    opened with. *)
Record hkey : Type := { key_path : string; key_access : Z }.

(** *** File system *)

Inductive node : Type :=
  | File (content : string) (mode : Z)
  | Dir.

(** The state of the machine as far as the manager can see and change it:
    the subkeys of [HKEY_CURRENT_USER] with their values, the file system
    as a map from the paths that exist to their nodes, the plist paths
    loaded into launchd, the home directory that ["~"] expands to (without
    a trailing slash) and the umask of the process.

    Four more fields say how the machine answers where the program has
    no say; no method changes them.  [write_fault p text] tells whether
    writing [text] into the file at [p], once it is open, fails, and then
    with which exception and what the file is left holding: nothing after
    an encoding error, some part of the text when the disk is full.
    [chmod_fault p] tells whether the file system refuses to change the
    mode of the file at [p].  [launchctl_load_run text files] is what the
    shell command [launchctl load text] does when the files are [files]:
    its exit status and the agents that it loads; [launchctl_unload_run]
    is the same for [launchctl unload text], with the agents that it
    unloads.  The text
    reaches the shell as it is, without quotes, so that a path with a
    space is not one argument, and launchd reads the property list, which
    it may refuse: the command may load or unload nothing, or another
    agent.  What the shell runs is taken to be this one [launchctl]
    command, which changes no file; a text that the shell would read as
    further commands is outside the model.

    Access rights are not modelled: a directory or a file that is there
    can be written to and removed. *)
Record World : Type := {
  registry : gmap string (gmap string reg_value);
  fs : gmap string node;
  launchd : gset string;
  userhome : string;
  umask : Z;
  write_fault : string -> string -> option (exn * string);
  chmod_fault : string -> option exn;
  launchctl_load_run : string -> gmap string node -> Z * gset string;
  launchctl_unload_run : string -> gmap string node -> Z * gset string
}.

Definition set_registry (r : gmap string (gmap string reg_value)) (w : World) : World :=
  {| registry := r; fs := fs w; launchd := launchd w;
     userhome := userhome w; umask := umask w;
     write_fault := write_fault w; chmod_fault := chmod_fault w;
     launchctl_load_run := launchctl_load_run w;
     launchctl_unload_run := launchctl_unload_run w |}.
Definition set_fs (f : gmap string node) (w : World) : World :=
  {| registry := registry w; fs := f; launchd := launchd w;
     userhome := userhome w; umask := umask w;
     write_fault := write_fault w; chmod_fault := chmod_fault w;
     launchctl_load_run := launchctl_load_run w;
     launchctl_unload_run := launchctl_unload_run w |}.
Definition set_launchd (l : gset string) (w : World) : World :=
  {| registry := registry w; fs := fs w; launchd := l;
     userhome := userhome w; umask := umask w;
     write_fault := write_fault w; chmod_fault := chmod_fault w;
     launchctl_load_run := launchctl_load_run w;
     launchctl_unload_run := launchctl_unload_run w |}.

(** [winreg.OpenKey(HKEY_CURRENT_USER, sub, 0, access)] *)
Definition OpenKey (sub : string) (access : Z) : M World hkey :=
  fun w => match registry w !! sub with
           | Some _ => (Return {| key_path := sub; key_access := access |}, w)
           | None => (Raise FileNotFoundError, w)
           end.

(** [winreg.QueryValueEx(key, name)]: the data and the type. *)
Definition QueryValueEx (key : hkey) (name : string) : M World (reg_data * Z) :=
  fun w =>
    if Z.land (key_access key) KEY_QUERY_VALUE =? 0 then (Raise PermissionError, w)
    else match registry w !! key_path key with
         | None => (Raise OSError, w)
         | Some values =>
             match values !! name with
             | Some v => (Return (data v, kind v), w)
             | None => (Raise FileNotFoundError, w)
             end
         end.

(** [winreg.SetValueEx(key, name, 0, ty, value)] with a [str] value. *)
Definition SetValueEx (key : hkey) (name : string) (ty : Z) (value : string)
  : M World unit :=
  fun w =>
    if Z.land (key_access key) KEY_SET_VALUE =? 0 then (Raise PermissionError, w)
    else match registry w !! key_path key with
         | None => (Raise OSError, w)
         | Some values =>
             (Return tt,
              set_registry
                (<[key_path key := <[name := {| data := RStr value; kind := ty |}]> values]>
                   (registry w)) w)
         end.

(** [winreg.DeleteValue(key, name)] *)
Definition DeleteValue (key : hkey) (name : string) : M World unit :=
  fun w =>
    if Z.land (key_access key) KEY_SET_VALUE =? 0 then (Raise PermissionError, w)
    else match registry w !! key_path key with
         | None => (Raise OSError, w)
         | Some values =>
             match values !! name with
             | Some _ =>
                 (Return tt,
                  set_registry (<[key_path key := delete name values]> (registry w)) w)
             | None => (Raise FileNotFoundError, w)
             end
         end.

(** [winreg.CloseKey(key)] *)
Definition CloseKey (key : hkey) : M World unit := ret tt.

(** [value == path] for the data of a registry value and a [str]. *)
Definition data_eq_str (d : reg_data) (path : string) : bool :=
  match d with
  | RStr s => String.eqb s path
  | _ => false
  end.

(** *** Paths *)

Definition is_sep (c : ascii) : bool := Ascii.eqb c "/".

Definition starts_with_sep (s : string) : bool :=
  match s with
  | String c _ => is_sep c
  | EmptyString => false
  end.

Fixpoint ends_with_sep (s : string) : bool :=
  match s with
  | EmptyString => false
  | String c rest =>
      match rest with
      | EmptyString => is_sep c
      | String _ _ => ends_with_sep rest
      end
  end.

Definition is_empty (s : string) : bool :=
  match s with EmptyString => true | String _ _ => false end.

(** [os.path.join(a, b)] of [posixpath]: an absolute [b] replaces [a]. *)
Definition path_join (a b : string) : string :=
  if starts_with_sep b then b
  else if is_empty a || ends_with_sep a then a +:+ b
  else a +:+ "/" +:+ b.

(** [os.path.expanduser(path)] for a path that starts with ["~/"] or is
    ["~"]; other paths (also ["~user"]) are returned as they are. *)
Definition expanduser (path : string) : M World string :=
  fun w =>
    match path with
    | String "~" rest =>
        if is_empty rest || starts_with_sep rest then
          (Return (let r := userhome w +:+ rest in if is_empty r then "/" else r), w)
        else (Return path, w)
    | _ => (Return path, w)
    end.

(** The directory part of a path: what precedes its last slash, [None]
    when it has no slash. *)
Fixpoint split_last_sep (p : string) : option string :=
  match p with
  | EmptyString => None
  | String c rest =>
      match split_last_sep rest with
      | Some head => Some (String c head)
      | None => if is_sep c then Some EmptyString else None
      end
  end.

(** The directory in which the last component of [p] is looked up; the
    root and the working directory are always there. *)
Definition parent_check (p : string) (w : World) : result unit :=
  match split_last_sep p with
  | None | Some EmptyString => Return tt
  | Some d =>
      match fs w !! d with
      | Some Dir => Return tt
      | Some (File _ _) => Raise NotADirectoryError
      | None => Raise FileNotFoundError
      end
  end.

(** [os.path.exists(p)] *)
Definition path_exists (p : string) : M World bool :=
  fun w => (Return (match fs w !! p with Some _ => true | None => false end), w).

(** A path of slashes only names the root. *)
Fixpoint all_sep (s : string) : bool :=
  match s with
  | EmptyString => true
  | String c rest => is_sep c && all_sep rest
  end.

Definition is_root (p : string) : bool := negb (is_empty p) && all_sep p.

(** [s.rstrip('/')] *)
Fixpoint rstrip_sep (s : string) : string :=
  match s with
  | EmptyString => EmptyString
  | String c rest =>
      match rstrip_sep rest with
      | EmptyString => if is_sep c then EmptyString else String c EmptyString
      | String c' r => String c (String c' r)
      end
  end.

(** [os.mkdir(p)]: the directory in which [p] is looked up has to be
    there, and [p] itself must not; the root always exists, the empty
    path names nothing, and slashes at the end of [p] do not count.  The
    mode of a directory is not tracked. *)
Definition mkdir (p : string) : M World unit :=
  fun w =>
    if is_empty p then (Raise FileNotFoundError, w)
    else if is_root p then (Raise FileExistsError, w)
    else
      let q := rstrip_sep p in
      match parent_check q w with
      | Raise e => (Raise e, w)
      | Return _ =>
          match fs w !! q with
          | Some _ => (Raise FileExistsError, w)
          | None => (Return tt, set_fs (<[q := Dir]> (fs w)) w)
          end
      end.

(** [p[:i], p[i:]] for [i = p.rfind('/') + 1]: the part up to and with the
    last slash, and what follows it. *)
Fixpoint cut_last_sep (p : string) : string * string :=
  match p with
  | EmptyString => (EmptyString, EmptyString)
  | String c rest =>
      let (h, t) := cut_last_sep rest in
      if is_empty h then
        if is_sep c then (String c EmptyString, rest) else (EmptyString, String c rest)
      else (String c h, t)
  end.

(** [os.path.split(p)] of [posixpath]: the head loses its trailing
    slashes unless it is made of slashes only. *)
Definition path_split (p : string) : string * string :=
  let (head, tail) := cut_last_sep p in
  (if is_empty head || all_sep head then head else rstrip_sep head, tail).

(** The head and the tail that [os.makedirs(name)] works with: those of
    [name], or those of its head when [name] ends in a slash. *)
Definition makedirs_split (name : string) : string * string :=
  let (head, tail) := path_split name in
  if is_empty tail then path_split head else (head, tail).

(** The body of [os.makedirs(name)], with [recurse] for the call of
    [makedirs] on the head: the head is made first when it is missing, a
    [FileExistsError] from that call is passed over, and then [name] is
    made with [os.mkdir], unless its last component is ["."]. *)
Definition makedirs_body (recurse : string -> M World unit) (name : string)
  : M World unit :=
  let (head, tail) := makedirs_split name in
  let* missing :=
    (if negb (is_empty head) && negb (is_empty tail)
     then let* there := path_exists head in ret (negb there)
     else ret false) in
  if missing then
    let* _ := try_except_FileExistsError (recurse head) (ret tt) in
    if String.eqb tail "." then ret tt else mkdir name
  else mkdir name.

(** The recursion of [os.makedirs] runs on a head that is shorter than
    the name, so that as many rounds as the name has characters are
    enough; the bottom of the recursion is never reached. *)
Fixpoint makedirs_rounds (rounds : nat) : string -> M World unit :=
  match rounds with
  | O => makedirs_body (fun _ => ret tt)
  | S n => makedirs_body (makedirs_rounds n)
  end.

(** [os.makedirs(p)] *)
Definition makedirs (p : string) : M World unit :=
  makedirs_rounds (String.length p) p.

(** [open(p, "w")]: the file is created empty with mode [0o666 & ~umask],
    or emptied keeping its mode. *)
Definition open_w (p : string) : M World unit :=
  fun w =>
    match parent_check p w with
    | Raise e => (Raise e, w)
    | Return _ =>
        match fs w !! p with
        | Some Dir => (Raise IsADirectoryError, w)
        | Some (File _ mode) => (Return tt, set_fs (<[p := File EmptyString mode]> (fs w)) w)
        | None =>
            (Return tt,
             set_fs (<[p := File EmptyString (Z.land 438 (Z.lnot (umask w)))]> (fs w)) w)
        end
    end.

(** [f.write(text)] and the closing of [f], for the open file at [p]:
    the text is in the file, or the write fails and the file is left
    with what had reached it. *)
Definition write_close (p text : string) : M World unit :=
  fun w =>
    match fs w !! p with
    | Some (File _ mode) =>
        match write_fault w p text with
        | Some (e, kept) => (Raise e, set_fs (<[p := File kept mode]> (fs w)) w)
        | None => (Return tt, set_fs (<[p := File text mode]> (fs w)) w)
        end
    | _ => (* no file is open at [p] *) (Raise OSError, w)
    end.

(** [with open(p, "w") as f: f.write(text)] *)
Definition write_file (p text : string) : M World unit :=
  let* _ := open_w p in
  write_close p text.

(** [os.chmod(p, mode)]; the mode of a directory is not tracked. *)
Definition chmod (p : string) (mode : Z) : M World unit :=
  fun w => match fs w !! p with
           | Some node =>
               match chmod_fault w p with
               | Some e => (Raise e, w)
               | None =>
                   match node with
                   | File text _ => (Return tt, set_fs (<[p := File text mode]> (fs w)) w)
                   | Dir => (Return tt, w)
                   end
               end
           | None => (Raise FileNotFoundError, w)
           end.

(** [os.remove(p)] *)
Definition remove (p : string) : M World unit :=
  fun w => match fs w !! p with
           | Some (File _ _) => (Return tt, set_fs (delete p (fs w)) w)
           | Some Dir => (Raise IsADirectoryError, w)
           | None => (Raise FileNotFoundError, w)
           end.

(** [os.system(f"launchctl load {p}")]: the exit status, which the
    caller is free to ignore; launchd has the agents that the command
    loaded besides those it had. *)
Definition launchctl_load (p : string) : M World Z :=
  fun w =>
    let (status, agents) := launchctl_load_run w p (fs w) in
    (Return status, set_launchd (agents ∪ launchd w) w).

(** [os.system(f"launchctl unload {p}")] *)
Definition launchctl_unload (p : string) : M World Z :=
  fun w =>
    let (status, agents) := launchctl_unload_run w p (fs w) in
    (Return status, set_launchd (launchd w ∖ agents) w).

End OS.

(** ** AutoStartManager *)

Module AutoStartManager.
Import OS.

(** The attributes of an [AutoStartManager] object: [app_path] is
    [os.path.abspath(sys.argv[0])] and [system] is [platform.system()],
    both taken when the object is made. *)
Record t : Type := { app_name : string; app_path : string; system : string }.

(** [AutoStartManager.__init__]: the name given by the caller, the
    absolute path of [sys.argv[0]] and the platform name. *)
Definition init (app_name abspath_argv0 platform_system : string) : t :=
  {| app_name := app_name;
     app_path := abspath_argv0;
     system := platform_system |}.

(** The default of the [app_name] parameter, which is what the program
    passes. *)
Definition default_app_name : string := "InternetSpeedMonitor".

Definition nl : string := String (ascii_of_nat 10) EmptyString.
Definition dq : string := String (ascii_of_nat 34) EmptyString.

(** The text written to the desktop entry. *)
Definition desktop_entry (self : t) : string :=
  "[Desktop Entry]" +:+ nl +:+
  "Type=Application" +:+ nl +:+
  "Name=" +:+ app_name self +:+ nl +:+
  "Exec=" +:+ app_path self +:+ nl +:+
  "Terminal=false" +:+ nl +:+
  "Hidden=false" +:+ nl +:+
  "X-GNOME-Autostart-enabled=true" +:+ nl.

(** The text written to the launch-agent property list. *)
Definition plist (self : t) : string :=
  "<?xml version=" +:+ dq +:+ "1.0" +:+ dq +:+ " encoding=" +:+ dq +:+ "UTF-8" +:+ dq +:+ "?>" +:+ nl +:+
  "<!DOCTYPE plist PUBLIC " +:+ dq +:+ "-//Apple//DTD PLIST 1.0//EN" +:+ dq +:+ " " +:+ dq +:+
    "http://www.apple.com/DTDs/PropertyList-1.0.dtd" +:+ dq +:+ ">" +:+ nl +:+
  "<plist version=" +:+ dq +:+ "1.0" +:+ dq +:+ ">" +:+ nl +:+
  "<dict>" +:+ nl +:+
  "    <key>Label</key>" +:+ nl +:+
  "    <string>com." +:+ app_name self +:+ "</string>" +:+ nl +:+
  "    <key>ProgramArguments</key>" +:+ nl +:+
  "    <array>" +:+ nl +:+
  "        <string>" +:+ app_path self +:+ "</string>" +:+ nl +:+
  "    </array>" +:+ nl +:+
  "    <key>RunAtLoad</key>" +:+ nl +:+
  "    <true/>" +:+ nl +:+
  "</dict>" +:+ nl +:+
  "</plist>" +:+ nl.

(** [AutoStartManager.is_enabled] *)
Definition is_enabled (self : t) : M World bool :=
  try_except
    (if String.eqb (system self) "Windows" then
       let* key := OpenKey Run KEY_READ in
       try_except_WindowsError
         (let* value := QueryValueEx key (app_name self) in
          let* _ := CloseKey key in
          ret (data_eq_str (fst value) (app_path self)))
         (let* _ := CloseKey key in
          ret false)
     else if String.eqb (system self) "Linux" then
       let* autostart_dir := expanduser "~/.config/autostart" in
       let desktop_file := path_join autostart_dir (app_name self +:+ ".desktop") in
       path_exists desktop_file
     else if String.eqb (system self) "Darwin" then
       let* plist_path :=
         expanduser ("~/Library/LaunchAgents/com." +:+ app_name self +:+ ".plist") in
       path_exists plist_path
     else
       (* logger.warning *)
       ret false)
    (fun e => (* logger.error *) ret false).

(** [AutoStartManager.enable] *)
Definition enable (self : t) : M World bool :=
  try_except
    (if String.eqb (system self) "Windows" then
       let* key := OpenKey Run KEY_WRITE in
       let* _ := SetValueEx key (app_name self) REG_SZ (app_path self) in
       let* _ := CloseKey key in
       ret true
     else if String.eqb (system self) "Linux" then
       let* autostart_dir := expanduser "~/.config/autostart" in
       let* present := path_exists autostart_dir in
       let* _ := (if negb present then makedirs autostart_dir else ret tt) in
       let desktop_file := path_join autostart_dir (app_name self +:+ ".desktop") in
       let* _ := write_file desktop_file (desktop_entry self) in
       let* _ := chmod desktop_file 493 (* 0o755 *) in
       ret true
     else if String.eqb (system self) "Darwin" then
       let* plist_dir := expanduser "~/Library/LaunchAgents" in
       let* present := path_exists plist_dir in
       let* _ := (if negb present then makedirs plist_dir else ret tt) in
       let plist_path := path_join plist_dir ("com." +:+ app_name self +:+ ".plist") in
       let* _ := write_file plist_path (plist self) in
       let* _ := launchctl_load plist_path in
       ret true
     else
       (* logger.warning *)
       ret false)
    (fun e => (* logger.error *) ret false).

(** [AutoStartManager.disable] *)
Definition disable (self : t) : M World bool :=
  try_except
    (if String.eqb (system self) "Windows" then
       let* key := OpenKey Run KEY_WRITE in
       let* _ := try_except_WindowsError
                   (DeleteValue key (app_name self))
                   (ret tt) in
       let* _ := CloseKey key in
       ret true
     else if String.eqb (system self) "Linux" then
       let* desktop_file :=
         expanduser ("~/.config/autostart/" +:+ app_name self +:+ ".desktop") in
       let* present := path_exists desktop_file in
       let* _ := (if present then remove desktop_file else ret tt) in
       ret true
     else if String.eqb (system self) "Darwin" then
       let* plist_path :=
         expanduser ("~/Library/LaunchAgents/com." +:+ app_name self +:+ ".plist") in
       let* present := path_exists plist_path in
       let* _ := (if present
                  then let* _ := launchctl_unload plist_path in remove plist_path
                  else ret tt) in
       ret true
     else
       (* logger.warning *)
       ret false)
    (fun e => (* logger.error *) ret false).

(** *** Where the registration lives *)

Definition supported (self : t) : Prop :=
  system self = "Windows" \/ system self = "Linux" \/ system self = "Darwin".

(** [os.path.exists(p)] as a function of the world. *)
Definition present (w : World) (p : string) : bool :=
  match fs w !! p with Some _ => true | None => false end.

(** The directory and the file that [is_enabled] and [enable] compute on
    Linux. *)
Definition autostart_dir (w : World) : string := userhome w +:+ "/.config/autostart".
Definition desktop_file (self : t) (w : World) : string :=
  path_join (autostart_dir w) (app_name self +:+ ".desktop").

(** The file that [disable] computes on Linux. *)
Definition desktop_file_removed (self : t) (w : World) : string :=
  userhome w +:+ "/.config/autostart/" +:+ app_name self +:+ ".desktop".

(** The directory and the file of the three methods on macOS. *)
Definition launch_agents_dir (w : World) : string := userhome w +:+ "/Library/LaunchAgents".
Definition plist_path (self : t) (w : World) : string :=
  userhome w +:+ "/Library/LaunchAgents/com." +:+ app_name self +:+ ".plist".

(** The file whose existence [is_enabled] tests on Linux and macOS. *)
Definition registration_file (self : t) (w : World) : string :=
  if String.eqb (system self) "Linux" then desktop_file self w else plist_path self w.

(** [if not os.path.exists(d): os.makedirs(d)], as [enable] runs it. *)
Definition make_missing (d : string) : M World unit :=
  let* there := path_exists d in
  if negb there then makedirs d else ret tt.

(** The world after it, whether it raised or not. *)
Definition ensure_dir (d : string) (w : World) : World := snd (make_missing d w).

(** The value of the Run key named after the application, if the key can
    be opened and has one. *)
Definition run_value (self : t) (w : World) : option reg_value :=
  match registry w !! Run with
  | Some values => values !! app_name self
  | None => None
  end.

(** The registration of the specification, "the OS-specific registration
    exists": the value named after the application in the Run key, the
    desktop entry, or the launch-agent property list. *)
Definition registration_exists (self : t) (w : World) : Prop :=
  if String.eqb (system self) "Windows" then is_Some (run_value self w)
  else if String.eqb (system self) "Linux" then is_Some (fs w !! desktop_file self w)
  else if String.eqb (system self) "Darwin" then is_Some (fs w !! plist_path self w)
  else False.

(** "... and (where checkable) its recorded path matches the current
    executable path": the path is recorded as the data of the registry
    value; a file is not read back. *)
Definition recorded_path_matches (self : t) (w : World) : Prop :=
  if String.eqb (system self) "Windows"
  then exists v, run_value self w = Some v /\ data v = RStr (app_path self)
  else True.

(** What [is_enabled] looks at, platform by platform. *)
Definition registration_check (self : t) (w : World) : bool :=
  if String.eqb (system self) "Windows" then
    match run_value self w with
    | Some v => data_eq_str (data v) (app_path self)
    | None => false
    end
  else if String.eqb (system self) "Linux" then present w (desktop_file self w)
  else if String.eqb (system self) "Darwin" then present w (plist_path self w)
  else false.

(** The store of the platform can be opened: on Windows the Run key is
    there; the directories of the other two platforms need not be. *)
Definition store_accessible (self : t) (w : World) : Prop :=
  system self = "Windows" -> is_Some (registry w !! Run).

(** The application name does not begin with a slash, so that
    [os.path.join] keeps the directory in front of it. *)
Definition relative_name (self : t) : Prop := starts_with_sep (app_name self) = false.

(** C8 as the specification states it: without a registration,
    [disable] returns true on every supported platform. *)
Definition disable_absent_returns_true : Prop :=
  forall (self : t) (w : World),
    supported self -> ~ registration_exists self w ->
    fst (disable self w) = Return true.

(** What [disable] looks for: the value named after the application in
    the Run key, the desktop entry at the path with the name written into
    it, or the launch-agent property list. *)
Definition removal_target_exists (self : t) (w : World) : Prop :=
  if String.eqb (system self) "Windows" then is_Some (run_value self w)
  else if String.eqb (system self) "Linux" then is_Some (fs w !! desktop_file_removed self w)
  else if String.eqb (system self) "Darwin" then is_Some (fs w !! plist_path self w)
  else False.


End AutoStartManager.

(** ** Worlds and objects used as examples *)

Module Examples.
Import PyFloat SpeedMonitor OS AutoStartManager.

(** Initial counters sent 1000, received 2000 at time 0. *)
Definition p_init : proc :=
  {| self := {| upload_speed := zero; download_speed := zero;
                last_upload := 1000; last_download := 2000;
                last_time := zero |};
     emitted := [] |}.

Definition c_second : snetio := {| bytes_sent := 2024; bytes_recv := 3048 |}.

(** 1.0234375, that is 1048 / 1024. *)
Definition f_1048_1024 : float := S754_finite false 4609152743636992 (-52).

(** 0.05 *)
Definition twentieth : float := div one (of_Z 20).

(** A reading whose sent counter fell from 1000 to 500. *)
Definition c_reset : snetio := {| bytes_sent := 500; bytes_recv := 3048 |}.

(** -0.48828125, that is -500 / 1024. *)
Definition f_m500_1024 : float := S754_finite true 8796093022208000 (-54).

(** A fresh account: an empty Run key, no autostart directory, nothing
    loaded, umask 022. *)
(** A machine on which no write breaks off, modes can be changed and
    [launchctl] takes the text as the one path to work on. *)
Definition sound (r : gmap string (gmap string reg_value)) (f : gmap string node) : World :=
  {| registry := r; fs := f; launchd := ∅; userhome := "/home/u"; umask := 18;
     write_fault := fun _ _ => None;
     chmod_fault := fun _ => None;
     launchctl_load_run := fun p _ => (0, {[ p ]});
     launchctl_unload_run := fun p _ => (0, {[ p ]}) |}.

(** A fresh account: an empty Run key, no autostart directory, nothing
    loaded, umask 022. *)
Definition fresh : World := sound {[ Run := ∅ ]} ∅.


(** An account whose Run key is missing. *)
Definition no_run_key : World := sound ∅ ∅.

(** An account with a desktop entry left by another installation. *)
Definition stale_entry : World :=
  sound {[ Run := ∅ ]}
    {[ "/home/u/.config/autostart" := Dir;
       "/home/u/.config/autostart/InternetSpeedMonitor.desktop" :=
         File "Exec=/elsewhere/monitor.py" 420 ]}.

Definition on_windows : t := init default_app_name "C:\Tools\monitor.exe" "Windows".
Definition on_linux : t := init default_app_name "/opt/monitor/monitor.py" "Linux".
Definition on_macos : t := init default_app_name "/opt/monitor/monitor.py" "Darwin".
Definition on_freebsd : t := init default_app_name "/opt/monitor/monitor.py" "FreeBSD".


End Examples.

(** ** Notions about what the manager touches *)

Module Registration.
Import OS AutoStartManager.

(** The value with the given name in the Run key. *)
Definition value_of (w : World) (name : string) : option reg_value :=
  match registry w !! Run with
  | Some values => values !! name
  | None => None
  end.

(** The directory that [enable] makes when it is missing. *)
Definition registration_dir (self : t) (w : World) : string :=
  if String.eqb (system self) "Linux" then autostart_dir w else launch_agents_dir w.

(** The files that the three methods write, test or remove. *)
Definition registration_files (self : t) (w : World) : list string :=
  [desktop_file self w; desktop_file_removed self w; plist_path self w].

(** [p] is an initial part of the path [d]: a directory above [d], or [d]
    itself. *)
Definition on_the_way (p d : string) : Prop := exists rest, d = p +:+ rest.

(** From [f] to [f'], away from the paths [except], every path holds what
    it held, and a path that held nothing holds nothing or a new directory
    on the way to [d]. *)
Definition only_new_dirs (d : string) (except : list string) (f f' : gmap string node)
  : Prop :=
  forall p, p ∉ except ->
    match f !! p with
    | Some n => f' !! p = Some n
    | None => f' !! p = None \/ (f' !! p = Some Dir /\ on_the_way p d)
    end.

(** The machine answers in [w'] as it does in [w]. *)
Definition same_machine (w w' : World) : Prop :=
  userhome w' = userhome w /\ umask w' = umask w /\
  write_fault w' = write_fault w /\ chmod_fault w' = chmod_fault w /\
  launchctl_load_run w' = launchctl_load_run w /\
  launchctl_unload_run w' = launchctl_unload_run w.

(** From [w] to [w'] nothing was changed or removed but the registration
    of this application: the other subkeys and the other values of the Run
    key are the same; away from the registration files, every file and
    directory is as it was and all that is new are directories on the way
    to the registration directory; launchd is as it was unless the platform
    is macOS, where [launchctl] has the say. *)
Definition untouched (self : t) (w w' : World) : Prop :=
  (forall sub, sub <> Run -> registry w' !! sub = registry w !! sub) /\
  (forall name, name <> app_name self -> value_of w' name = value_of w name) /\
  only_new_dirs (registration_dir self w) (registration_files self w) (fs w) (fs w') /\
  (system self <> "Darwin" -> launchd w' = launchd w) /\
  same_machine w w'.

(** Registry, launchd and the answers of the machine are the same. *)
Definition keeps (w w' : World) : Prop :=
  registry w' = registry w /\ launchd w' = launchd w /\ same_machine w w'.

(** On this machine no write into a file breaks off and the mode of a
    file can be changed. *)
Definition storage_sound (w : World) : Prop :=
  (forall p text, write_fault w p text = None) /\ (forall p, chmod_fault w p = None).

End Registration.

(** ** Notions about sampling *)

Module Sampling.
Import PyFloat SpeedMonitor.

(** The stored snapshot: bytes sent, bytes received, time stamp. *)
Definition snapshot (p : proc) : Z * Z * float :=
  (last_upload (self p), last_download (self p), last_time (self p)).

(** A counter as the operating system keeps it, in 64 bits. *)
Definition uint64 (n : Z) : Prop := 0 <= n < 2 ^ 64.

End Sampling.

(** ** Formatting of floats *)

Module PyFormat.
Import PyFloat.

(** The integer nearest to [m * 2 ^ e * 10], ties to even. *)
Definition round_tenths (m : positive) (e : Z) : Z :=
  if 0 <=? e then 10 * Zpos m * 2 ^ e
  else
    let d := 2 ^ (- e) in
    let q := (10 * Zpos m) / d in
    let r := (10 * Zpos m) mod d in
    match 2 * r ?= d with
    | Lt => q
    | Gt => q + 1
    | Eq => if Z.even q then q else q + 1
    end.

(** The format specification [.1f] applied to a float: the correctly
    rounded decimal with one digit after the point; the sign is kept also
    when the digits are all zero. *)
Definition format_1f (x : float) : string :=
  match x with
  | S754_nan => "nan"
  | S754_infinity s => if s then "-inf" else "inf"
  | S754_zero s => if s then "-0.0" else "0.0"
  | S754_finite s m e =>
      let n := round_tenths m e in
      (if s then "-" else "") +:+ pretty (n / 10) +:+ "." +:+ pretty (n mod 10)
  end.

End PyFormat.

(** ** SpeedDisplayWindow *)

Module SpeedDisplayWindow.
Import PyFloat PyFormat.

(** [QPoint]; screen coordinates are far from the range of its 32-bit
    integers. *)
Record QPoint : Type := { px : Z; py : Z }.

Definition point_add (a b : QPoint) : QPoint := {| px := px a + px b; py := py a + py b |}.
Definition point_sub (a b : QPoint) : QPoint := {| px := px a - px b; py := py a - py b |}.

(** [QPoint.isNull()] *)
Definition isNull (p : QPoint) : bool := (px p =? 0) && (py p =? 0).

(** The truth value of [self.offset]: [None] is false, and a [QPoint] is
    true unless it is null. *)
Definition offset_truthy (o : option QPoint) : bool :=
  match o with
  | Some p => negb (isNull p)
  | None => false
  end.

Inductive MouseButton : Type := NoButton | LeftButton | RightButton | MidButton.

Definition is_left (b : MouseButton) : bool :=
  match b with LeftButton => true | _ => false end.

(** A mouse event: [event.button()] and [event.pos()], the position of
    the cursor relative to the widget. *)
Record QMouseEvent : Type := { button : MouseButton; pos : QPoint }.

(** The size of [QDesktopWidget().availableGeometry()]. *)
Record geometry : Type := { width : Z; height : Z }.

(** The attributes of the window that the methods read and write: the
    texts of the two labels, the position of the top-left corner, the
    size, whether the window is shown, and the two dragging attributes.
    [minimum_size] is [QWidget.minimumSize()], which no method of the
    program sets: Qt sets it to what the layout of the two labels asks
    for when it activates the layout, and keeps the window at least that
    large. *)
Record t : Type := {
  download_label : string;
  upload_label : string;
  position : QPoint;
  size : Z * Z;
  minimum_size : Z * Z;
  visible : bool;
  dragging : bool;
  offset : option QPoint
}.

Definition set_download_label (s : string) : M t unit :=
  modify (fun w => {| download_label := s; upload_label := upload_label w;
                      position := position w; size := size w;
                      minimum_size := minimum_size w; visible := visible w;
                      dragging := dragging w; offset := offset w |}).
Definition set_upload_label (s : string) : M t unit :=
  modify (fun w => {| download_label := download_label w; upload_label := s;
                      position := position w; size := size w;
                      minimum_size := minimum_size w; visible := visible w;
                      dragging := dragging w; offset := offset w |}).

(** [self.move(p)] *)
Definition move (p : QPoint) (w : t) : t :=
  {| download_label := download_label w; upload_label := upload_label w;
     position := p; size := size w; minimum_size := minimum_size w;
     visible := visible w; dragging := dragging w; offset := offset w |}.

(** [self.resize(a, b)]: the size asked for, raised to the minimum size
    where it is below it. *)
Definition resize (a b : Z) (w : t) : t :=
  {| download_label := download_label w; upload_label := upload_label w;
     position := position w;
     size := (Z.max a (fst (minimum_size w)), Z.max b (snd (minimum_size w)));
     minimum_size := minimum_size w;
     visible := visible w; dragging := dragging w; offset := offset w |}.

(** [self.show()] and [self.hide()] *)
Definition set_visible (v : bool) (w : t) : t :=
  {| download_label := download_label w; upload_label := upload_label w;
     position := position w; size := size w; minimum_size := minimum_size w;
     visible := v; dragging := dragging w; offset := offset w |}.

Definition set_drag (d : bool) (o : option QPoint) (w : t) : t :=
  {| download_label := download_label w; upload_label := upload_label w;
     position := position w; size := size w; minimum_size := minimum_size w;
     visible := visible w; dragging := d; offset := o |}.

(** Qt activates the layout, which now asks for [minimum]: that becomes
    the minimum size, and a smaller window grows to it. *)
Definition relayout (minimum : Z * Z) (w : t) : t :=
  {| download_label := download_label w; upload_label := upload_label w;
     position := position w;
     size := (Z.max (fst (size w)) (fst minimum), Z.max (snd (size w)) (snd minimum));
     minimum_size := minimum;
     visible := visible w; dragging := dragging w; offset := offset w |}.

(** [SpeedDisplayWindow.position_window] *)
Definition position_window (desktop : geometry) (w : t) : t :=
  move {| px := width desktop - 130; py := height desktop - 80 |} (resize 120 70 w).

(** [SpeedDisplayWindow.__init__]; the size before [position_window] does
    not matter.  [layout_minimum] is the minimum size that the layout of
    the two labels gives the window. *)
Definition init (desktop : geometry) (layout_minimum : Z * Z) : t :=
  set_drag false None
    (position_window desktop
       {| download_label := "↓ 0.0 KB/s"; upload_label := "↑ 0.0 KB/s";
          position := {| px := 0; py := 0 |}; size := (0, 0);
          minimum_size := layout_minimum; visible := false;
          dragging := false; offset := None |}).

(** [SpeedDisplayWindow.format_speed] *)
Definition format_speed {S} (speed : float) : M S string :=
  if leb (of_Z 1024) speed then
    let* q := truediv_int speed 1024 in
    ret (format_1f q +:+ " MB/s")
  else
    ret (format_1f speed +:+ " KB/s").

(** The text that [format_speed] returns. *)
Definition speed_text (speed : float) : string :=
  if leb (of_Z 1024) speed
  then format_1f (div speed (of_Z 1024)) +:+ " MB/s"
  else format_1f speed +:+ " KB/s".

(** [SpeedDisplayWindow.update_speeds] *)
Definition update_speeds (download upload : float) : M t unit :=
  let* d := format_speed download in
  let* _ := set_download_label ("↓ " +:+ d) in
  let* u := format_speed upload in
  set_upload_label ("↑ " +:+ u).

(** [SpeedDisplayWindow.mousePressEvent] *)
Definition mousePressEvent (event : QMouseEvent) (w : t) : t :=
  if is_left (button event) then set_drag true (Some (pos event)) w else w.

(** [SpeedDisplayWindow.mouseMoveEvent] *)
Definition mouseMoveEvent (event : QMouseEvent) (w : t) : t :=
  if dragging w && offset_truthy (offset w) then
    match offset w with
    | Some o => move (point_sub (point_add (position w) (pos event)) o) w
    | None => w
    end
  else w.

(** [SpeedDisplayWindow.mouseReleaseEvent] *)
Definition mouseReleaseEvent (event : QMouseEvent) (w : t) : t :=
  if is_left (button event) then set_drag false (offset w) w else w.

(** *** The mouse as the window system reports it *)

(** What the user does with the mouse over the window, in screen
    coordinates. *)
Inductive gesture : Type :=
  | Press (b : MouseButton) (cursor : QPoint)
  | Move (cursor : QPoint)
  | Release (b : MouseButton) (cursor : QPoint).

(** The event that the widget receives: the position is relative to the
    top-left corner of the window at that moment. *)
Definition deliver (g : gesture) (w : t) : t :=
  match g with
  | Press b c => mousePressEvent {| button := b; pos := point_sub c (position w) |} w
  | Move c => mouseMoveEvent {| button := NoButton; pos := point_sub c (position w) |} w
  | Release b c => mouseReleaseEvent {| button := b; pos := point_sub c (position w) |} w
  end.

Definition deliver_all (gs : list gesture) (w : t) : t :=
  fold_left (fun w g => deliver g w) gs w.

End SpeedDisplayWindow.

(** ** InternetSpeedApp *)

Module InternetSpeedApp.
Import PyFloat SpeedMonitor OS SpeedDisplayWindow.

(** The attributes of the application object that the methods read and
    write: the manager, the check mark of the "Start with System" action,
    the visibility flag with the text of the toggle action, the window,
    the tool tip of the tray icon, the monitor with what it has emitted,
    and the warning dialogs shown so far (title and text). *)
Record t : Type := {
  auto_start_manager : AutoStartManager.t;
  autostart_checked : bool;
  display_visible : bool;
  toggle_display_text : string;
  display_window : SpeedDisplayWindow.t;
  tooltip : string;
  speed_monitor : SpeedMonitor.proc;
  warnings : list (string * string)
}.

(** The application together with the machine it runs on. *)
Record machine : Type := { os : World; screen : geometry; ui : t }.

Definition set_autostart_checked (b : bool) (a : t) : t :=
  {| auto_start_manager := auto_start_manager a; autostart_checked := b;
     display_visible := display_visible a; toggle_display_text := toggle_display_text a;
     display_window := display_window a; tooltip := tooltip a;
     speed_monitor := speed_monitor a; warnings := warnings a |}.
Definition set_display (v : bool) (text : string) (win : SpeedDisplayWindow.t) (a : t) : t :=
  {| auto_start_manager := auto_start_manager a; autostart_checked := autostart_checked a;
     display_visible := v; toggle_display_text := text;
     display_window := win; tooltip := tooltip a;
     speed_monitor := speed_monitor a; warnings := warnings a |}.
Definition set_display_window (win : SpeedDisplayWindow.t) (a : t) : t :=
  {| auto_start_manager := auto_start_manager a; autostart_checked := autostart_checked a;
     display_visible := display_visible a; toggle_display_text := toggle_display_text a;
     display_window := win; tooltip := tooltip a;
     speed_monitor := speed_monitor a; warnings := warnings a |}.
Definition set_tooltip (s : string) (a : t) : t :=
  {| auto_start_manager := auto_start_manager a; autostart_checked := autostart_checked a;
     display_visible := display_visible a; toggle_display_text := toggle_display_text a;
     display_window := display_window a; tooltip := s;
     speed_monitor := speed_monitor a; warnings := warnings a |}.
Definition set_speed_monitor (p : SpeedMonitor.proc) (a : t) : t :=
  {| auto_start_manager := auto_start_manager a; autostart_checked := autostart_checked a;
     display_visible := display_visible a; toggle_display_text := toggle_display_text a;
     display_window := display_window a; tooltip := tooltip a;
     speed_monitor := p; warnings := warnings a |}.
Definition add_warning (title text : string) (a : t) : t :=
  {| auto_start_manager := auto_start_manager a; autostart_checked := autostart_checked a;
     display_visible := display_visible a; toggle_display_text := toggle_display_text a;
     display_window := display_window a; tooltip := tooltip a;
     speed_monitor := speed_monitor a; warnings := warnings a ++ [(title, text)] |}.

Definition set_os (w : World) (m : machine) : machine :=
  {| os := w; screen := screen m; ui := ui m |}.
Definition set_ui (a : t) (m : machine) : machine :=
  {| os := os m; screen := screen m; ui := a |}.

(** A method of the manager, run on the machine. *)
Definition on_os {A} (c : M World A) : M machine A :=
  fun m => let '(r, w) := c (os m) in (r, set_os w m).

(** A method of the window, run on the application. *)
Definition on_window {A} (c : M SpeedDisplayWindow.t A) : M t A :=
  fun a => let '(r, win) := c (display_window a) in (r, set_display_window win a).

(** [InternetSpeedApp.toggle_display] *)
Definition toggle_display (a : t) : t :=
  let display_visible := negb (display_visible a) in
  if display_visible
  then set_display display_visible "Hide Speed Display"
         (set_visible true (display_window a)) a
  else set_display display_visible "Show Speed Display"
         (set_visible false (display_window a)) a.

(** [InternetSpeedApp.reset_position] *)
Definition reset_position (desktop : geometry) (a : t) : t :=
  set_display_window (position_window desktop (display_window a)) a.

Definition warning_title : string := "Auto Start".
Definition warning_text : string :=
  "Failed to change auto start settings. This might require administrative privileges.".

(** [InternetSpeedApp.toggle_autostart] *)
Definition toggle_autostart : M machine unit :=
  let* is_checked := gets (fun m => autostart_checked (ui m)) in
  let* manager := gets (fun m => auto_start_manager (ui m)) in
  let* success :=
    (if is_checked
     then on_os (AutoStartManager.enable manager)
     else on_os (AutoStartManager.disable manager)) in
  if negb success then
    let* _ := modify (fun m => set_ui (add_warning warning_title warning_text (ui m)) m) in
    modify (fun m => set_ui (set_autostart_checked (negb is_checked) (ui m)) m)
  else
    (* logger.info *)
    ret tt.

(** The user activates the checkable action: Qt flips the check mark and
    then emits [triggered], to which [toggle_autostart] is connected. *)
Definition click_autostart : M machine unit :=
  let* _ := modify (fun m =>
              set_ui (set_autostart_checked (negb (autostart_checked (ui m))) (ui m)) m) in
  toggle_autostart.

(** [InternetSpeedApp.update_speeds] *)
Definition update_speeds (upload download : float) : M t unit :=
  try_except
    (let* _ := on_window (SpeedDisplayWindow.update_speeds download upload) in
     let* download_text := format_speed download in
     let* upload_text := format_speed upload in
     let tooltip_text :=
       "Internet Speed" +:+ AutoStartManager.nl +:+ "↓ " +:+ download_text +:+
       AutoStartManager.nl +:+ "↑ " +:+ upload_text in
     modify (set_tooltip tooltip_text))
    (fun e => (* logger.error *) ret tt).

(** The slot [update_speeds] called for each emission of [speed_updated]
    in turn. *)
Fixpoint deliver_signals (signals : list (float * float)) : M t unit :=
  match signals with
  | [] => ret tt
  | (upload, download) :: rest =>
      let* _ := update_speeds upload download in
      deliver_signals rest
  end.

(** One timeout of the timer: [speed_monitor.update_speed] runs, and what
    it emits reaches the connected slot. *)
Definition timeout (io : net_reading) (now : float) : M t unit :=
  fun a =>
    let before := length (emitted (speed_monitor a)) in
    let '(r, p) := update_speed io now (speed_monitor a) in
    match r with
    | Return _ => deliver_signals (drop before (emitted p)) (set_speed_monitor p a)
    | Raise e => (Raise e, set_speed_monitor p a)
    end.

(** The timer firing with the given readings and clock values, one after
    the other; an exception would end the run. *)
Fixpoint timeouts (ticks : list (net_reading * float)) : M t unit :=
  match ticks with
  | [] => ret tt
  | (io, now) :: rest =>
      let* _ := timeout io now in
      timeouts rest
  end.

(** How [InternetSpeedApp.__init__] ends: with the object made, with
    [sys.exit(code)], or with an exception that nothing in it catches. *)
Inductive startup : Type :=
  | Started (m : machine)
  | SysExit (code : Z) (w : World)
  | Crashed (e : exn) (w : World).

(** [InternetSpeedApp.__init__]: the attributes above as the constructor
    leaves them.  [abspath_argv0] and [platform_system] are what the
    manager reads, [desktop] and [layout_minimum] what the window gets
    from Qt, [io] and [now] what the monitor reads. *)
Definition init (abspath_argv0 platform_system : string) (desktop : geometry)
    (layout_minimum : Z * Z) (io : net_reading) (now : float) (w : World) : startup :=
  let manager :=
    AutoStartManager.init AutoStartManager.default_app_name abspath_argv0 platform_system in
  let '(r, w1) := AutoStartManager.is_enabled manager w in
  match r with
  | Raise e => Crashed e w1
  | Return checked =>
      let window := set_visible true (SpeedDisplayWindow.init desktop layout_minimum) in
      match SpeedMonitor.init io now with
      | Return monitor =>
          Started {| os := w1; screen := desktop;
                     ui := {| auto_start_manager := manager;
                              autostart_checked := checked;
                              display_visible := true;
                              toggle_display_text := "Hide Speed Display";
                              display_window := window;
                              tooltip := "Internet Speed Monitor";
                              speed_monitor := {| self := monitor; emitted := [] |};
                              warnings := [] |} |}
      | Raise e => (* logger.error *) SysExit 1 w1
      end
  end.

(** *** What the user sees, against what is the case *)

(** The check mark of "Start with System" shows what [is_enabled]
    answers. *)
Definition check_mark_true (m : machine) : Prop :=
  autostart_checked (ui m) =
    AutoStartManager.registration_check (auto_start_manager (ui m)) (os m).

(** The visibility flag, the window and the text of the toggle action
    agree. *)
Definition display_consistent (a : t) : Prop :=
  visible (display_window a) = display_visible a /\
  toggle_display_text a =
    (if display_visible a then "Hide Speed Display" else "Show Speed Display").

(** The window and the tool tip show the sample emitted last, if there
    is one. *)
Definition display_current (a : t) : Prop :=
  match last (emitted (speed_monitor a)) with
  | Some (upload, download) =>
      download_label (display_window a) = "↓ " +:+ speed_text download /\
      upload_label (display_window a) = "↑ " +:+ speed_text upload /\
      tooltip a = "Internet Speed" +:+ AutoStartManager.nl +:+ "↓ " +:+
                  speed_text download +:+ AutoStartManager.nl +:+ "↑ " +:+
                  speed_text upload
  | None => True
  end.

(** The two labels and the tool tip show the given rates, the download
    rate under the arrow down and the upload rate under the arrow up. *)
Definition shows (a : t) (upload download : float) : Prop :=
  download_label (display_window a) = "↓ " +:+ speed_text download /\
  upload_label (display_window a) = "↑ " +:+ speed_text upload /\
  tooltip a = "Internet Speed" +:+ AutoStartManager.nl +:+ "↓ " +:+ speed_text download +:+
              AutoStartManager.nl +:+ "↑ " +:+ speed_text upload.

(** *** The application in use *)

(** What can happen to the running application: the user activates one
    of the three menu actions or uses the mouse on the window, the timer
    fires, or Qt activates the layout of the window, as it does after the
    texts of the labels have changed. *)
Inductive action : Type :=
  | ClickAutostart
  | ClickToggleDisplay
  | ClickResetPosition
  | Mouse (g : gesture)
  | Timeout (io : net_reading) (now : float)
  | Relayout (minimum : Z * Z).

(** A method of the application, run on the machine. *)
Definition on_ui {A} (c : M t A) : M machine A :=
  fun m => let '(r, a) := c (ui m) in (r, set_ui a m).

(** The slot connected to each of them, or what Qt does itself. *)
Definition handle (x : action) : M machine unit :=
  match x with
  | ClickAutostart => click_autostart
  | ClickToggleDisplay => modify (fun m => set_ui (toggle_display (ui m)) m)
  | ClickResetPosition => modify (fun m => set_ui (reset_position (screen m) (ui m)) m)
  | Mouse g =>
      modify (fun m => set_ui (set_display_window (deliver g (display_window (ui m))) (ui m)) m)
  | Timeout io now => on_ui (timeout io now)
  | Relayout minimum =>
      modify (fun m =>
                set_ui (set_display_window (relayout minimum (display_window (ui m))) (ui m)) m)
  end.

Fixpoint handle_all (xs : list action) : M machine unit :=
  match xs with
  | [] => ret tt
  | x :: rest =>
      let* _ := handle x in
      handle_all rest
  end.

(** What the user sees agrees with what is the case. *)
Definition faithful (m : machine) : Prop :=
  check_mark_true m /\ display_consistent (ui m) /\ display_current (ui m).

End InternetSpeedApp.

(** ** More worlds and objects used as examples *)

Module MoreExamples.
Import PyFloat SpeedMonitor OS AutoStartManager SpeedDisplayWindow.

(** An account in which a directory sits where the desktop entry goes. *)
Definition entry_is_directory : World :=
  Examples.sound {[ Run := ∅ ]}
    {[ "/home/u/.config/autostart" := Dir;
       "/home/u/.config/autostart/InternetSpeedMonitor.desktop" := Dir ]}.

(** An account whose home directory is there, with nothing in it. *)
Definition empty_home : World :=
  Examples.sound {[ Run := ∅ ]} {[ "/home" := Dir; "/home/u" := Dir ]}.

(** An account in which a regular file sits at [~/.config]. *)
Definition config_is_file : World :=
  Examples.sound {[ Run := ∅ ]}
    {[ "/home" := Dir; "/home/u" := Dir; "/home/u/.config" := File "x" 420 ]}.

(** A fresh account on a machine whose disk is full: a file can be
    created, and every write into it fails leaving it empty. *)
Definition disk_full : World :=
  {| registry := {[ Run := ∅ ]}; fs := ∅; launchd := ∅;
     userhome := "/home/u"; umask := 18;
     write_fault := fun _ _ => Some (OSError, EmptyString);
     chmod_fault := fun _ => None;
     launchctl_load_run := fun p _ => (0, {[ p ]});
     launchctl_unload_run := fun p _ => (0, {[ p ]}) |}.

(** A fresh account on a machine whose [launchctl load] fails. *)
Definition launchctl_fails : World :=
  {| registry := {[ Run := ∅ ]}; fs := ∅; launchd := ∅;
     userhome := "/Users/u"; umask := 18;
     write_fault := fun _ _ => None;
     chmod_fault := fun _ => None;
     launchctl_load_run := fun _ _ => (1, ∅);
     launchctl_unload_run := fun _ _ => (1, ∅) |}.

Definition full_hd : geometry := {| width := 1920; height := 1080 |}.

(** A layout that asks for less than the size the program sets. *)
Definition small_layout : Z * Z := (100, 60).

(** The counters read when the application starts. *)
Definition c_first : snetio := {| bytes_sent := 1000; bytes_recv := 2000 |}.

(** The application as it has just started on the given Linux machine,
    at time 0. *)
Definition running_on (w : World) : InternetSpeedApp.machine :=
  {| InternetSpeedApp.os := w;
     InternetSpeedApp.screen := full_hd;
     InternetSpeedApp.ui :=
       {| InternetSpeedApp.auto_start_manager := Examples.on_linux;
          InternetSpeedApp.autostart_checked := false;
          InternetSpeedApp.display_visible := true;
          InternetSpeedApp.toggle_display_text := "Hide Speed Display";
          InternetSpeedApp.display_window :=
            set_visible true (SpeedDisplayWindow.init full_hd small_layout);
          InternetSpeedApp.tooltip := "Internet Speed Monitor";
          InternetSpeedApp.speed_monitor := Examples.p_init;
          InternetSpeedApp.warnings := [] |} |}.

(** The application as it has just started on a fresh Linux account. *)
Definition running_linux : InternetSpeedApp.machine := running_on Examples.fresh.

(** Two timeouts: a reading after one second, then a failing query. *)
Definition two_ticks : list (net_reading * float) :=
  [(Return (Some Examples.c_second), one); (Raise OSError, of_Z 2)].

(** A session: the window is dragged, autostart is switched on, the timer
    fires, the layout then asks for 160 by 70, the window is hidden,
    autostart is switched off, the position is reset. *)
Definition session : list InternetSpeedApp.action :=
  [InternetSpeedApp.Mouse (Press LeftButton {| px := 1800; py := 1010 |});
   InternetSpeedApp.Mouse (Move {| px := 400; py := 300 |});
   InternetSpeedApp.Mouse (Release LeftButton {| px := 400; py := 300 |});
   InternetSpeedApp.ClickAutostart;
   InternetSpeedApp.Timeout (Return (Some Examples.c_second)) one;
   InternetSpeedApp.Relayout (160, 70);
   InternetSpeedApp.ClickToggleDisplay;
   InternetSpeedApp.ClickAutostart;
   InternetSpeedApp.ClickResetPosition].

End MoreExamples.

(** ** Facts about binary64 arithmetic *)

Module PyFloatFacts.
Import PyFloat.

Lemma Zdigits2_nonneg (m : Z) : 0 <= Zdigits2 m.
Proof. destruct m; simpl; lia. Qed.

Lemma digits2_pos_succ (p : positive) :
  Zpos (digits2_pos (Pos.succ p)) <= Zpos (digits2_pos p) + 1.
Proof.
  induction p as [p IH | p IH |]; simpl.
  - rewrite !Pos2Z.inj_succ. lia.
  - lia.
  - lia.
Qed.

Lemma digits2_pos_lower (p : positive) :
  2 ^ (Zpos (digits2_pos p) - 1) <= Zpos p.
Proof.
  induction p as [p IH | p IH |]; simpl digits2_pos.
  - rewrite Pos2Z.inj_succ.
    replace (Z.succ (Zpos (digits2_pos p)) - 1) with (Z.succ (Zpos (digits2_pos p) - 1)) by lia.
    rewrite Z.pow_succ_r by lia. lia.
  - rewrite Pos2Z.inj_succ.
    replace (Z.succ (Zpos (digits2_pos p)) - 1) with (Z.succ (Zpos (digits2_pos p) - 1)) by lia.
    rewrite Z.pow_succ_r by lia. lia.
  - reflexivity.
Qed.

Lemma digits2_pos_bound (p : positive) (k : Z) :
  Zpos p < 2 ^ k -> Zpos (digits2_pos p) <= k.
Proof.
  intros Hlt.
  destruct (Z.le_gt_cases (Zpos (digits2_pos p)) k) as [Hle | Hgt]; [exact Hle |].
  assert (Hk : 0 <= k).
  { destruct (Z.le_gt_cases 0 k) as [H0 | H0]; [exact H0 |].
    rewrite Z.pow_neg_r in Hlt by lia. lia. }
  pose proof (digits2_pos_lower p) as Hlow.
  assert (2 ^ k <= 2 ^ (Zpos (digits2_pos p) - 1)) by (apply Z.pow_le_mono_r; lia).
  lia.
Qed.

Lemma digits2_pos_iter_xO (p k : positive) :
  Zpos (digits2_pos (Pos.iter xO p k)) = Zpos (digits2_pos p) + Zpos k.
Proof.
  induction k as [| k IH] using Pos.peano_ind.
  - simpl. rewrite Pos2Z.inj_succ. lia.
  - rewrite Pos.iter_succ. simpl digits2_pos.
    rewrite !Pos2Z.inj_succ, IH. lia.
Qed.

(** One right shift removes one binary digit. *)
Lemma shr_1_digits (mrs : shr_record) :
  0 <= shr_m mrs ->
  0 <= shr_m (shr_1 mrs) /\
  Zdigits2 (shr_m (shr_1 mrs)) <= Z.max 0 (Zdigits2 (shr_m mrs) - 1).
Proof.
  destruct mrs as [m r s]. simpl shr_m at 1. intros Hm.
  destruct m as [| [p | p |] | p]; simpl; lia.
Qed.

Lemma iter_shr_1_digits (p : positive) : forall mrs : shr_record,
  0 <= shr_m mrs ->
  0 <= shr_m (SpecFloat.iter_pos shr_1 p mrs) /\
  Zdigits2 (shr_m (SpecFloat.iter_pos shr_1 p mrs)) <= Z.max 0 (Zdigits2 (shr_m mrs) - Zpos p).
Proof.
  induction p as [p IH | p IH |]; intros mrs Hm; simpl SpecFloat.iter_pos.
  - destruct (shr_1_digits mrs Hm) as [H1 D1].
    destruct (IH _ H1) as [H2 D2].
    destruct (IH _ H2) as [H3 D3].
    split; [exact H3 | lia].
  - destruct (IH _ Hm) as [H2 D2].
    destruct (IH _ H2) as [H3 D3].
    split; [exact H3 | lia].
  - destruct (shr_1_digits mrs Hm) as [H1 D1]. split; [exact H1 | lia].
Qed.

Lemma shr_spec (mrs : shr_record) (e n : Z) :
  0 <= shr_m mrs ->
  snd (shr mrs e n) = e + Z.max 0 n /\
  0 <= shr_m (fst (shr mrs e n)) /\
  Zdigits2 (shr_m (fst (shr mrs e n))) <= Z.max 0 (Zdigits2 (shr_m mrs) - Z.max 0 n).
Proof.
  intros Hm. pose proof (Zdigits2_nonneg (shr_m mrs)) as Hd.
  destruct n as [| p | p]; simpl.
  - repeat split; lia.
  - destruct (iter_shr_1_digits p mrs Hm) as [H1 D1]. repeat split; lia.
  - repeat split; lia.
Qed.

Lemma shr_record_of_loc_m (m : Z) (l : location) :
  shr_m (shr_record_of_loc m l) = m.
Proof. destruct l as [| []]; reflexivity. Qed.

Lemma round_nearest_even_digits (m : Z) (l : location) :
  0 <= m ->
  0 <= round_nearest_even m l /\
  Zdigits2 (round_nearest_even m l) <= Zdigits2 m + 1.
Proof.
  intros Hm.
  assert (Hs : 0 <= m + 1 /\ Zdigits2 (m + 1) <= Zdigits2 m + 1).
  { destruct m as [| p | p]; [simpl; lia | | lia].
    split; [lia |].
    replace (Zpos p + 1) with (Zpos (Pos.succ p)) by lia.
    apply digits2_pos_succ. }
  destruct l as [| []]; simpl; try (split; lia); try exact Hs.
  destruct (Z.even m); [split; lia | exact Hs].
Qed.

(** Where the exponent of a rounded result ends up. *)
Lemma binary_round_aux_cases (sx : bool) (mx ex : Z) (lx : location) :
  0 <= mx -> ex <= emax - prec -> Zdigits2 mx + ex <= emax - 1 ->
  binary_round_aux prec emax sx mx ex lx = S754_zero sx \/
  exists m e, binary_round_aux prec emax sx mx ex lx = S754_finite sx m e.
Proof.
  intros Hm He Hd. unfold binary_round_aux, shr_fexp.
  set (r1 := shr_record_of_loc mx lx).
  assert (Hr1 : shr_m r1 = mx) by apply shr_record_of_loc_m.
  set (n1 := fexp prec emax (Zdigits2 mx + ex) - ex).
  pose proof (shr_spec r1 ex n1) as S1. rewrite Hr1 in S1.
  destruct (S1 Hm) as (E1 & P1 & D1). clear S1.
  destruct (shr r1 ex n1) as [mrs' e']. simpl in E1, P1, D1.
  pose proof (round_nearest_even_digits (shr_m mrs') (loc_of_shr_record mrs') P1) as [P2 D2].
  set (m2 := round_nearest_even (shr_m mrs') (loc_of_shr_record mrs')) in *.
  set (n2 := fexp prec emax (Zdigits2 m2 + e') - e').
  pose proof (shr_spec (shr_record_of_loc m2 loc_Exact) e' n2) as S2.
  rewrite shr_record_of_loc_m in S2.
  destruct (S2 P2) as (E2 & P3 & D3). clear S2.
  destruct (shr (shr_record_of_loc m2 loc_Exact) e' n2) as [mrs'' e''].
  simpl in E2, P3, D3.
  assert (Hle : e'' <= emax - prec).
  { subst n1 n2. unfold fexp, emin, prec, emax in *. lia. }
  destruct (shr_m mrs'') as [| m | m]; [left; reflexivity | | lia].
  right. exists m, e''.
  apply Z.leb_le in Hle. rewrite Hle. reflexivity.
Qed.

(** [float(n)] does not overflow below [2 ^ 1023]: every 64-bit counter,
    and every difference of two of them, is in that range. *)
Lemma of_Z_no_overflow (n : Z) :
  Z.abs n < 2 ^ 1023 ->
  (exists s, of_Z n = S754_zero s) \/ (exists s m e, of_Z n = S754_finite s m e).
Proof.
  intros Hn. unfold of_Z, binary_normalize.
  assert (Hr : forall s p, Zpos p < 2 ^ 1023 ->
            binary_round prec emax s p 0 = S754_zero s \/
            exists m e, binary_round prec emax s p 0 = S754_finite s m e).
  { intros s p Hp. unfold binary_round, shl_align.
    pose proof (digits2_pos_bound p 1023 Hp) as Hd.
    assert (Hf : fexp prec emax (Zpos (digits2_pos p) + 0) = Zpos (digits2_pos p) - 53).
    { unfold fexp, emin, prec, emax. lia. }
    rewrite Hf.
    destruct (Zpos (digits2_pos p) - 53 - 0) as [| k | k] eqn:Hk.
    - apply binary_round_aux_cases; unfold prec, emax; simpl Zdigits2; lia.
    - apply binary_round_aux_cases; unfold prec, emax; simpl Zdigits2; lia.
    - apply binary_round_aux_cases; unfold prec, emax; simpl Zdigits2;
        try rewrite digits2_pos_iter_xO; lia. }
  destruct n as [| p | p].
  - left. exists false. reflexivity.
  - destruct (Hr false p) as [H | (m & e & H)]; [lia | left; eauto | right; eauto].
  - destruct (Hr true p) as [H | (m & e & H)]; [lia | left; eauto | right; eauto].
Qed.

Lemma of_int_ok {S} (n : Z) (s : S) :
  Z.abs n < 2 ^ 1023 -> of_int n s = (Return (of_Z n), s).
Proof.
  intros Hn. unfold of_int.
  destruct (of_Z_no_overflow n Hn) as [(sg & H) | (sg & m & e & H)];
    rewrite H; reflexivity.
Qed.

Lemma int_truediv_ok {S} (n : Z) (b : float) (s : S) :
  Z.abs n < 2 ^ 1023 -> is_zero b = false ->
  int_truediv n b s = (Return (div (of_Z n) b), s).
Proof.
  intros Hn Hb. unfold int_truediv, bind. rewrite (of_int_ok n s Hn).
  unfold truediv. rewrite Hb. reflexivity.
Qed.

Lemma truediv_int_1024 {S} (a : float) (s : S) :
  truediv_int a 1024 s = (Return (div a (of_Z 1024)), s).
Proof. reflexivity. Qed.

(** *** Comparison *)

Lemma SFcompare_antisym (a b : float) (c : comparison) :
  SFcompare a b = Some c -> SFcompare b a = Some (CompOpp c).
Proof.
  destruct a as [sa | sa | | sa ma ea], b as [sb | sb | | sb mb eb];
    simpl; try discriminate;
    try (destruct sa; intros [= <-]; reflexivity);
    try (destruct sb; intros [= <-]; reflexivity);
    try (destruct sa, sb; intros [= <-]; reflexivity).
  intros [= <-]. f_equal.
  assert (Hm : Pos.compare_cont Eq mb ma = CompOpp (Pos.compare_cont Eq ma mb)).
  { rewrite Pos.compare_cont_antisym. reflexivity. }
  rewrite (Z.compare_antisym ea eb), Hm.
  destruct sa, sb; try reflexivity;
    destruct (ea ?= eb); simpl; try reflexivity;
    destruct (Pos.compare_cont Eq ma mb); reflexivity.
Qed.

(** [b >= a] excludes [b < a]. *)
Lemma leb_not_ltb (a b : float) : leb a b = true -> ltb b a = false.
Proof.
  unfold leb, ltb, SFleb, SFltb. intros H.
  destruct (SFcompare a b) as [c |] eqn:Hc; [| discriminate].
  rewrite (SFcompare_antisym a b c Hc).
  destruct c; simpl; [reflexivity | reflexivity | discriminate].
Qed.

Lemma leb_tenth_nonzero (b : float) : leb tenth b = true -> is_zero b = false.
Proof. destruct b; [discriminate | reflexivity ..]. Qed.

(** *** Signs *)

Lemma binary_round_aux_sign (mx ex : Z) (lx : location) :
  sign_clear (binary_round_aux prec emax false mx ex lx) = true.
Proof.
  unfold binary_round_aux.
  destruct (shr_fexp prec emax mx ex lx) as [mrs' e'].
  destruct (shr_fexp prec emax _ e' loc_Exact) as [mrs'' e''].
  destruct (shr_m mrs''); [reflexivity | | reflexivity].
  destruct (e'' <=? emax - prec); reflexivity.
Qed.

Lemma of_Z_sign (n : Z) : 0 <= n -> sign_clear (of_Z n) = true.
Proof.
  intros Hn. destruct n as [| p | p]; [reflexivity | | lia].
  unfold of_Z, binary_normalize, binary_round.
  destruct (shl_align p 0 _) as [mz ez]. apply binary_round_aux_sign.
Qed.

Lemma div_sign (a b : float) :
  sign_clear a = true -> sign_clear b = true -> sign_clear (div a b) = true.
Proof.
  destruct a as [sa | sa | | sa ma ea], b as [sb | sb | | sb mb eb];
    simpl; intros Ha Hb; try reflexivity;
    try (apply negb_true_iff in Ha; subst sa);
    try (apply negb_true_iff in Hb; subst sb); try reflexivity.
  destruct (SFdiv_core_binary prec emax (Zpos ma) ea (Zpos mb) eb) as [[mz ez] lz].
  apply binary_round_aux_sign.
Qed.

Lemma not_ltb_tenth_sign (b : float) : ltb b tenth = false -> sign_clear b = true.
Proof. destruct b as [s | s | | s m e]; try destruct s; try reflexivity; discriminate. Qed.

Lemma sign_clear_not_negative (f : float) :
  sign_clear f = true -> ltb f zero = false.
Proof. destruct f as [s | s | | s m e]; try destruct s; try reflexivity; discriminate. Qed.

End PyFloatFacts.

(** ** Facts about SpeedMonitor *)

Module SpeedMonitorFacts.
Import PyFloat PyFloatFacts SpeedMonitor.

#[local] Arguments of_Z : simpl never.
#[local] Arguments div : simpl never.
#[local] Arguments sub : simpl never.
#[local] Arguments ltb : simpl never.
#[local] Arguments int_truediv : simpl never.
#[local] Arguments truediv_int : simpl never.

Lemma int_truediv_cases {S} (n : Z) (b : float) (s : S) :
  int_truediv n b s = (Return (div (of_Z n) b), s) \/
  exists e, int_truediv n b s = (Raise e, s).
Proof.
  unfold int_truediv, bind, of_int, truediv, raise, ret.
  destruct (of_Z n); destruct (is_zero b); eauto.
Qed.

Lemma truediv_int_cases {S} (a : float) (n : Z) (s : S) :
  truediv_int a n s = (Return (div a (of_Z n)), s) \/
  exists e, truediv_int a n s = (Raise e, s).
Proof.
  unfold truediv_int, bind, of_int, truediv, raise, ret.
  destruct (of_Z n); destruct (is_zero (S754_zero _)) || idtac; eauto.
Qed.

(** What a call with a successful counter query can do: nothing is
    emitted, or the guard let it through and the full update of the
    specification happened. *)
Lemma update_speed_cases (p : proc) (c : snetio) (now : float) :
  fst (update_speed (Return (Some c)) now p) = Return tt /\
  (emitted (snd (update_speed (Return (Some c)) now p)) = emitted p \/
   (ltb (elapsed p now) tenth = false /\
    snd (update_speed (Return (Some c)) now p) = sampled p c now)).
Proof.
  unfold update_speed, try_except, bind, net_io_counters, gets, get_bytes_sent,
    get_bytes_recv, ret. cbn.
  fold (elapsed p now).
  destruct (ltb (elapsed p now) tenth) eqn:Hguard; cbn; [auto |].
  destruct (int_truediv_cases (bytes_sent c - last_upload (self p)) (elapsed p now) p)
    as [-> | [e ->]]; cbn; [| auto].
  destruct (truediv_int_cases
              (div (of_Z (bytes_sent c - last_upload (self p))) (elapsed p now)) 1024 p)
    as [-> | [e ->]]; cbn; [| auto].
  match goal with |- context [int_truediv ?n ?b ?s] =>
    destruct (int_truediv_cases n b s) as [-> | [e ->]]; cbn; [| auto] end.
  match goal with |- context [truediv_int ?a ?n ?s] =>
    destruct (truediv_int_cases a n s) as [-> | [e ->]]; cbn; [| auto] end.
  split; [reflexivity |]. right. split; reflexivity.
Qed.

(** *** The scenario of the specification *)

(** The second sample at time 1.0: the upload rate is 1.0; the download
    rate is 1048 / 1024, since 3048 - 2000 = 1048. *)
Example scenario_second_sample :
  update_speed (Return (Some Examples.c_second)) one Examples.p_init =
    (Return tt,
     {| self := {| upload_speed := one; download_speed := Examples.f_1048_1024;
                   last_upload := 2024; last_download := 3048;
                   last_time := one |};
        emitted := [(one, Examples.f_1048_1024)] |}).
Proof. vm_compute. reflexivity. Qed.

(** The second sample at time 0.05 changes nothing. *)
Example scenario_guarded_sample :
  update_speed (Return (Some Examples.c_second)) Examples.twentieth Examples.p_init = (Return tt, Examples.p_init).
Proof. vm_compute. reflexivity. Qed.

(** *** The rates of a sample *)

(** C1: when the counter query succeeds with non-negative byte deltas
    (within the range of binary64, which holds every 64-bit counter) and
    the elapsed time [dt] is at least 0.1, [update_speed] returns
    normally, sets both speeds to [delta / dt / 1024] in binary64
    arithmetic, replaces the stored snapshot (bytes sent, bytes received,
    timestamp) by the current reading and emits exactly one signal with
    the two rates. *)
Theorem update_speed_emits_rates (p : proc) (c : snetio) (now : float) :
  0 <= bytes_sent c - last_upload (self p) < 2 ^ 1023 ->
  0 <= bytes_recv c - last_download (self p) < 2 ^ 1023 ->
  leb tenth (elapsed p now) = true ->
  update_speed (Return (Some c)) now p = (Return tt, sampled p c now).
Proof.
  intros Hs Hr Hdt.
  pose proof (leb_not_ltb _ _ Hdt) as Hguard.
  pose proof (leb_tenth_nonzero _ Hdt) as Hnz.
  unfold update_speed, try_except, bind, net_io_counters, gets, get_bytes_sent,
    get_bytes_recv, ret. cbn.
  fold (elapsed p now). rewrite Hguard. cbn.
  rewrite int_truediv_ok by (try exact Hnz; lia). cbn.
  rewrite truediv_int_1024. cbn.
  rewrite int_truediv_ok by (try exact Hnz; lia). cbn.
  rewrite truediv_int_1024. cbn.
  reflexivity.
Qed.

Lemma update_speed_emits_rates_witness :
  update_speed (Return (Some Examples.c_second)) one Examples.p_init =
    (Return tt, sampled Examples.p_init Examples.c_second one).
Proof.
  apply update_speed_emits_rates.
  - simpl. lia.
  - simpl. lia.
  - reflexivity.
Defined.

(** C2: when the elapsed time is below 0.1, [update_speed] emits nothing
    and leaves the object as it was, whatever the counter query did; so a
    later call behaves as if this one had not happened and measures from
    the stored snapshot, over the combined interval. *)
Theorem update_speed_guard (p : proc) (io : net_reading) (now : float) :
  ltb (elapsed p now) tenth = true ->
  update_speed io now p = (Return tt, p) /\
  forall io' now',
    update_speed io' now' (snd (update_speed io now p)) = update_speed io' now' p.
Proof.
  intros Hguard.
  assert (H : update_speed io now p = (Return tt, p)).
  { unfold update_speed, try_except, bind, net_io_counters, gets, ret. cbn.
    destruct io as [net_io | e]; [| reflexivity].
    fold (elapsed p now). rewrite Hguard. reflexivity. }
  split; [exact H |]. intros io' now'. rewrite H. reflexivity.
Qed.

Lemma update_speed_guard_witness :
  update_speed (Return (Some Examples.c_second)) Examples.twentieth Examples.p_init = (Return tt, Examples.p_init) /\
  forall io' now',
    update_speed io' now'
      (snd (update_speed (Return (Some Examples.c_second)) Examples.twentieth Examples.p_init)) =
    update_speed io' now' Examples.p_init.
Proof. apply update_speed_guard. reflexivity. Defined.

(** C6: when the counter query raises, [update_speed] returns normally,
    emits nothing and leaves the object, with its stored snapshot, as it
    was; so the next call measures from that snapshot, over the extended
    interval. *)
Theorem update_speed_read_failure (p : proc) (e : exn) (now : float) :
  update_speed (Raise e) now p = (Return tt, p) /\
  forall io' now',
    update_speed io' now' (snd (update_speed (Raise e) now p)) =
    update_speed io' now' p.
Proof. split; reflexivity. Qed.

(** Without any network interface the query returns [None]: nothing is
    emitted and the object is left as it was, whatever the elapsed time. *)
Lemma update_speed_no_interface (p : proc) (now : float) :
  update_speed (Return None) now p = (Return tt, p).
Proof.
  unfold update_speed, try_except, bind, net_io_counters, gets, ret. cbn.
  destruct (ltb _ tenth); reflexivity.
Qed.

(** [update_speed] never lets an exception out. *)
Lemma update_speed_returns (p : proc) (io : net_reading) (now : float) :
  fst (update_speed io now p) = Return tt.
Proof.
  destruct io as [[c |] | e].
  - apply update_speed_cases.
  - rewrite update_speed_no_interface. reflexivity.
  - reflexivity.
Qed.

(** *** Signs of the rates *)

Example reset_emits_negative_rate :
  emitted (snd (update_speed (Return (Some Examples.c_reset)) one Examples.p_init)) =
    emitted Examples.p_init ++ [(Examples.f_m500_1024, Examples.f_1048_1024)] /\
  is_negative Examples.f_m500_1024 = true.
Proof. vm_compute. split; reflexivity. Qed.

(** C3 fails on the code: after a counter reset the negative delta is
    divided and emitted as it is. *)
Lemma emitted_rates_can_be_negative : ~ emitted_rates_never_negative.
Proof.
  intros H.
  destruct (H Examples.p_init (Return (Some Examples.c_reset)) one Examples.f_m500_1024 Examples.f_1048_1024) as [Hup _].
  - vm_compute. reflexivity.
  - vm_compute in Hup. discriminate Hup.
Qed.

Lemma rate_KBps_not_negative (delta : Z) (dt : float) :
  0 <= delta -> ltb dt tenth = false -> is_negative (rate_KBps delta dt) = false.
Proof.
  intros Hd Hdt. unfold is_negative, rate_KBps.
  apply sign_clear_not_negative.
  apply div_sign; [apply div_sign |].
  - apply of_Z_sign. exact Hd.
  - apply not_ltb_tenth_sign. exact Hdt.
  - apply of_Z_sign. lia.
Qed.

(** C3, amended: every emitted pair of rates is the formula applied to
    the raw deltas, without clamping; a rate is not negative whenever the
    current counter is not below the stored one. *)
Theorem emitted_rates_sign (p : proc) (c : snetio) (now : float) (up down : float) :
  emitted (snd (update_speed (Return (Some c)) now p)) = emitted p ++ [(up, down)] ->
  up = rate_KBps (bytes_sent c - last_upload (self p)) (elapsed p now) /\
  down = rate_KBps (bytes_recv c - last_download (self p)) (elapsed p now) /\
  (last_upload (self p) <= bytes_sent c -> is_negative up = false) /\
  (last_download (self p) <= bytes_recv c -> is_negative down = false).
Proof.
  intros Hem.
  destruct (update_speed_cases p c now) as [_ [Hsame | [Hguard Hs]]].
  - rewrite Hsame in Hem.
    apply (f_equal (@length _)) in Hem. rewrite length_app in Hem. simpl in Hem. lia.
  - rewrite Hs in Hem. unfold sampled in Hem. cbn [emitted] in Hem.
    apply app_inv_head in Hem. injection Hem as <- <-.
    repeat split; try reflexivity; intros Hle;
      apply rate_KBps_not_negative; (lia || exact Hguard).
Qed.

Lemma emitted_rates_sign_witness :
  one = rate_KBps (bytes_sent Examples.c_second - last_upload (self Examples.p_init)) (elapsed Examples.p_init one) /\
  Examples.f_1048_1024 =
    rate_KBps (bytes_recv Examples.c_second - last_download (self Examples.p_init)) (elapsed Examples.p_init one) /\
  (last_upload (self Examples.p_init) <= bytes_sent Examples.c_second -> is_negative one = false) /\
  (last_download (self Examples.p_init) <= bytes_recv Examples.c_second ->
   is_negative Examples.f_1048_1024 = false).
Proof.
  apply (emitted_rates_sign Examples.p_init Examples.c_second one one Examples.f_1048_1024).
  vm_compute. reflexivity.
Defined.

End SpeedMonitorFacts.

(** ** Facts about paths *)

Module PathFacts.
Import OS.

Lemma append_assoc (a b c : string) : (a +:+ b) +:+ c = a +:+ (b +:+ c).
Proof.
  induction a as [| x a IH]; [reflexivity |].
  change (String x ((a +:+ b) +:+ c) = String x (a +:+ (b +:+ c))).
  f_equal. exact IH.
Qed.

Lemma is_empty_append (a b : string) : is_empty b = false -> is_empty (a +:+ b) = false.
Proof. destruct a; simpl; auto. Qed.

Lemma ends_with_sep_append (a b : string) :
  is_empty b = false -> ends_with_sep (a +:+ b) = ends_with_sep b.
Proof.
  intros Hb. induction a as [| x a IH]; [reflexivity |].
  change (String x a +:+ b) with (String x (a +:+ b)).
  pose proof (is_empty_append a b Hb) as Hne.
  simpl. destruct (a +:+ b); [discriminate | exact IH].
Qed.

Lemma starts_with_sep_append (a b : string) :
  is_empty a = false -> starts_with_sep (a +:+ b) = starts_with_sep a.
Proof. destruct a; [discriminate | reflexivity]. Qed.

Lemma expanduser_tilde (rest : string) (w : World) :
  expanduser (String "~" (String "/" rest)) w =
    (Return (userhome w +:+ String "/" rest), w).
Proof.
  unfold expanduser. simpl.
  rewrite is_empty_append by reflexivity. reflexivity.
Qed.

(** Joining a directory that does not end in a slash and a relative
    name. *)
Lemma path_join_relative (a b : string) :
  is_empty a = false -> ends_with_sep a = false -> starts_with_sep b = false ->
  path_join a b = a +:+ "/" +:+ b.
Proof. intros Ha He Hb. unfold path_join. rewrite Hb, Ha, He. reflexivity. Qed.

Lemma path_join_absolute (a b : string) :
  starts_with_sep b = true -> path_join a b = b.
Proof. intros Hb. unfold path_join. rewrite Hb. reflexivity. Qed.

End PathFacts.

(** ** Facts about the file-system operations *)

Module OSFacts.
Import OS Registration PathFacts.

#[local] Arguments String.append : simpl never.

Lemma append_nil_r (a : string) : a +:+ "" = a.
Proof.
  induction a as [| x a IH]; [reflexivity |].
  change (String x (a +:+ "") = String x a). f_equal. exact IH.
Qed.

Lemma length_append (a b : string) :
  String.length (a +:+ b) = (String.length a + String.length b)%nat.
Proof.
  induction a as [| x a IH]; [reflexivity |].
  change (S (String.length (a +:+ b)) = S (String.length a + String.length b)).
  f_equal. exact IH.
Qed.

(** *** Initial parts of a path *)

Lemma on_the_way_refl (d : string) : on_the_way d d.
Proof. exists "". symmetry. apply append_nil_r. Qed.

Lemma on_the_way_trans (a b c : string) :
  on_the_way a b -> on_the_way b c -> on_the_way a c.
Proof.
  intros [r1 ->] [r2 ->]. exists (r1 +:+ r2). apply append_assoc.
Qed.

Lemma on_the_way_length (a b : string) :
  on_the_way a b -> (String.length a <= String.length b)%nat.
Proof. intros [r ->]. rewrite length_append. lia. Qed.

Lemma cut_last_sep_append (p : string) :
  fst (cut_last_sep p) +:+ snd (cut_last_sep p) = p.
Proof.
  induction p as [| c p IH]; [reflexivity |].
  cbn [cut_last_sep]. destruct (cut_last_sep p) as [h t]. cbn [fst snd] in IH.
  destruct h as [| x h]; cbn [is_empty].
  - change (t = p) in IH. subst t. destruct (is_sep c); reflexivity.
  - cbn [fst snd]. change (String c (String x h +:+ t) = String c p). f_equal. exact IH.
Qed.

Lemma rstrip_sep_on_the_way (s : string) : on_the_way (rstrip_sep s) s.
Proof.
  induction s as [| c s [r IH]].
  - exists "". reflexivity.
  - cbn [rstrip_sep]. destruct (rstrip_sep s) as [| c' s'].
    + change (s = r) in IH. subst r. destruct (is_sep c).
      * exists (String c s). reflexivity.
      * exists s. reflexivity.
    + exists r. change (String c s = String c (String c' s' +:+ r)). f_equal. exact IH.
Qed.

Lemma ends_with_sep_cons (c x : ascii) (s : string) :
  ends_with_sep (String c (String x s)) = ends_with_sep (String x s).
Proof. reflexivity. Qed.

Lemma rstrip_sep_cons (c : ascii) (s : string) :
  rstrip_sep (String c s) =
    match rstrip_sep s with
    | EmptyString => if is_sep c then EmptyString else String c EmptyString
    | String c' r => String c (String c' r)
    end.
Proof. reflexivity. Qed.

(** A path that does not end in a slash has nothing to strip. *)
Lemma rstrip_sep_id (s : string) : ends_with_sep s = false -> rstrip_sep s = s.
Proof.
  induction s as [| c s IH]; [reflexivity |].
  destruct s as [| x s].
  - cbn. intros ->. reflexivity.
  - rewrite ends_with_sep_cons. intros He.
    rewrite rstrip_sep_cons, (IH He). reflexivity.
Qed.

Lemma path_split_on_the_way (p : string) : on_the_way (fst (path_split p)) p.
Proof.
  unfold path_split.
  pose proof (cut_last_sep_append p) as Hp.
  destruct (cut_last_sep p) as [h t]. cbn [fst snd] in *.
  destruct (is_empty h || all_sep h).
  - exists t. symmetry. exact Hp.
  - apply (on_the_way_trans _ h); [apply rstrip_sep_on_the_way |].
    exists t. symmetry. exact Hp.
Qed.

Lemma path_split_shorter (p : string) :
  is_empty (snd (path_split p)) = false ->
  (String.length (fst (path_split p)) < String.length p)%nat.
Proof.
  unfold path_split.
  pose proof (cut_last_sep_append p) as Hp.
  destruct (cut_last_sep p) as [h t]. cbn [fst snd] in *. intros Ht.
  assert (Hlen : (String.length h < String.length p)%nat).
  { rewrite <- Hp, length_append. destruct t; [discriminate | cbn; lia]. }
  destruct (is_empty h || all_sep h); [exact Hlen |].
  pose proof (on_the_way_length _ _ (rstrip_sep_on_the_way h)). lia.
Qed.

Lemma makedirs_split_on_the_way (name : string) :
  on_the_way (fst (makedirs_split name)) name.
Proof.
  unfold makedirs_split.
  pose proof (path_split_on_the_way name) as H.
  destruct (path_split name) as [h t]. cbn [fst] in H.
  destruct (is_empty t); [| exact H].
  apply (on_the_way_trans _ h); [apply path_split_on_the_way | exact H].
Qed.

Lemma makedirs_split_shorter (name : string) :
  is_empty (snd (makedirs_split name)) = false ->
  (String.length (fst (makedirs_split name)) < String.length name)%nat.
Proof.
  unfold makedirs_split.
  pose proof (path_split_on_the_way name) as H.
  pose proof (path_split_shorter name) as Hs.
  destruct (path_split name) as [h t]. cbn [fst snd] in *.
  destruct (is_empty t) eqn:Ht; [| intros _; apply Hs; reflexivity].
  intros Ht'. pose proof (path_split_shorter h Ht').
  pose proof (on_the_way_length _ _ H). lia.
Qed.

(** The last component of a path that ends in a slash and a name. *)
Lemma cut_last_sep_name (a b : string) :
  cut_last_sep b = ("", b) -> cut_last_sep (a +:+ "/" +:+ b) = (a +:+ "/", b).
Proof.
  intros Hb. induction a as [| c a IH].
  - change ("" +:+ "/" +:+ b) with (String "/" b). cbn [cut_last_sep].
    rewrite Hb. reflexivity.
  - change (String c a +:+ "/" +:+ b) with (String c (a +:+ "/" +:+ b)).
    cbn [cut_last_sep]. rewrite IH.
    rewrite is_empty_append by reflexivity. reflexivity.
Qed.

Lemma makedirs_split_name (a b : string) :
  cut_last_sep b = ("", b) -> is_empty b = false ->
  snd (makedirs_split (a +:+ "/" +:+ b)) = b.
Proof.
  intros Hb Hne. unfold makedirs_split, path_split.
  rewrite (cut_last_sep_name a b Hb). rewrite Hne. reflexivity.
Qed.

(** *** The recursion of [makedirs] *)

Lemma makedirs_body_ext (r1 r2 : string -> M World unit) (name : string) (w : World) :
  (forall h w0, (String.length h < String.length name)%nat -> r1 h w0 = r2 h w0) ->
  makedirs_body r1 name w = makedirs_body r2 name w.
Proof.
  intros Hr. unfold makedirs_body.
  pose proof (makedirs_split_shorter name) as Hs.
  destruct (makedirs_split name) as [head tail]. cbn [fst snd] in Hs.
  destruct (is_empty head) eqn:Hh; [reflexivity |].
  destruct (is_empty tail) eqn:Ht; [reflexivity |].
  cbn [negb andb]. unfold bind, try_except_FileExistsError.
  destruct (path_exists head w) as [[there | e] w1]; [| reflexivity].
  unfold ret. destruct (negb there); [| reflexivity].
  rewrite (Hr head w1 (Hs eq_refl)). reflexivity.
Qed.

Lemma makedirs_rounds_same (n : nat) : forall (m : nat) (name : string) (w : World),
  (String.length name <= n)%nat -> (String.length name <= m)%nat ->
  makedirs_rounds n name w = makedirs_rounds m name w.
Proof.
  induction n as [| n IH]; intros m name w Hn Hm.
  - destruct m as [| m]; [reflexivity |].
    cbn [makedirs_rounds]. apply makedirs_body_ext. intros h w0 Hh. lia.
  - destruct m as [| m]; cbn [makedirs_rounds]; apply makedirs_body_ext; intros h w0 Hh.
    + lia.
    + apply IH; lia.
Qed.

(** As many rounds as the name has characters are enough: more rounds
    give the same. *)
Lemma makedirs_rounds_enough (n : nat) (name : string) (w : World) :
  (String.length name <= n)%nat -> makedirs_rounds n name w = makedirs name w.
Proof. intros Hn. unfold makedirs. apply makedirs_rounds_same; [exact Hn | lia]. Qed.

(** [os.makedirs] unfolds as its source reads. *)
Lemma makedirs_unfold (name : string) (w : World) :
  makedirs name w = makedirs_body makedirs name w.
Proof.
  unfold makedirs at 1.
  destruct (String.length name) as [| n] eqn:Hlen; cbn [makedirs_rounds];
    apply makedirs_body_ext; intros h w0 Hh; [lia |].
  apply makedirs_rounds_enough. lia.
Qed.

(** *** What the operations leave alone *)

Lemma keeps_refl (w : World) : keeps w w.
Proof. unfold keeps, same_machine. auto 10. Qed.

Lemma keeps_trans (w w1 w2 : World) : keeps w w1 -> keeps w1 w2 -> keeps w w2.
Proof.
  unfold keeps, same_machine.
  intros (? & ? & ? & ? & ? & ? & ? & ?) (? & ? & ? & ? & ? & ? & ? & ?).
  repeat split; congruence.
Qed.

Lemma keeps_set_fs (w : World) (f : gmap string node) : keeps w (set_fs f w).
Proof. unfold keeps, same_machine. cbn. auto 10. Qed.

Lemma only_new_dirs_refl (d : string) (l : list string) (f : gmap string node) :
  only_new_dirs d l f f.
Proof. intros p _. destruct (f !! p); auto. Qed.

Lemma only_new_dirs_trans (d : string) (l : list string) (f f1 f2 : gmap string node) :
  only_new_dirs d l f f1 -> only_new_dirs d l f1 f2 -> only_new_dirs d l f f2.
Proof.
  intros H1 H2 p Hp. specialize (H1 p Hp). specialize (H2 p Hp).
  destruct (f !! p) as [n |].
  - rewrite H1 in H2. exact H2.
  - destruct H1 as [H1 | [H1 Hw]]; rewrite H1 in H2; [exact H2 | auto].
Qed.

Lemma only_new_dirs_weaken (h d : string) (l l' : list string) (f f' : gmap string node) :
  on_the_way h d -> (forall p, p ∉ l' -> p ∉ l) ->
  only_new_dirs h l f f' -> only_new_dirs d l' f f'.
Proof.
  intros Hhd Hl H p Hp. specialize (H p (Hl p Hp)).
  destruct (f !! p); [exact H |].
  destruct H as [H | [H Hw]]; [auto |].
  right. split; [exact H |]. apply (on_the_way_trans _ h); assumption.
Qed.

(** Putting a directory where nothing was. *)
Lemma only_new_dirs_insert (d q : string) (l : list string) (f : gmap string node) :
  f !! q = None -> on_the_way q d -> only_new_dirs d l f (<[q := Dir]> f).
Proof.
  intros Hq Hw p _. destruct (decide (p = q)) as [-> | Hne].
  - rewrite Hq, lookup_insert_eq. auto.
  - rewrite lookup_insert_ne by congruence. destruct (f !! p); auto.
Qed.

Lemma mkdir_frame (p : string) (w : World) :
  keeps w (snd (mkdir p w)) /\
  only_new_dirs p [] (fs w) (fs (snd (mkdir p w))).
Proof.
  unfold mkdir.
  destruct (is_empty p); [split; [apply keeps_refl | apply only_new_dirs_refl] |].
  destruct (is_root p); [split; [apply keeps_refl | apply only_new_dirs_refl] |].
  destruct (parent_check (rstrip_sep p) w);
    [| split; [apply keeps_refl | apply only_new_dirs_refl]].
  destruct (fs w !! rstrip_sep p) eqn:Hq;
    [split; [apply keeps_refl | apply only_new_dirs_refl] |].
  cbn. split; [apply keeps_set_fs |].
  apply only_new_dirs_insert; [exact Hq | apply rstrip_sep_on_the_way].
Qed.

(** What [mkdir] has made when it returns. *)
Lemma mkdir_ok (p : string) (w w' : World) :
  mkdir p w = (Return tt, w') -> fs w' !! rstrip_sep p = Some Dir.
Proof.
  unfold mkdir.
  destruct (is_empty p); [discriminate |].
  destruct (is_root p); [discriminate |].
  destruct (parent_check (rstrip_sep p) w); [| discriminate].
  destruct (fs w !! rstrip_sep p); [discriminate |].
  intros [= <-]. cbn. apply lookup_insert_eq.
Qed.

Lemma makedirs_body_frame (r : string -> M World unit) (name : string) (w : World) :
  (forall h w0, keeps w0 (snd (r h w0)) /\ only_new_dirs h [] (fs w0) (fs (snd (r h w0)))) ->
  keeps w (snd (makedirs_body r name w)) /\
  only_new_dirs name [] (fs w) (fs (snd (makedirs_body r name w))).
Proof.
  intros Hr. unfold makedirs_body.
  pose proof (makedirs_split_on_the_way name) as Hway.
  destruct (makedirs_split name) as [head tail]. cbn [fst] in Hway.
  assert (Hlast : forall w0, keeps w w0 -> only_new_dirs name [] (fs w) (fs w0) ->
            keeps w (snd (mkdir name w0)) /\
            only_new_dirs name [] (fs w) (fs (snd (mkdir name w0)))).
  { intros w0 Hk Hn. destruct (mkdir_frame name w0) as [Hk' Hn'].
    split; [eapply keeps_trans; eassumption | eapply only_new_dirs_trans; eassumption]. }
  assert (Hplain : keeps w (snd (mkdir name w)) /\
                   only_new_dirs name [] (fs w) (fs (snd (mkdir name w)))).
  { apply Hlast; [apply keeps_refl | apply only_new_dirs_refl]. }
  unfold bind, path_exists, ret, try_except_FileExistsError.
  destruct (negb (is_empty head) && negb (is_empty tail)); [| exact Hplain].
  destruct (negb _); [| exact Hplain].
  destruct (Hr head w) as [Hk Hn].
  assert (Hn' : only_new_dirs name [] (fs w) (fs (snd (r head w)))).
  { apply (only_new_dirs_weaken head name [] [] _ _ Hway); [auto | exact Hn]. }
  destruct (r head w) as [[[] | e] w1]; cbn [snd] in *.
  - destruct (String.eqb tail "."); [auto |]. apply Hlast; assumption.
  - destruct e; cbn [snd]; auto.
    destruct (String.eqb tail "."); [auto |]. apply Hlast; assumption.
Qed.

Lemma makedirs_rounds_frame (n : nat) : forall (name : string) (w : World),
  keeps w (snd (makedirs_rounds n name w)) /\
  only_new_dirs name [] (fs w) (fs (snd (makedirs_rounds n name w))).
Proof.
  induction n as [| n IH]; intros name w; cbn [makedirs_rounds];
    apply makedirs_body_frame.
  - intros h w0. cbn. split; [apply keeps_refl | apply only_new_dirs_refl].
  - exact IH.
Qed.

(** [os.makedirs] changes or removes nothing that is there; all it adds
    are directories on the way to its argument. *)
Lemma makedirs_frame (name : string) (w : World) :
  keeps w (snd (makedirs name w)) /\
  only_new_dirs name [] (fs w) (fs (snd (makedirs name w))).
Proof. apply makedirs_rounds_frame. Qed.

(** When [os.makedirs] returns, the directory is there, unless the path
    ends in a dot. *)
Lemma makedirs_ok (name : string) (w w' : World) :
  String.eqb (snd (makedirs_split name)) "." = false ->
  makedirs name w = (Return tt, w') -> fs w' !! rstrip_sep name = Some Dir.
Proof.
  intros Hdot. rewrite makedirs_unfold. unfold makedirs_body.
  destruct (makedirs_split name) as [head tail]. cbn [snd] in Hdot.
  unfold bind, path_exists, ret, try_except_FileExistsError.
  destruct (negb (is_empty head) && negb (is_empty tail)); [| apply mkdir_ok].
  destruct (negb _); [| apply mkdir_ok].
  rewrite Hdot.
  destruct (makedirs head w) as [[[] | e] w1]; [apply mkdir_ok |].
  destruct e; try discriminate. apply mkdir_ok.
Qed.

(** An ancestor that is a regular file stops [os.makedirs]. *)
Example makedirs_through_file :
  fst (makedirs "/home/u/.config/autostart" MoreExamples.config_is_file) =
    Raise NotADirectoryError.
Proof. vm_compute. reflexivity. Qed.

(** On an account with an empty home directory [os.makedirs] makes the
    two directories that are missing. *)
Example makedirs_makes_ancestors :
  makedirs "/home/u/.config/autostart" MoreExamples.empty_home =
    (Return tt,
     set_fs (<["/home/u/.config/autostart" := Dir]>
               (<["/home/u/.config" := Dir]> (fs MoreExamples.empty_home)))
       MoreExamples.empty_home).
Proof. vm_compute. reflexivity. Qed.

End OSFacts.

(** ** Facts about AutoStartManager *)

Module AutoStartManagerFacts.
Import OS AutoStartManager Registration PathFacts OSFacts.

#[local] Arguments expanduser : simpl never.
#[local] Arguments path_join : simpl never.
#[local] Arguments String.append : simpl never.

Lemma autostart_dir_expanded (w : World) :
  expanduser "~/.config/autostart" w = (Return (autostart_dir w), w).
Proof. apply expanduser_tilde. Qed.

Lemma launch_agents_dir_expanded (w : World) :
  expanduser "~/Library/LaunchAgents" w = (Return (launch_agents_dir w), w).
Proof. apply expanduser_tilde. Qed.

Lemma desktop_file_removed_expanded (self : t) (w : World) :
  expanduser ("~/.config/autostart/" +:+ app_name self +:+ ".desktop") w =
    (Return (desktop_file_removed self w), w).
Proof. apply expanduser_tilde. Qed.

Lemma plist_path_expanded (self : t) (w : World) :
  expanduser ("~/Library/LaunchAgents/com." +:+ app_name self +:+ ".plist") w =
    (Return (plist_path self w), w).
Proof. apply expanduser_tilde. Qed.

(** On macOS [enable] joins to the path that the other two methods
    expand. *)
Lemma plist_path_joined (self : t) (w : World) :
  path_join (launch_agents_dir w) ("com." +:+ app_name self +:+ ".plist") =
    plist_path self w.
Proof.
  rewrite path_join_relative.
  - unfold launch_agents_dir, plist_path. rewrite append_assoc. reflexivity.
  - apply is_empty_append. reflexivity.
  - unfold launch_agents_dir. rewrite ends_with_sep_append; reflexivity.
  - reflexivity.
Qed.

(** On Linux [disable] removes the file that the other two methods use,
    provided the application name is relative. *)
Lemma desktop_file_relative (self : t) (w : World) :
  relative_name self -> desktop_file self w = desktop_file_removed self w.
Proof.
  unfold relative_name. intros Hrel. unfold desktop_file.
  rewrite path_join_relative.
  - unfold autostart_dir, desktop_file_removed. rewrite append_assoc. reflexivity.
  - apply is_empty_append. reflexivity.
  - unfold autostart_dir. rewrite ends_with_sep_append; reflexivity.
  - destruct (app_name self) as [| c n]; [reflexivity | exact Hrel].
Qed.

Lemma system_cases (self : t) :
  supported self \/
  (String.eqb (system self) "Windows" = false /\
   String.eqb (system self) "Linux" = false /\
   String.eqb (system self) "Darwin" = false).
Proof.
  unfold supported.
  destruct (String.eqb_spec (system self) "Windows"); [auto |].
  destruct (String.eqb_spec (system self) "Linux"); [auto |].
  destruct (String.eqb_spec (system self) "Darwin"); auto.
Qed.

(** *** [is_enabled], platform by platform *)

Lemma is_enabled_Windows (self : t) (w : World) :
  system self = "Windows" ->
  is_enabled self w =
    (Return match run_value self w with
            | Some v => data_eq_str (data v) (app_path self)
            | None => false
            end, w).
Proof.
  intros Hsys. unfold is_enabled, run_value, try_except, try_except_WindowsError,
    bind, OpenKey, QueryValueEx, CloseKey, ret.
  rewrite Hsys. cbn.
  destruct (registry w !! Run) as [values |] eqn:Hrun; cbn; [| reflexivity].
  change (Z.land KEY_READ KEY_QUERY_VALUE =? 0) with false. cbn. rewrite Hrun.
  destruct (values !! app_name self) as [v |]; reflexivity.
Qed.

Lemma is_enabled_Linux (self : t) (w : World) :
  system self = "Linux" ->
  is_enabled self w = (Return (present w (desktop_file self w)), w).
Proof.
  intros Hsys. unfold is_enabled, try_except, bind. rewrite Hsys. cbn.
  rewrite autostart_dir_expanded. reflexivity.
Qed.

Lemma is_enabled_Darwin (self : t) (w : World) :
  system self = "Darwin" ->
  is_enabled self w = (Return (present w (plist_path self w)), w).
Proof.
  intros Hsys. unfold is_enabled, try_except, bind. rewrite Hsys. cbn.
  rewrite plist_path_expanded. reflexivity.
Qed.

Lemma is_enabled_unsupported (self : t) (w : World) :
  String.eqb (system self) "Windows" = false ->
  String.eqb (system self) "Linux" = false ->
  String.eqb (system self) "Darwin" = false ->
  is_enabled self w = (Return false, w).
Proof.
  intros H1 H2 H3. unfold is_enabled, try_except. rewrite H1, H2, H3. reflexivity.
Qed.

(** *** Worlds *)

Lemma set_fs_id (w : World) (f : gmap string node) : f = fs w -> set_fs f w = w.
Proof. intros ->. destruct w; reflexivity. Qed.

Lemma set_registry_id (w : World) (r : gmap string (gmap string reg_value)) :
  r = registry w -> set_registry r w = w.
Proof. intros ->. destruct w; reflexivity. Qed.

Lemma set_launchd_id (w : World) (l : gset string) : l = launchd w -> set_launchd l w = w.
Proof. intros ->. destruct w; reflexivity. Qed.

Lemma present_insert (w : World) (p q : string) (n : node) :
  present w p = true -> present (set_fs (<[q := n]> (fs w)) w) p = true.
Proof.
  unfold present. cbn. intros Hp.
  destruct (decide (q = p)) as [-> | Hne].
  - rewrite lookup_insert_eq. reflexivity.
  - rewrite lookup_insert_ne by exact Hne. exact Hp.
Qed.

(** *** The directory of the registration *)

Lemma make_missing_there (d : string) (w : World) :
  present w d = true -> make_missing d w = (Return tt, w).
Proof.
  unfold make_missing, bind, path_exists, present.
  destruct (fs w !! d); [reflexivity | discriminate].
Qed.

Lemma ensure_dir_present (d : string) (w : World) :
  present w d = true -> ensure_dir d w = w.
Proof. intros Hd. unfold ensure_dir. rewrite (make_missing_there d w Hd). reflexivity. Qed.

(** Whether it returns or raises, making the missing directory changes
    or removes nothing that is there. *)
Lemma ensure_dir_frame (d : string) (w : World) :
  keeps w (ensure_dir d w) /\ only_new_dirs d [] (fs w) (fs (ensure_dir d w)).
Proof.
  unfold ensure_dir, make_missing, bind, path_exists, ret.
  destruct (fs w !! d); cbn [negb snd].
  - split; [apply keeps_refl | apply only_new_dirs_refl].
  - apply makedirs_frame.
Qed.

Lemma userhome_ensure_dir (d : string) (w : World) : userhome (ensure_dir d w) = userhome w.
Proof. destruct (ensure_dir_frame d w) as [(_ & _ & Hh & _) _]. exact Hh. Qed.

Lemma ensure_dir_fields (d : string) (w : World) :
  registry (ensure_dir d w) = registry w /\ launchd (ensure_dir d w) = launchd w /\
  umask (ensure_dir d w) = umask w /\ write_fault (ensure_dir d w) = write_fault w /\
  launchctl_load_run (ensure_dir d w) = launchctl_load_run w.
Proof.
  destruct (ensure_dir_frame d w) as [(Hr & Hl & _ & Hu & Hf & _ & Hload & _) _]. auto.
Qed.

Lemma chmod_fault_ensure_dir (d : string) (w : World) :
  chmod_fault (ensure_dir d w) = chmod_fault w.
Proof. destruct (ensure_dir_frame d w) as [(_ & _ & _ & _ & _ & H & _) _]. exact H. Qed.

(** What was there before is there afterwards. *)
Lemma present_ensure_dir_kept (d p : string) (w : World) :
  present w p = true -> fs (ensure_dir d w) !! p = fs w !! p.
Proof.
  unfold present. intros Hp.
  destruct (ensure_dir_frame d w) as [_ Hn]. specialize (Hn p (not_elem_of_nil p)).
  destruct (fs w !! p); [exact Hn | discriminate].
Qed.

(** When the directory has been made, it is there. *)
Lemma make_missing_ok (a b : string) (w : World) :
  cut_last_sep b = (EmptyString, b) -> is_empty b = false ->
  ends_with_sep b = false -> String.eqb b "." = false ->
  fst (make_missing (a +:+ "/" +:+ b) w) = Return tt ->
  present (ensure_dir (a +:+ "/" +:+ b) w) (a +:+ "/" +:+ b) = true.
Proof.
  intros Hcut Hne Hend Hdot. unfold ensure_dir, make_missing, bind, path_exists, present, ret.
  destruct (fs w !! (a +:+ "/" +:+ b)) eqn:Hd; cbn [negb fst snd].
  - rewrite Hd. reflexivity.
  - destruct (makedirs (a +:+ "/" +:+ b) w) as [r w'] eqn:Hm. cbn [fst snd]. intros ->.
    apply makedirs_ok in Hm.
    + rewrite rstrip_sep_id in Hm; [rewrite Hm; reflexivity |].
      rewrite ends_with_sep_append by reflexivity.
      rewrite (ends_with_sep_append "/" b Hne). exact Hend.
    + rewrite (makedirs_split_name a b Hcut Hne). exact Hdot.
Qed.

Lemma autostart_dir_made (w : World) :
  fst (make_missing (autostart_dir w) w) = Return tt ->
  present (ensure_dir (autostart_dir w) w) (autostart_dir w) = true.
Proof.
  assert (Hd : autostart_dir w = (userhome w +:+ "/.config") +:+ "/" +:+ "autostart").
  { unfold autostart_dir. rewrite append_assoc. reflexivity. }
  rewrite Hd. apply make_missing_ok; reflexivity.
Qed.

Lemma launch_agents_dir_made (w : World) :
  fst (make_missing (launch_agents_dir w) w) = Return tt ->
  present (ensure_dir (launch_agents_dir w) w) (launch_agents_dir w) = true.
Proof.
  assert (Hd : launch_agents_dir w = (userhome w +:+ "/Library") +:+ "/" +:+ "LaunchAgents").
  { unfold launch_agents_dir. rewrite append_assoc. reflexivity. }
  rewrite Hd. apply make_missing_ok; reflexivity.
Qed.

(** Writing a file does not disturb the directory it is looked up in. *)
Lemma parent_check_insert (w : World) (f text : string) (mode : Z) :
  parent_check f w = Return tt -> fs w !! f <> Some Dir ->
  parent_check f (set_fs (<[f := File text mode]> (fs w)) w) = Return tt.
Proof.
  unfold parent_check. intros Hp Hf.
  destruct (split_last_sep f) as [[| c d] |]; try reflexivity.
  cbn. destruct (decide (f = String c d)) as [Heq | Hne].
  - rewrite <- Heq in Hp.
    destruct (fs w !! f) as [[text' mode' |] |]; try discriminate. congruence.
  - rewrite lookup_insert_ne by exact Hne. exact Hp.
Qed.

(** *** [write_file] *)

(** The mode that [open(p, "w")] leaves the file with. *)
Lemma write_file_cases (f text : string) (w : World) :
  write_file f text w =
    match parent_check f w with
    | Raise e => (Raise e, w)
    | Return _ =>
        match fs w !! f with
        | Some Dir => (Raise IsADirectoryError, w)
        | other =>
            let mode := match other with
                        | Some (File _ mode) => mode
                        | _ => Z.land 438 (Z.lnot (umask w))
                        end in
            match write_fault w f text with
            | Some (e, kept) => (Raise e, set_fs (<[f := File kept mode]> (fs w)) w)
            | None => (Return tt, set_fs (<[f := File text mode]> (fs w)) w)
            end
        end
    end.
Proof.
  unfold write_file, bind, open_w, write_close.
  destruct (parent_check f w) as [[] | e]; [| reflexivity].
  destruct (fs w !! f) as [[text' mode' |] |]; cbn; rewrite ?lookup_insert_eq;
    try reflexivity;
    destruct (write_fault w f text) as [[e kept] |]; cbn;
    rewrite insert_insert_eq; reflexivity.
Qed.

Lemma write_file_ok (f text : string) (w w' : World) :
  write_file f text w = (Return tt, w') ->
  parent_check f w = Return tt /\ fs w !! f <> Some Dir /\
  write_fault w f text = None /\
  exists mode, w' = set_fs (<[f := File text mode]> (fs w)) w /\
               (forall text' mode', fs w !! f = Some (File text' mode') -> mode = mode').
Proof.
  rewrite write_file_cases. destruct (parent_check f w) as [[] | e]; [| discriminate].
  destruct (fs w !! f) as [[text' mode' |] |]; cbn;
    destruct (write_fault w f text) as [[e kept] |]; try discriminate;
    intros [= <-]; (split; [reflexivity | split; [discriminate | split; [reflexivity |]]]).
  - exists mode'. split; [reflexivity |]. intros ? ? [= _ <-]. reflexivity.
  - eexists. split; [reflexivity |]. intros ? ? [=].
Qed.

Lemma write_file_again (f text : string) (mode : Z) (w : World) :
  parent_check f w = Return tt -> fs w !! f = Some (File text mode) ->
  write_fault w f text = None ->
  write_file f text w = (Return tt, w).
Proof.
  intros Hp Hf Hfault. rewrite write_file_cases, Hp, Hf. cbn. rewrite Hfault.
  rewrite set_fs_id; [reflexivity |]. apply insert_id. exact Hf.
Qed.

(** How [write_file] can end: with the text in the file; with nothing
    changed, when the file could not be opened; or with the file left
    behind, when the write broke off. *)
Lemma write_file_result (f text : string) (w : World) :
  (exists w', write_file f text w = (Return tt, w')) \/
  (exists e, write_file f text w = (Raise e, w)) \/
  (exists e kept mode,
     write_fault w f text = Some (e, kept) /\ fs w !! f <> Some Dir /\
     write_file f text w = (Raise e, set_fs (<[f := File kept mode]> (fs w)) w)).
Proof.
  rewrite write_file_cases. destruct (parent_check f w) as [[] | e]; [| eauto].
  destruct (fs w !! f) as [[text' mode' |] |]; cbn; eauto;
    destruct (write_fault w f text) as [[e kept] |]; eauto;
    right; right; eexists _, _, _; (split; [reflexivity | split; [discriminate | reflexivity]]).
Qed.

(** *** [enable] and [disable], platform by platform *)

Lemma enable_Windows (self : t) (w : World) :
  system self = "Windows" ->
  enable self w =
    match registry w !! Run with
    | Some values =>
        (Return true,
         set_registry
           (<[Run := <[app_name self := {| data := RStr (app_path self); kind := REG_SZ |}]>
                       values]> (registry w)) w)
    | None => (Return false, w)
    end.
Proof.
  intros Hsys. unfold enable, try_except, bind, OpenKey, SetValueEx, CloseKey, ret.
  rewrite Hsys. cbn.
  destruct (registry w !! Run) as [values |] eqn:Hrun; cbn; [| reflexivity].
  change (Z.land KEY_WRITE KEY_SET_VALUE =? 0) with false. cbn. rewrite Hrun.
  reflexivity.
Qed.

Lemma disable_Windows (self : t) (w : World) :
  system self = "Windows" ->
  disable self w =
    match registry w !! Run with
    | Some values =>
        (Return true,
         match values !! app_name self with
         | Some _ => set_registry (<[Run := delete (app_name self) values]> (registry w)) w
         | None => w
         end)
    | None => (Return false, w)
    end.
Proof.
  intros Hsys. unfold disable, try_except, try_except_WindowsError, bind, OpenKey,
    DeleteValue, CloseKey, ret.
  rewrite Hsys. cbn.
  destruct (registry w !! Run) as [values |] eqn:Hrun; cbn; [| reflexivity].
  change (Z.land KEY_WRITE KEY_SET_VALUE =? 0) with false. cbn. rewrite Hrun.
  destruct (values !! app_name self); reflexivity.
Qed.

Lemma enable_Linux (self : t) (w : World) :
  system self = "Linux" ->
  enable self w =
    match make_missing (autostart_dir w) w with
    | (Return _, w1) =>
        match write_file (desktop_file self w) (desktop_entry self) w1 with
        | (Return _, w2) =>
            match chmod (desktop_file self w) 493 w2 with
            | (Return _, w3) => (Return true, w3)
            | (Raise _, w3) => (Return false, w3)
            end
        | (Raise _, w2) => (Return false, w2)
        end
    | (Raise _, w1) => (Return false, w1)
    end.
Proof.
  intros Hsys. unfold enable, try_except, bind. rewrite Hsys. cbn.
  rewrite autostart_dir_expanded. fold (desktop_file self w).
  unfold make_missing, bind, path_exists, ret.
  destruct (fs w !! autostart_dir w) eqn:Hdir; cbn [negb].
  - destruct (write_file _ _ _) as [[[] | e] w2]; try reflexivity;
      destruct (chmod _ _ _) as [[[] | e] w3]; reflexivity.
  - destruct (makedirs _ _) as [[[] | e] w1]; [| reflexivity].
    destruct (write_file _ _ _) as [[[] | e] w2]; try reflexivity;
      destruct (chmod _ _ _) as [[[] | e] w3]; reflexivity.
Qed.

Lemma disable_Linux (self : t) (w : World) :
  system self = "Linux" ->
  disable self w =
    match fs w !! desktop_file_removed self w with
    | Some (File _ _) =>
        (Return true, set_fs (delete (desktop_file_removed self w) (fs w)) w)
    | Some Dir => (Return false, w)
    | None => (Return true, w)
    end.
Proof.
  intros Hsys. unfold disable, try_except, bind. rewrite Hsys. cbn.
  rewrite desktop_file_removed_expanded.
  unfold path_exists, remove, ret.
  destruct (fs w !! desktop_file_removed self w) as [[text mode |] |] eqn:Hf;
    cbn; rewrite ?Hf; reflexivity.
Qed.

Lemma enable_Darwin (self : t) (w : World) :
  system self = "Darwin" ->
  enable self w =
    match make_missing (launch_agents_dir w) w with
    | (Return _, w1) =>
        match write_file (plist_path self w) (plist self) w1 with
        | (Return _, w2) => (Return true, snd (launchctl_load (plist_path self w) w2))
        | (Raise _, w2) => (Return false, w2)
        end
    | (Raise _, w1) => (Return false, w1)
    end.
Proof.
  intros Hsys. unfold enable, try_except, bind. rewrite Hsys. cbn.
  rewrite launch_agents_dir_expanded, plist_path_joined.
  unfold make_missing, bind, path_exists, ret.
  destruct (fs w !! launch_agents_dir w) eqn:Hdir; cbn [negb].
  - destruct (write_file _ _ _) as [[[] | e] w2]; try reflexivity.
    unfold launchctl_load. destruct (launchctl_load_run _ _ _). reflexivity.
  - destruct (makedirs _ _) as [[[] | e] w1]; [| reflexivity].
    destruct (write_file _ _ _) as [[[] | e] w2]; try reflexivity.
    unfold launchctl_load. destruct (launchctl_load_run _ _ _). reflexivity.
Qed.

Lemma disable_Darwin (self : t) (w : World) :
  system self = "Darwin" ->
  disable self w =
    match fs w !! plist_path self w with
    | Some (File _ _) =>
        (Return true,
         set_fs (delete (plist_path self w) (fs w))
           (snd (launchctl_unload (plist_path self w) w)))
    | Some Dir => (Return false, snd (launchctl_unload (plist_path self w) w))
    | None => (Return true, w)
    end.
Proof.
  intros Hsys. unfold disable, try_except, bind. rewrite Hsys. cbn.
  rewrite plist_path_expanded.
  unfold path_exists, remove, launchctl_unload, ret.
  destruct (fs w !! plist_path self w) as [[text mode |] |] eqn:Hf; cbn;
    try reflexivity;
    destruct (launchctl_unload_run _ _ _); cbn; rewrite Hf; reflexivity.
Qed.

Lemma enable_unsupported (self : t) (w : World) :
  String.eqb (system self) "Windows" = false ->
  String.eqb (system self) "Linux" = false ->
  String.eqb (system self) "Darwin" = false ->
  enable self w = (Return false, w).
Proof.
  intros H1 H2 H3. unfold enable, try_except. rewrite H1, H2, H3. reflexivity.
Qed.

Lemma disable_unsupported (self : t) (w : World) :
  String.eqb (system self) "Windows" = false ->
  String.eqb (system self) "Linux" = false ->
  String.eqb (system self) "Darwin" = false ->
  disable self w = (Return false, w).
Proof.
  intros H1 H2 H3. unfold disable, try_except. rewrite H1, H2, H3. reflexivity.
Qed.

(** *** A successful [enable] *)

Lemma chmod_file (f text : string) (mode mode' : Z) (w : World) :
  fs w !! f = Some (File text mode) -> chmod_fault w f = None ->
  chmod f mode' w = (Return tt, set_fs (<[f := File text mode']> (fs w)) w).
Proof. intros Hf Hc. unfold chmod. rewrite Hf, Hc. reflexivity. Qed.

(** How [os.chmod] ends on a file: with the mode set, or refused with
    nothing changed. *)
Lemma chmod_cases (f text : string) (mode mode' : Z) (w : World) :
  fs w !! f = Some (File text mode) ->
  (chmod_fault w f = None /\
   chmod f mode' w = (Return tt, set_fs (<[f := File text mode']> (fs w)) w)) \/
  (exists e, chmod_fault w f = Some e /\ chmod f mode' w = (Raise e, w)).
Proof.
  intros Hf. unfold chmod. rewrite Hf.
  destruct (chmod_fault w f) as [e |]; [right; eauto | left; auto].
Qed.

Lemma enable_Linux_ok (self : t) (w w' : World) :
  system self = "Linux" -> enable self w = (Return true, w') ->
  fst (make_missing (autostart_dir w) w) = Return tt /\
  parent_check (desktop_file self w) (ensure_dir (autostart_dir w) w) = Return tt /\
  fs (ensure_dir (autostart_dir w) w) !! desktop_file self w <> Some Dir /\
  write_fault w (desktop_file self w) (desktop_entry self) = None /\
  chmod_fault w (desktop_file self w) = None /\
  w' = set_fs (<[desktop_file self w := File (desktop_entry self) 493]>
                 (fs (ensure_dir (autostart_dir w) w)))
         (ensure_dir (autostart_dir w) w).
Proof.
  intros Hsys. rewrite (enable_Linux self w Hsys). unfold ensure_dir.
  destruct (ensure_dir_fields (autostart_dir w) w) as (_ & _ & _ & Hfault & _).
  pose proof (chmod_fault_ensure_dir (autostart_dir w) w) as Hcf.
  unfold ensure_dir in Hfault, Hcf.
  destruct (make_missing (autostart_dir w) w) as [[[] | e] w0]; [| discriminate].
  cbn [fst snd] in *.
  destruct (write_file _ _ _) as [[[] | e] w2] eqn:Hw; [| discriminate].
  destruct (write_file_ok _ _ _ _ Hw) as (Hp & Hd & Hnone & mode & -> & _).
  destruct (chmod_cases (desktop_file self w) (desktop_entry self) mode 493
              (set_fs (<[desktop_file self w := File (desktop_entry self) mode]> (fs w0)) w0))
    as [[Hc ->] | (e & _ & ->)]; [cbn; apply lookup_insert_eq | | discriminate].
  intros [= <-]. cbn. rewrite insert_insert_eq. rewrite <- Hfault, <- Hcf. auto 10.
Qed.

Lemma enable_Darwin_ok (self : t) (w w' : World) :
  system self = "Darwin" -> enable self w = (Return true, w') ->
  fst (make_missing (launch_agents_dir w) w) = Return tt /\
  parent_check (plist_path self w) (ensure_dir (launch_agents_dir w) w) = Return tt /\
  fs (ensure_dir (launch_agents_dir w) w) !! plist_path self w <> Some Dir /\
  write_fault w (plist_path self w) (plist self) = None /\
  exists mode,
    w' = set_launchd
           (snd (launchctl_load_run w (plist_path self w)
                   (<[plist_path self w := File (plist self) mode]>
                      (fs (ensure_dir (launch_agents_dir w) w)))) ∪ launchd w)
           (set_fs (<[plist_path self w := File (plist self) mode]>
                      (fs (ensure_dir (launch_agents_dir w) w)))
              (ensure_dir (launch_agents_dir w) w)).
Proof.
  intros Hsys. rewrite (enable_Darwin self w Hsys). unfold ensure_dir.
  destruct (ensure_dir_fields (launch_agents_dir w) w) as (_ & Hl & _ & Hfault & Hload).
  unfold ensure_dir in Hfault, Hl, Hload.
  destruct (make_missing (launch_agents_dir w) w) as [[[] | e] w0]; [| discriminate].
  cbn [fst snd] in *.
  destruct (write_file _ _ _) as [[[] | e] w2] eqn:Hw; [| discriminate].
  destruct (write_file_ok _ _ _ _ Hw) as (Hp & Hd & Hnone & mode & -> & _).
  intros [= <-]. rewrite <- Hfault, <- Hl, <- Hload.
  split; [reflexivity |]. split; [exact Hp |]. split; [exact Hd |]. split; [exact Hnone |].
  exists mode. unfold launchctl_load. cbn.
  destruct (launchctl_load_run w0 _ _). reflexivity.
Qed.

(** *** After [enable] and after [disable] *)

Lemma enable_then_is_enabled (self : t) (w w' : World) :
  supported self -> enable self w = (Return true, w') ->
  is_enabled self w' = (Return true, w').
Proof.
  intros [Hsys | [Hsys | Hsys]] Hen.
  - rewrite (enable_Windows self w Hsys) in Hen.
    destruct (registry w !! Run) as [values |]; [| discriminate].
    injection Hen as <-.
    rewrite (is_enabled_Windows _ _ Hsys). unfold run_value. cbn.
    rewrite !lookup_insert_eq. cbn. rewrite String.eqb_refl. reflexivity.
  - destruct (enable_Linux_ok self w w' Hsys Hen) as (_ & _ & _ & _ & _ & ->).
    rewrite (is_enabled_Linux _ _ Hsys).
    unfold present, desktop_file, autostart_dir. cbn.
    rewrite userhome_ensure_dir, lookup_insert_eq. reflexivity.
  - destruct (enable_Darwin_ok self w w' Hsys Hen) as (_ & _ & _ & _ & mode & ->).
    rewrite (is_enabled_Darwin _ _ Hsys).
    unfold present, plist_path. cbn.
    rewrite userhome_ensure_dir, lookup_insert_eq. reflexivity.
Qed.

Lemma disable_then_is_enabled (self : t) (w w' : World) :
  supported self -> relative_name self -> disable self w = (Return true, w') ->
  is_enabled self w' = (Return false, w').
Proof.
  intros [Hsys | [Hsys | Hsys]] Hrel Hdis.
  - rewrite (disable_Windows self w Hsys) in Hdis.
    destruct (registry w !! Run) as [values |] eqn:Hrun; [| discriminate].
    injection Hdis as <-.
    rewrite (is_enabled_Windows _ _ Hsys). unfold run_value.
    destruct (values !! app_name self) eqn:Hv.
    + cbn. rewrite lookup_insert_eq, lookup_delete_eq. reflexivity.
    + rewrite Hrun, Hv. reflexivity.
  - rewrite (disable_Linux self w Hsys) in Hdis.
    rewrite (is_enabled_Linux _ _ Hsys).
    rewrite (desktop_file_relative self w' Hrel).
    destruct (fs w !! desktop_file_removed self w) as [[text mode |] |] eqn:Hf;
      [| discriminate |]; injection Hdis as <-.
    + unfold present, desktop_file_removed. cbn. rewrite lookup_delete_eq. reflexivity.
    + unfold present. rewrite Hf. reflexivity.
  - rewrite (disable_Darwin self w Hsys) in Hdis.
    rewrite (is_enabled_Darwin _ _ Hsys).
    destruct (fs w !! plist_path self w) as [[text mode |] |] eqn:Hf;
      [| discriminate |]; injection Hdis as <-.
    + unfold present, plist_path, launchctl_unload. cbn.
      destruct (launchctl_unload_run _ _ _). cbn. rewrite lookup_delete_eq. reflexivity.
    + unfold present. rewrite Hf. reflexivity.
Qed.

(** For an application name that does not begin with a slash, as the
    name ["InternetSpeedMonitor"] that the program passes does not: on
    each of the three supported platforms and from any world, a successful
    [enable] is followed by [is_enabled] returning true, and a successful
    [disable] by [is_enabled] returning false.  The first half holds for
    every name. *)
Lemma enable_disable_is_enabled (self : t) (w : World) :
  supported self -> relative_name self ->
  (forall w', enable self w = (Return true, w') ->
              is_enabled self w' = (Return true, w')) /\
  (forall w', disable self w = (Return true, w') ->
              is_enabled self w' = (Return false, w')).
Proof.
  intros Hsup Hrel. split; intros w' H.
  - exact (enable_then_is_enabled self w w' Hsup H).
  - exact (disable_then_is_enabled self w w' Hsup Hrel H).
Qed.

Lemma enable_disable_is_enabled_witness :
  is_enabled Examples.on_linux (snd (enable Examples.on_linux Examples.fresh)) =
    (Return true, snd (enable Examples.on_linux Examples.fresh)) /\
  is_enabled Examples.on_linux
    (snd (disable Examples.on_linux (snd (enable Examples.on_linux Examples.fresh)))) =
    (Return false,
     snd (disable Examples.on_linux (snd (enable Examples.on_linux Examples.fresh)))).
Proof.
  split.
  - apply (enable_disable_is_enabled Examples.on_linux Examples.fresh);
      [right; left; reflexivity | reflexivity | vm_compute; reflexivity].
  - apply (enable_disable_is_enabled Examples.on_linux
             (snd (enable Examples.on_linux Examples.fresh)));
      [right; left; reflexivity | reflexivity | vm_compute; reflexivity].
Defined.


(** *** C4, C10 *)

Lemma is_enabled_check (self : t) (w : World) :
  is_enabled self w = (Return (registration_check self w), w).
Proof.
  unfold registration_check.
  destruct (system_cases self) as [[Hsys | [Hsys | Hsys]] | (H1 & H2 & H3)].
  - rewrite (is_enabled_Windows _ _ Hsys), Hsys. reflexivity.
  - rewrite (is_enabled_Linux _ _ Hsys), Hsys. reflexivity.
  - rewrite (is_enabled_Darwin _ _ Hsys), Hsys. reflexivity.
  - rewrite (is_enabled_unsupported _ _ H1 H2 H3), H1, H2, H3. reflexivity.
Qed.

Lemma data_eq_str_true (d : reg_data) (path : string) :
  data_eq_str d path = true <-> d = RStr path.
Proof.
  destruct d; simpl; try (split; [discriminate | intros [=]]).
  rewrite String.eqb_eq. split; [intros -> | intros [=]]; auto.
Qed.

Lemma present_true (w : World) (p : string) : present w p = true <-> is_Some (fs w !! p).
Proof.
  unfold present. destruct (fs w !! p); split; intros H; eauto; try discriminate.
  destruct H as [x H]. discriminate.
Qed.

Lemma registration_check_true (self : t) (w : World) :
  registration_check self w = true <->
  registration_exists self w /\ recorded_path_matches self w.
Proof.
  unfold registration_check, registration_exists, recorded_path_matches.
  destruct (String.eqb (system self) "Windows").
  - destruct (run_value self w) as [v |].
    + rewrite data_eq_str_true. split.
      * intros Hd. split; [eauto | exists v; auto].
      * intros [_ (v' & [= <-] & Hd)]. exact Hd.
    + split; [discriminate | intros [[x Hx] _]; discriminate].
  - destruct (String.eqb (system self) "Linux").
    + rewrite present_true. tauto.
    + destruct (String.eqb (system self) "Darwin").
      * rewrite present_true. tauto.
      * split; [discriminate | tauto].
Qed.

(** C4: on every platform variant and in every world, [is_enabled]
    returns normally, without changing the world, and returns true if and
    only if the registration exists and, on Windows where the path is
    recorded as data, the recorded path equals the current executable
    path; when the Run key cannot be opened the result is false. *)
Theorem is_enabled_iff_registered (self : t) (w : World) :
  exists b : bool,
    is_enabled self w = (Return b, w) /\
    (b = true <-> registration_exists self w /\ recorded_path_matches self w) /\
    (~ store_accessible self w -> b = false).
Proof.
  exists (registration_check self w).
  split; [apply is_enabled_check |]. split; [apply registration_check_true |].
  unfold store_accessible, registration_check, run_value. intros Hacc.
  destruct (String.eqb_spec (system self) "Windows") as [Hsys | Hsys].
  - destruct (registry w !! Run) as [values |]; [| reflexivity].
    exfalso. apply Hacc. eauto.
  - exfalso. apply Hacc. intros Hsys'. contradiction.
Qed.

(** C10: on Linux and macOS [is_enabled] is the existence of the
    registration file and nothing else, so it is true for a file that
    records another executable path; the recorded path is compared on
    Windows only. *)
Theorem is_enabled_file_existence (self : t) (w : World) :
  supported self ->
  is_enabled self w =
    (Return (if String.eqb (system self) "Windows"
             then match run_value self w with
                  | Some v => data_eq_str (data v) (app_path self)
                  | None => false
                  end
             else present w (registration_file self w)), w).
Proof.
  intros Hsup. rewrite is_enabled_check. unfold registration_check, registration_file.
  destruct Hsup as [Hsys | [Hsys | Hsys]]; rewrite Hsys; reflexivity.
Qed.

Lemma is_enabled_file_existence_witness :
  is_enabled Examples.on_linux Examples.stale_entry = (Return true, Examples.stale_entry).
Proof.
  apply (is_enabled_file_existence Examples.on_linux Examples.stale_entry).
  right. left. reflexivity.
Defined.

(** *** C7 *)

Lemma enable_twice_Windows (self : t) (w w1 : World) :
  system self = "Windows" -> enable self w = (Return true, w1) ->
  enable self w1 = (Return true, w1).
Proof.
  intros Hsys Hen. rewrite (enable_Windows self w Hsys) in Hen.
  destruct (registry w !! Run) as [values |]; [| discriminate].
  injection Hen as <-.
  rewrite (enable_Windows _ _ Hsys). cbn.
  rewrite lookup_insert_eq, !insert_insert_eq. reflexivity.
Qed.

Lemma enable_twice_Linux (self : t) (w w1 : World) :
  system self = "Linux" -> enable self w = (Return true, w1) ->
  enable self w1 = (Return true, w1).
Proof.
  intros Hsys Hen.
  destruct (enable_Linux_ok self w w1 Hsys Hen) as (Hmade & Hp & Hd & Hfault & Hcf & Hw1).
  pose proof (autostart_dir_made w Hmade) as Hthere.
  set (w0 := ensure_dir (autostart_dir w) w) in *.
  assert (Hhome : userhome w1 = userhome w).
  { rewrite Hw1. cbn. apply userhome_ensure_dir. }
  assert (Hdir : autostart_dir w1 = autostart_dir w).
  { unfold autostart_dir. rewrite Hhome. reflexivity. }
  assert (Hfile : desktop_file self w1 = desktop_file self w).
  { unfold desktop_file. rewrite Hdir. reflexivity. }
  assert (Hlook : fs w1 !! desktop_file self w = Some (File (desktop_entry self) 493)).
  { rewrite Hw1. cbn. apply lookup_insert_eq. }
  assert (Hfault1 : write_fault w1 (desktop_file self w) (desktop_entry self) = None).
  { rewrite Hw1. cbn. unfold w0.
    destruct (ensure_dir_fields (autostart_dir w) w) as (_ & _ & _ & -> & _).
    exact Hfault. }
  rewrite (enable_Linux _ _ Hsys), Hdir, Hfile.
  rewrite make_missing_there.
  2: { rewrite Hw1. apply present_insert. exact Hthere. }
  rewrite (write_file_again _ _ 493).
  2: { rewrite Hw1. apply parent_check_insert; assumption. }
  2: { exact Hlook. }
  2: { exact Hfault1. }
  rewrite (chmod_file _ _ _ _ _ Hlook).
  2: { rewrite Hw1. cbn. unfold w0. rewrite chmod_fault_ensure_dir. exact Hcf. }
  rewrite set_fs_id; [reflexivity |]. apply insert_id. exact Hlook.
Qed.

Lemma enable_twice_Darwin (self : t) (w w1 : World) :
  system self = "Darwin" -> enable self w = (Return true, w1) ->
  enable self w1 = (Return true, w1).
Proof.
  intros Hsys Hen.
  destruct (enable_Darwin_ok self w w1 Hsys Hen) as (Hmade & Hp & Hd & Hfault & mode & Hw1).
  pose proof (launch_agents_dir_made w Hmade) as Hthere.
  destruct (ensure_dir_fields (launch_agents_dir w) w) as (_ & _ & _ & Hf0 & Hl0).
  set (w0 := ensure_dir (launch_agents_dir w) w) in *.
  set (files := <[plist_path self w := File (plist self) mode]> (fs w0)) in *.
  assert (Hhome : userhome w1 = userhome w).
  { rewrite Hw1. cbn. apply userhome_ensure_dir. }
  assert (Hdir : launch_agents_dir w1 = launch_agents_dir w).
  { unfold launch_agents_dir. rewrite Hhome. reflexivity. }
  assert (Hfile : plist_path self w1 = plist_path self w).
  { unfold plist_path. rewrite Hhome. reflexivity. }
  assert (Hfs : fs w1 = files).
  { rewrite Hw1. reflexivity. }
  assert (Hlook : fs w1 !! plist_path self w = Some (File (plist self) mode)).
  { rewrite Hfs. apply lookup_insert_eq. }
  assert (Hfault1 : write_fault w1 (plist_path self w) (plist self) = None).
  { rewrite Hw1. cbn. rewrite Hf0. exact Hfault. }
  assert (Hload1 : launchctl_load_run w1 = launchctl_load_run w).
  { rewrite Hw1. cbn. exact Hl0. }
  rewrite (enable_Darwin _ _ Hsys), Hdir, Hfile.
  rewrite make_missing_there.
  2: { unfold present. rewrite Hfs. unfold files.
       apply (present_insert w0 (launch_agents_dir w) (plist_path self w)). exact Hthere. }
  rewrite (write_file_again _ _ mode).
  2: { rewrite Hw1.
       apply (parent_check_insert w0 (plist_path self w) (plist self) mode Hp Hd). }
  2: { exact Hlook. }
  2: { exact Hfault1. }
  unfold launchctl_load. rewrite Hload1, Hfs.
  destruct (launchctl_load_run w (plist_path self w) files) as [status agents] eqn:Hrun.
  cbn [snd] in Hw1. cbn [snd]. f_equal.
  apply set_launchd_id. rewrite Hw1. cbn.
  rewrite (assoc_L (∪)), (idemp_L (∪)). reflexivity.
Qed.

(** C7: on each supported platform, a second [enable] after a successful
    one succeeds and leaves the world exactly as the first one left it;
    the one registration, keyed by the application name, is there and
    records the current executable path. *)
Theorem enable_twice (self : t) (w w1 : World) :
  supported self -> enable self w = (Return true, w1) ->
  enable self w1 = (Return true, w1) /\
  registration_exists self w1 /\ recorded_path_matches self w1.
Proof.
  intros Hsup Hen. split.
  - destruct Hsup as [Hsys | [Hsys | Hsys]];
      eauto using enable_twice_Windows, enable_twice_Linux, enable_twice_Darwin.
  - apply registration_check_true.
    pose proof (enable_then_is_enabled self w w1 Hsup Hen) as His.
    rewrite is_enabled_check in His. congruence.
Qed.

Lemma enable_twice_witness :
  enable Examples.on_macos (snd (enable Examples.on_macos Examples.fresh)) =
    (Return true, snd (enable Examples.on_macos Examples.fresh)) /\
  registration_exists Examples.on_macos (snd (enable Examples.on_macos Examples.fresh)) /\
  recorded_path_matches Examples.on_macos (snd (enable Examples.on_macos Examples.fresh)).
Proof.
  apply (enable_twice Examples.on_macos Examples.fresh);
    [right; right; reflexivity | vm_compute; reflexivity].
Defined.

(** *** C8 *)

(** C8 fails on the code: without the Run key there is no registration,
    and [disable] returns false. *)
Lemma disable_absent_can_fail : ~ disable_absent_returns_true.
Proof.
  intros H.
  assert (Hd : fst (disable Examples.on_windows Examples.no_run_key) = Return true).
  { apply H; [left; reflexivity |].
    unfold registration_exists, run_value. cbn. intros [v Hv]. discriminate. }
  vm_compute in Hd. discriminate.
Qed.

(** C8, amended: on each supported platform whose store can be opened (on
    Windows, the Run key is there), [disable] returns true, does not raise
    and changes nothing when there is nothing where it looks: no value
    named after the application in the Run key, no file at the desktop
    entry path with the name written into it, no launch-agent property
    list. *)
Theorem disable_absent (self : t) (w : World) :
  supported self -> store_accessible self w ->
  ~ removal_target_exists self w ->
  disable self w = (Return true, w).
Proof.
  unfold store_accessible, removal_target_exists, run_value.
  intros [Hsys | [Hsys | Hsys]] Hacc Habs.
  - rewrite (disable_Windows _ _ Hsys).
    destruct (Hacc Hsys) as [values Hrun]. rewrite Hsys, Hrun in *. cbn in Habs.
    destruct (values !! app_name self) eqn:Hv; [| reflexivity].
    exfalso. apply Habs. eauto.
  - rewrite (disable_Linux _ _ Hsys).
    rewrite Hsys in Habs. cbn in Habs.
    destruct (fs w !! desktop_file_removed self w) eqn:Hf; [| reflexivity].
    exfalso. apply Habs. eauto.
  - rewrite (disable_Darwin _ _ Hsys).
    rewrite Hsys in Habs. cbn in Habs.
    destruct (fs w !! plist_path self w) eqn:Hf; [| reflexivity].
    exfalso. apply Habs. eauto.
Qed.

Lemma disable_absent_witness :
  disable Examples.on_windows Examples.fresh = (Return true, Examples.fresh).
Proof.
  apply disable_absent.
  - left. reflexivity.
  - intros _. exists ∅. reflexivity.
  - unfold removal_target_exists, run_value. cbn. intros [v Hv]. discriminate.
Defined.

(** For a name that does not begin with a slash, [disable] looks where
    the registration is. *)
Lemma removal_target_registration (self : t) (w : World) :
  relative_name self -> (removal_target_exists self w <-> registration_exists self w).
Proof.
  intros Hrel. unfold removal_target_exists, registration_exists.
  rewrite (desktop_file_relative self w Hrel). tauto.
Qed.

(** *** C9 *)

(** C9: when the host is none of Windows, Linux and macOS, each of
    [is_enabled], [enable] and [disable] returns false, without raising
    and without touching the world. *)
Theorem unsupported_platform (self : t) (w : World) :
  system self <> "Windows" -> system self <> "Linux" -> system self <> "Darwin" ->
  is_enabled self w = (Return false, w) /\
  enable self w = (Return false, w) /\
  disable self w = (Return false, w).
Proof.
  intros H1 H2 H3.
  apply String.eqb_neq in H1, H2, H3.
  auto using is_enabled_unsupported, enable_unsupported, disable_unsupported.
Qed.

Lemma unsupported_platform_witness :
  is_enabled Examples.on_freebsd Examples.fresh = (Return false, Examples.fresh) /\
  enable Examples.on_freebsd Examples.fresh = (Return false, Examples.fresh) /\
  disable Examples.on_freebsd Examples.fresh = (Return false, Examples.fresh).
Proof. apply unsupported_platform; discriminate. Defined.

(** *** Totality *)

(** None of the three methods lets an exception out. *)
Lemma methods_return (self : t) (w : World) :
  (exists b, fst (is_enabled self w) = Return b) /\
  (exists b, fst (enable self w) = Return b) /\
  (exists b, fst (disable self w) = Return b).
Proof.
  split; [| split].
  - rewrite is_enabled_check. eauto.
  - unfold enable, try_except. destruct (_ w) as [[b | e] w']; eauto.
  - unfold disable, try_except. destruct (_ w) as [[b | e] w']; eauto.
Qed.

End AutoStartManagerFacts.

(** ** More about SpeedMonitor: what every call does *)

Module SamplingFacts.
Import PyFloat PyFloatFacts SpeedMonitor SpeedMonitorFacts Sampling.

#[local] Arguments of_Z : simpl never.
#[local] Arguments div : simpl never.
#[local] Arguments sub : simpl never.
#[local] Arguments ltb : simpl never.
#[local] Arguments int_truediv : simpl never.
#[local] Arguments truediv_int : simpl never.

(** The two ways a call can end: without an emission, the snapshot and the
    download speed kept; or with the full update. *)
Lemma update_speed_outcomes (p : proc) (io : net_reading) (now : float) :
  fst (update_speed io now p) = Return tt /\
  ((emitted (snd (update_speed io now p)) = emitted p /\
    snapshot (snd (update_speed io now p)) = snapshot p /\
    download_speed (self (snd (update_speed io now p))) = download_speed (self p)) \/
   (exists c, io = Return (Some c) /\ ltb (elapsed p now) tenth = false /\
              snd (update_speed io now p) = sampled p c now)).
Proof.
  destruct io as [[c |] | e].
  - unfold update_speed, try_except, bind, net_io_counters, gets, get_bytes_sent,
      get_bytes_recv, ret. cbn.
    fold (elapsed p now).
    destruct (ltb (elapsed p now) tenth) eqn:Hguard; cbn; [auto |].
    destruct (int_truediv_cases (bytes_sent c - last_upload (self p)) (elapsed p now) p)
      as [-> | [e ->]]; cbn; [| auto].
    destruct (truediv_int_cases
                (div (of_Z (bytes_sent c - last_upload (self p))) (elapsed p now)) 1024 p)
      as [-> | [e ->]]; cbn; [| auto].
    match goal with |- context [int_truediv ?n ?b ?s] =>
      destruct (int_truediv_cases n b s) as [-> | [e ->]]; cbn; [| auto] end.
    match goal with |- context [truediv_int ?a ?n ?s] =>
      destruct (truediv_int_cases a n s) as [-> | [e ->]]; cbn; [| auto] end.
    split; [reflexivity |]. right. exists c. auto.
  - rewrite update_speed_no_interface. cbn. auto.
  - cbn. auto.
Qed.

(** X1: a call of [update_speed] never raises and does one of two things:
    it emits nothing and keeps the stored snapshot, or it emits exactly one
    sample, after the earlier ones, and stores the current reading and
    time.  The snapshot never moves without an emission. *)
Theorem update_speed_emission_and_snapshot (p : proc) (io : net_reading) (now : float) :
  fst (update_speed io now p) = Return tt /\
  ((emitted (snd (update_speed io now p)) = emitted p /\
    snapshot (snd (update_speed io now p)) = snapshot p) \/
   (exists c up down,
      io = Return (Some c) /\
      emitted (snd (update_speed io now p)) = emitted p ++ [(up, down)] /\
      snapshot (snd (update_speed io now p)) = (bytes_sent c, bytes_recv c, now))).
Proof.
  destruct (update_speed_outcomes p io now) as [Hret [(He & Hs & _) | (c & Hio & _ & Hs)]].
  - auto.
  - split; [exact Hret |]. right. rewrite Hs. unfold sampled, snapshot. cbn. eauto 8.
Qed.

Lemma abs_diff_uint64 (a b : Z) : uint64 a -> uint64 b -> Z.abs (a - b) < 2 ^ 1023.
Proof.
  unfold uint64. intros Ha Hb.
  assert (2 ^ 64 < 2 ^ 1023) by (apply Z.pow_lt_mono_r; lia). lia.
Qed.

(** The full update happens whenever the conversions cannot overflow and
    the guard lets the call through, also with negative deltas. *)
Lemma update_speed_sampled (p : proc) (c : snetio) (now : float) :
  Z.abs (bytes_sent c - last_upload (self p)) < 2 ^ 1023 ->
  Z.abs (bytes_recv c - last_download (self p)) < 2 ^ 1023 ->
  leb tenth (elapsed p now) = true ->
  update_speed (Return (Some c)) now p = (Return tt, sampled p c now).
Proof.
  intros Hs Hr Hdt.
  pose proof (leb_not_ltb _ _ Hdt) as Hguard.
  pose proof (leb_tenth_nonzero _ Hdt) as Hnz.
  unfold update_speed, try_except, bind, net_io_counters, gets, get_bytes_sent,
    get_bytes_recv, ret. cbn.
  fold (elapsed p now). rewrite Hguard. cbn.
  rewrite int_truediv_ok by assumption. cbn.
  rewrite truediv_int_1024. cbn.
  rewrite int_truediv_ok by assumption. cbn.
  rewrite truediv_int_1024. cbn.
  reflexivity.
Qed.

(** X2: with 64-bit counters, stored and read, and at least 0.1 s elapsed,
    a successful counter query always leads to the full update and to one
    emission, whether the counters went up or fell back. *)
Theorem update_speed_always_samples (p : proc) (c : snetio) (now : float) :
  uint64 (last_upload (self p)) -> uint64 (last_download (self p)) ->
  uint64 (bytes_sent c) -> uint64 (bytes_recv c) ->
  leb tenth (elapsed p now) = true ->
  update_speed (Return (Some c)) now p = (Return tt, sampled p c now).
Proof.
  intros H1 H2 H3 H4 Hdt.
  apply update_speed_sampled; auto using abs_diff_uint64.
Qed.

Lemma update_speed_always_samples_witness :
  update_speed (Return (Some Examples.c_reset)) one Examples.p_init =
    (Return tt, sampled Examples.p_init Examples.c_reset one).
Proof.
  apply update_speed_always_samples; unfold uint64; cbn; try lia.
  reflexivity.
Defined.

(** The rate of an unchanged counter is +0.0. *)
Lemma rate_KBps_zero (dt : float) : leb tenth dt = true -> rate_KBps 0 dt = zero.
Proof.
  destruct dt as [s | s | | s m e]; try discriminate;
    destruct s; try discriminate; reflexivity.
Qed.

(** X3: when the counters have not moved since the snapshot and at least
    0.1 s has elapsed, both emitted rates are exactly +0.0. *)
Theorem idle_link_rates (p : proc) (now : float) :
  leb tenth (elapsed p now) = true ->
  emitted (snd (update_speed
                  (Return (Some {| bytes_sent := last_upload (self p);
                                   bytes_recv := last_download (self p) |})) now p)) =
    emitted p ++ [(zero, zero)].
Proof.
  intros Hdt. rewrite update_speed_sampled.
  - unfold sampled. cbn. rewrite !Z.sub_diag, rate_KBps_zero by exact Hdt. reflexivity.
  - cbn. rewrite Z.sub_diag. cbn. lia.
  - cbn. rewrite Z.sub_diag. cbn. lia.
  - exact Hdt.
Qed.

Lemma idle_link_rates_witness :
  emitted (snd (update_speed
                  (Return (Some {| bytes_sent := last_upload (self Examples.p_init);
                                   bytes_recv := last_download (self Examples.p_init) |}))
                  one Examples.p_init)) =
    emitted Examples.p_init ++ [(zero, zero)].
Proof. apply idle_link_rates. reflexivity. Defined.

End SamplingFacts.

(** ** The window: formatting, labels, dragging *)

Module SpeedDisplayWindowFacts.
Import PyFloat PyFloatFacts PyFormat SpeedDisplayWindow.

Lemma format_speed_returns {S} (speed : float) (s : S) :
  format_speed speed s = (Return (speed_text speed), s).
Proof.
  unfold format_speed, speed_text. destruct (leb (of_Z 1024) speed); reflexivity.
Qed.

Lemma update_speeds_labels (download upload : float) (w : t) :
  update_speeds download upload w =
    (Return tt,
     {| download_label := "↓ " +:+ speed_text download;
        upload_label := "↑ " +:+ speed_text upload;
        position := position w; size := size w; minimum_size := minimum_size w;
        visible := visible w; dragging := dragging w; offset := offset w |}).
Proof.
  unfold update_speeds, bind. rewrite format_speed_returns. cbn.
  rewrite format_speed_returns. reflexivity.
Qed.

(** A float below zero is not at or above 1024. *)
Lemma negative_below_1024 (x : float) : ltb x zero = true -> leb (of_Z 1024) x = false.
Proof.
  destruct x as [s | s | | s m e]; try discriminate;
    destruct s; try discriminate; reflexivity.
Qed.

(** X4: [format_speed] returns normally for every float, a NaN and the
    infinities among them, and leaves the window as it is: the division
    by 1024 cannot raise.  The text is the rate divided by 1024 with the
    unit MB/s when the rate is at least 1024, and the rate as it is with
    the unit KB/s in every other case; a negative rate, whatever its size,
    and a NaN are such cases. *)
Theorem format_speed_unit (speed : float) (w : t) :
  exists text,
    format_speed speed w = (Return text, w) /\
    (leb (of_Z 1024) speed = true ->
     text = format_1f (div speed (of_Z 1024)) +:+ " MB/s") /\
    (leb (of_Z 1024) speed = false -> text = format_1f speed +:+ " KB/s") /\
    (ltb speed zero = true \/ speed = S754_nan -> leb (of_Z 1024) speed = false).
Proof.
  exists (speed_text speed). split; [apply format_speed_returns |].
  unfold speed_text. split; [intros ->; reflexivity |].
  split; [intros ->; reflexivity |].
  intros [Hneg | ->]; [exact (negative_below_1024 _ Hneg) | reflexivity].
Qed.

Lemma format_speed_unit_witness :
  (exists text,
     format_speed (of_Z 2048) (init MoreExamples.full_hd MoreExamples.small_layout) =
       (Return text, init MoreExamples.full_hd MoreExamples.small_layout) /\
     text = "2.0 MB/s") /\
  (exists text,
     format_speed Examples.f_m500_1024
       (init MoreExamples.full_hd MoreExamples.small_layout) =
       (Return text, init MoreExamples.full_hd MoreExamples.small_layout) /\
     text = "-0.5 KB/s").
Proof.
  split.
  - destruct (format_speed_unit (of_Z 2048)
                (init MoreExamples.full_hd MoreExamples.small_layout))
      as (text & Hrun & Hmb & _).
    exists text. split; [exact Hrun | exact (Hmb eq_refl)].
  - destruct (format_speed_unit Examples.f_m500_1024
                (init MoreExamples.full_hd MoreExamples.small_layout))
      as (text & Hrun & _ & Hkb & Hneg).
    exists text. split; [exact Hrun | exact (Hkb (Hneg (or_introl eq_refl)))].
Defined.

(** *** Dragging *)

Lemma point_sub_add_cancel (a b c : QPoint) :
  point_sub (point_add a (point_sub b a)) c = point_sub b c.
Proof. unfold point_sub, point_add. cbn. f_equal; lia. Qed.

(** While the left button is held at a grab point that is not the corner,
    every move puts the window where the cursor is, less the grab point. *)
Lemma deliver_moves (o : QPoint) (cursors : list QPoint) : forall (w : t) (c : QPoint),
  dragging w = true -> offset w = Some o -> isNull o = false ->
  let w' := deliver_all (map Move (cursors ++ [c])) w in
  position w' = point_sub c o /\ dragging w' = true /\ offset w' = Some o /\
  size w' = size w /\ visible w' = visible w.
Proof.
  induction cursors as [| c1 rest IH]; intros w c Hd Ho Hn.
  - cbn. unfold mouseMoveEvent. rewrite Hd, Ho. cbn. rewrite Hn. cbn.
    rewrite point_sub_add_cancel. auto.
  - cbn [app map deliver_all fold_left].
    set (w1 := deliver (Move c1) w).
    assert (H1 : dragging w1 = true /\ offset w1 = Some o /\
                 size w1 = size w /\ visible w1 = visible w).
    { subst w1. cbn. unfold mouseMoveEvent. rewrite Hd, Ho. cbn. rewrite Hn. cbn. auto. }
    destruct H1 as (Hd1 & Ho1 & Hs1 & Hv1).
    destruct (IH w1 c Hd1 Ho1 Hn) as (Hp & Hd' & Ho' & Hs' & Hv').
    unfold deliver_all in *. cbn in *. rewrite Hp, Hd', Ho', Hs', Hv'. auto.
Qed.

(** X5: a drag moves the window by exactly what the cursor moved.  After
    the left button is pressed with the cursor at [c0], not on the
    top-left corner of the window, and the mouse is moved through any
    positions ending at [c], the window is displaced by [c - c0]; its size
    and visibility are unchanged. *)
Theorem drag_follows_cursor (w : t) (c0 c : QPoint) (cursors : list QPoint) :
  c0 <> position w ->
  let w' := deliver_all (Press LeftButton c0 :: map Move (cursors ++ [c])) w in
  position w' = point_add (position w) (point_sub c c0) /\
  size w' = size w /\ visible w' = visible w.
Proof.
  intros Hc0. cbn [deliver_all fold_left].
  set (w1 := deliver (Press LeftButton c0) w).
  assert (Hn : isNull (point_sub c0 (position w)) = false).
  { unfold isNull, point_sub. cbn. apply andb_false_iff.
    destruct (Z.eqb_spec (px c0 - px (position w)) 0) as [Hx |]; [| auto].
    destruct (Z.eqb_spec (py c0 - py (position w)) 0) as [Hy |]; [| auto].
    exfalso. apply Hc0. destruct c0, (position w). cbn in *. f_equal; lia. }
  destruct (deliver_moves (point_sub c0 (position w)) cursors w1 c)
    as (Hp & _ & _ & Hs & Hv); try reflexivity; try exact Hn.
  unfold deliver_all in *. rewrite Hp, Hs, Hv. subst w1. cbn.
  split; [| auto]. unfold point_sub, point_add. cbn. f_equal; lia.
Qed.

Lemma drag_follows_cursor_witness :
  let w := init {| width := 1920; height := 1080 |} (100, 60) in
  let w' := deliver_all
              (Press LeftButton {| px := 1800; py := 1010 |} ::
               map Move ([{| px := 1700; py := 900 |}] ++ [{| px := 400; py := 300 |}])) w in
  position w' = point_add (position w)
                  (point_sub {| px := 400; py := 300 |} {| px := 1800; py := 1010 |}) /\
  size w' = size w /\ visible w' = visible w.
Proof.
  apply (drag_follows_cursor (init {| width := 1920; height := 1080 |} (100, 60))).
  cbn. intros [=].
Defined.

Lemma deliver_moves_idle (cursors : list QPoint) : forall w : t,
  dragging w && offset_truthy (offset w) = false ->
  deliver_all (map Move cursors) w = w.
Proof.
  induction cursors as [| c rest IH]; intros w Hw; [reflexivity |].
  cbn [map deliver_all fold_left].
  assert (H1 : deliver (Move c) w = w).
  { cbn. unfold mouseMoveEvent. rewrite Hw. reflexivity. }
  rewrite H1. apply IH. exact Hw.
Qed.

(** X6: moving the mouse does not move the window when no drag is going
    on: before any press, after a press of another button than the left
    one, after the left button is released, and also after a left press
    exactly on the top-left corner of the window, where the grab point is
    the null point and counts as false. *)
Theorem moves_without_drag (w : t) (b : MouseButton) (c : QPoint)
    (cursors : list QPoint) :
  dragging w = false ->
  deliver_all (map Move cursors) w = w /\
  (b <> LeftButton ->
   deliver_all (Press b c :: map Move cursors) w = w) /\
  position (deliver_all (Press LeftButton (position w) :: map Move cursors) w) =
    position w /\
  position (deliver_all (Press LeftButton c :: Release LeftButton c :: map Move cursors) w) =
    position w.
Proof.
  intros Hd. split; [| split; [| split]].
  - apply deliver_moves_idle. rewrite Hd. reflexivity.
  - intros Hb. cbn [deliver_all fold_left].
    replace (deliver (Press b c) w) with w by (destruct b; [| contradiction | |]; reflexivity).
    apply deliver_moves_idle. rewrite Hd. reflexivity.
  - cbn [deliver_all fold_left].
    change (fold_left _ ?l ?x) with (deliver_all l x).
    rewrite deliver_moves_idle; [reflexivity |].
    cbn. unfold isNull, point_sub. cbn. rewrite !Z.sub_diag. reflexivity.
  - cbn [deliver_all fold_left].
    change (fold_left _ ?l ?x) with (deliver_all l x).
    rewrite deliver_moves_idle; reflexivity.
Qed.

Lemma moves_without_drag_witness :
  let w := init {| width := 1920; height := 1080 |} (100, 60) in
  let c := {| px := 5; py := 5 |} in
  let cursors := [{| px := 7; py := 9 |}] in
  deliver_all (map Move cursors) w = w /\
  (RightButton <> LeftButton ->
   deliver_all (Press RightButton c :: map Move cursors) w = w) /\
  position (deliver_all (Press LeftButton (position w) :: map Move cursors) w) =
    position w /\
  position (deliver_all (Press LeftButton c :: Release LeftButton c :: map Move cursors) w) =
    position w.
Proof.
  apply (moves_without_drag (init {| width := 1920; height := 1080 |} (100, 60)) RightButton).
  reflexivity.
Defined.

End SpeedDisplayWindowFacts.

(** ** More about AutoStartManager: what the methods leave behind *)

Module RegistrationFacts.
Import OS AutoStartManager PathFacts OSFacts AutoStartManagerFacts Registration.

#[local] Arguments expanduser : simpl never.
#[local] Arguments path_join : simpl never.
#[local] Arguments String.append : simpl never.

(** *** What a successful [enable] leaves *)

(** X8: what a successful [enable] leaves, whatever was registered
    before: on Windows the value named after the application is a
    [REG_SZ] holding the current executable path; on Linux the desktop
    entry holds the entry text for the current path and has mode 0o755; on
    macOS the property list holds the plist text, and launchd has what it
    had and what [launchctl load] loaded, which the method does not look
    at. *)
Theorem enable_registers_current_path (self : t) (w w' : World) :
  supported self -> enable self w = (Return true, w') ->
  (system self = "Windows" ->
   run_value self w' = Some {| data := RStr (app_path self); kind := REG_SZ |}) /\
  (system self = "Linux" ->
   fs w' !! desktop_file self w' = Some (File (desktop_entry self) 493)) /\
  (system self = "Darwin" ->
   (exists mode, fs w' !! plist_path self w' = Some (File (plist self) mode)) /\
   launchd w' = snd (launchctl_load_run w (plist_path self w') (fs w')) ∪ launchd w).
Proof.
  intros Hsup Hen. split; [| split]; intros Hsys.
  - rewrite (enable_Windows self w Hsys) in Hen.
    destruct (registry w !! Run) as [values |]; [| discriminate].
    injection Hen as <-. unfold run_value. cbn. rewrite !lookup_insert_eq. reflexivity.
  - destruct (enable_Linux_ok self w w' Hsys Hen) as (_ & _ & _ & _ & _ & ->).
    unfold desktop_file, autostart_dir. cbn.
    rewrite userhome_ensure_dir. apply lookup_insert_eq.
  - destruct (enable_Darwin_ok self w w' Hsys Hen) as (_ & _ & _ & _ & mode & ->).
    unfold plist_path. cbn. rewrite userhome_ensure_dir. split.
    + exists mode. apply lookup_insert_eq.
    + reflexivity.
Qed.

Lemma enable_registers_current_path_witness :
  let w' := snd (enable Examples.on_linux Examples.stale_entry) in
  (system Examples.on_linux = "Windows" ->
   run_value Examples.on_linux w' =
     Some {| data := RStr (app_path Examples.on_linux); kind := REG_SZ |}) /\
  (system Examples.on_linux = "Linux" ->
   fs w' !! desktop_file Examples.on_linux w' =
     Some (File (desktop_entry Examples.on_linux) 493)) /\
  (system Examples.on_linux = "Darwin" ->
   (exists mode, fs w' !! plist_path Examples.on_linux w' =
                   Some (File (plist Examples.on_linux) mode)) /\
   launchd w' =
     snd (launchctl_load_run Examples.stale_entry (plist_path Examples.on_linux w') (fs w'))
       ∪ launchd Examples.stale_entry).
Proof.
  apply (enable_registers_current_path Examples.on_linux Examples.stale_entry).
  - right. left. reflexivity.
  - vm_compute. reflexivity.
Defined.

(** On a machine whose [launchctl load] fails, [enable] writes the
    property list, ignores the exit status and returns true with nothing
    loaded. *)
Example enable_true_nothing_loaded :
  let w' := snd (enable Examples.on_macos MoreExamples.launchctl_fails) in
  fst (enable Examples.on_macos MoreExamples.launchctl_fails) = Return true /\
  fst (launchctl_load_run MoreExamples.launchctl_fails
         (plist_path Examples.on_macos w') (fs w')) = 1 /\
  launchd w' = ∅.
Proof. vm_compute. repeat split; reflexivity. Qed.

(** *** Nothing else is touched *)

Lemma same_machine_refl (w : World) : same_machine w w.
Proof. unfold same_machine. auto 10. Qed.

Lemma untouched_refl (self : t) (w : World) : untouched self w w.
Proof.
  unfold untouched. repeat split; auto using only_new_dirs_refl.
Qed.

Lemma untouched_registry (self : t) (w : World) (values values' : gmap string reg_value) :
  registry w !! Run = Some values ->
  (forall name, name <> app_name self -> values' !! name = values !! name) ->
  untouched self w (set_registry (<[Run := values']> (registry w)) w).
Proof.
  intros Hrun Hv. unfold untouched, value_of. cbn.
  split; [| split; [| split; [| split]]].
  - intros sub Hsub. apply lookup_insert_ne. congruence.
  - intros name Hname. rewrite lookup_insert_eq, Hrun. auto.
  - apply only_new_dirs_refl.
  - reflexivity.
  - unfold same_machine. cbn. auto 10.
Qed.

(** A world that differs in files and in launchd only. *)
Lemma untouched_files (self : t) (w w' : World) :
  registry w' = registry w -> same_machine w w' ->
  only_new_dirs (registration_dir self w) (registration_files self w) (fs w) (fs w') ->
  (system self <> "Darwin" -> launchd w' = launchd w) ->
  untouched self w w'.
Proof.
  intros Hr Hm Hf Hl. unfold untouched, value_of. rewrite Hr. auto.
Qed.

(** Away from a path, a map is as it was, whatever is put at the path or
    taken from it. *)
Lemma only_new_dirs_at (d f : string) (l : list string) (m m' : gmap string node) :
  f ∈ l -> (forall p, p <> f -> m' !! p = m !! p) -> only_new_dirs d l m m'.
Proof.
  intros Hf Hm p Hp. rewrite Hm by (intros ->; contradiction).
  destruct (m !! p); auto.
Qed.

Lemma only_new_dirs_then_at (d f : string) (l : list string) (m m0 m' : gmap string node) :
  only_new_dirs d [] m m0 -> f ∈ l -> (forall p, p <> f -> m' !! p = m0 !! p) ->
  only_new_dirs d l m m'.
Proof.
  intros H0 Hf Hm. apply (only_new_dirs_trans d l m m0 m').
  - apply (only_new_dirs_weaken d d [] l); [apply on_the_way_refl | | exact H0].
    intros p _. apply not_elem_of_nil.
  - apply (only_new_dirs_at d f); assumption.
Qed.

Lemma desktop_file_own (self : t) (w : World) : desktop_file self w ∈ registration_files self w.
Proof. unfold registration_files. set_solver. Qed.

Lemma desktop_file_removed_own (self : t) (w : World) :
  desktop_file_removed self w ∈ registration_files self w.
Proof. unfold registration_files. set_solver. Qed.

Lemma plist_path_own (self : t) (w : World) : plist_path self w ∈ registration_files self w.
Proof. unfold registration_files. set_solver. Qed.

Lemma keeps_same_machine (w w' : World) : keeps w w' -> same_machine w w'.
Proof. intros (_ & _ & H). exact H. Qed.

(** The world after the directory is seen to, with something put where
    the registration file goes. *)
Lemma untouched_written (self : t) (w : World) (f : string) (n : node) :
  f ∈ registration_files self w ->
  untouched self w
    (set_fs (<[f := n]> (fs (ensure_dir (registration_dir self w) w)))
       (ensure_dir (registration_dir self w) w)).
Proof.
  intros Hf. destruct (ensure_dir_frame (registration_dir self w) w) as [(Hr & Hl & Hm) Hn].
  apply untouched_files; cbn.
  - exact Hr.
  - exact Hm.
  - apply (only_new_dirs_then_at _ f _ _ _ _ Hn Hf).
    intros p Hp. apply lookup_insert_ne. congruence.
  - intros _. exact Hl.
Qed.

Lemma untouched_ensure_dir (self : t) (w : World) :
  untouched self w (ensure_dir (registration_dir self w) w).
Proof.
  destruct (ensure_dir_frame (registration_dir self w) w) as [(Hr & Hl & Hm) Hn].
  apply untouched_files; auto.
  apply (only_new_dirs_weaken _ _ [] _ _ _ (on_the_way_refl _)); [| exact Hn].
  intros p _. apply not_elem_of_nil.
Qed.

Lemma registration_dir_Linux (self : t) (w : World) :
  system self = "Linux" -> registration_dir self w = autostart_dir w.
Proof. intros Hsys. unfold registration_dir. rewrite Hsys. reflexivity. Qed.


Lemma registration_dir_Darwin (self : t) (w : World) :
  system self = "Darwin" -> registration_dir self w = launch_agents_dir w.
Proof. intros Hsys. unfold registration_dir. rewrite Hsys. reflexivity. Qed.

(** How [enable] can end, in terms of the world: with the registration
    written; with nothing changed; with the directory seen to and no more;
    or, when the write broke off or the mode was refused, with something
    left behind where the registration file goes. *)
Lemma enable_outcomes (self : t) (w : World) :
  let w0 := ensure_dir (registration_dir self w) w in
  (exists w', enable self w = (Return true, w')) \/
  enable self w = (Return false, w) \/
  enable self w = (Return false, w0) \/
  (exists f n,
     f ∈ registration_files self w /\ ~ storage_sound w /\
     enable self w = (Return false, set_fs (<[f := n]> (fs w0)) w0)).
Proof.
  destruct (system_cases self) as [[Hsys | [Hsys | Hsys]] | (H1 & H2 & H3)]; cbn zeta.
  - rewrite (enable_Windows _ _ Hsys). destruct (registry w !! Run); eauto.
  - rewrite (enable_Linux _ _ Hsys), (registration_dir_Linux _ _ Hsys).
    destruct (ensure_dir_fields (autostart_dir w) w) as (_ & _ & _ & Hfault & _).
    pose proof (chmod_fault_ensure_dir (autostart_dir w) w) as Hcf.
    unfold ensure_dir in *.
    destruct (make_missing (autostart_dir w) w) as [[[] | e0] w0]; cbn [snd] in *; [| auto].
    destruct (write_file_result (desktop_file self w) (desktop_entry self) w0)
      as [[w2 Hok] | [[e Hfail] | (e & kept & mode & Hf & _ & Hfail)]].
    + rewrite Hok. destruct (write_file_ok _ _ _ _ Hok) as (_ & _ & _ & mode & -> & _).
      destruct (chmod_cases (desktop_file self w) (desktop_entry self) mode 493
                  (set_fs (<[desktop_file self w := File (desktop_entry self) mode]> (fs w0))
                     w0))
        as [[_ ->] | (e & Hc & ->)]; [cbn; apply lookup_insert_eq | eauto |].
      right. right. right. eexists _, _. split; [apply desktop_file_own |].
      split; [| reflexivity].
      intros [_ Hsound]. cbn in Hc. rewrite Hcf, Hsound in Hc. discriminate.
    + rewrite Hfail. auto.
    + rewrite Hfail. right. right. right. eexists _, _. split; [apply desktop_file_own |].
      split; [| reflexivity].
      intros [Hsound _]. rewrite Hfault, Hsound in Hf. discriminate.
  - rewrite (enable_Darwin _ _ Hsys), (registration_dir_Darwin _ _ Hsys).
    destruct (ensure_dir_fields (launch_agents_dir w) w) as (_ & _ & _ & Hfault & _).
    unfold ensure_dir in *.
    destruct (make_missing (launch_agents_dir w) w) as [[[] | e0] w0]; cbn [snd] in *; [| auto].
    destruct (write_file_result (plist_path self w) (plist self) w0)
      as [[w2 Hok] | [[e Hfail] | (e & kept & mode & Hf & _ & Hfail)]].
    + rewrite Hok. eauto.
    + rewrite Hfail. auto.
    + rewrite Hfail. right. right. right. eexists _, _. split; [apply plist_path_own |].
      split; [| reflexivity].
      intros [Hsound _]. rewrite Hfault, Hsound in Hf. discriminate.
  - rewrite (enable_unsupported _ _ H1 H2 H3). auto.
Qed.

Lemma untouched_set_launchd (self : t) (w w' : World) (l : gset string) :
  system self = "Darwin" -> untouched self w w' -> untouched self w (set_launchd l w').
Proof.
  intros Hsys (H1 & H2 & H3 & _ & H5). unfold untouched. cbn.
  repeat split; try assumption; try apply H5. intros Hne. contradiction.
Qed.

Lemma untouched_enable (self : t) (w : World) : untouched self w (snd (enable self w)).
Proof.
  destruct (system_cases self) as [[Hsys | [Hsys | Hsys]] | (H1 & H2 & H3)].
  - rewrite (enable_Windows _ _ Hsys).
    destruct (registry w !! Run) as [values |] eqn:Hrun; cbn; [| apply untouched_refl].
    apply (untouched_registry self w values); [exact Hrun |].
    intros name Hname. apply lookup_insert_ne. congruence.
  - destruct (enable_outcomes self w)
      as [[w' Hen] | [Hen | [Hen | (f & n & Hf & _ & Hen)]]].
    + destruct (enable_Linux_ok self w w' Hsys Hen) as (_ & _ & _ & _ & _ & Hw').
      rewrite Hen, Hw'. cbn [snd]. rewrite <- (registration_dir_Linux self w Hsys).
      apply untouched_written. apply desktop_file_own.
    + rewrite Hen. apply untouched_refl.
    + rewrite Hen. apply untouched_ensure_dir.
    + rewrite Hen. apply untouched_written. exact Hf.
  - destruct (enable_outcomes self w)
      as [[w' Hen] | [Hen | [Hen | (f & n & Hf & _ & Hen)]]].
    + destruct (enable_Darwin_ok self w w' Hsys Hen) as (_ & _ & _ & _ & mode & Hw').
      rewrite Hen, Hw'. cbn [snd]. rewrite <- (registration_dir_Darwin self w Hsys).
      apply (untouched_set_launchd _ _ _ _ Hsys).
      apply untouched_written. apply plist_path_own.
    + rewrite Hen. apply untouched_refl.
    + rewrite Hen. apply untouched_ensure_dir.
    + rewrite Hen. apply untouched_written. exact Hf.
  - rewrite (enable_unsupported _ _ H1 H2 H3). apply untouched_refl.
Qed.

Lemma untouched_disable (self : t) (w : World) : untouched self w (snd (disable self w)).
Proof.
  destruct (system_cases self) as [[Hsys | [Hsys | Hsys]] | (H1 & H2 & H3)].
  - rewrite (disable_Windows _ _ Hsys).
    destruct (registry w !! Run) as [values |] eqn:Hrun; cbn; [| apply untouched_refl].
    destruct (values !! app_name self); [| apply untouched_refl].
    apply (untouched_registry self w values); [exact Hrun |].
    intros name Hname. apply lookup_delete_ne. congruence.
  - rewrite (disable_Linux _ _ Hsys).
    destruct (fs w !! desktop_file_removed self w) as [[text mode |] |];
      cbn; try apply untouched_refl.
    apply untouched_files.
    + reflexivity.
    + unfold same_machine. cbn. auto 10.
    + apply (only_new_dirs_at _ (desktop_file_removed self w));
        [apply desktop_file_removed_own |].
      intros p Hp. apply lookup_delete_ne. congruence.
    + reflexivity.
  - rewrite (disable_Darwin _ _ Hsys). unfold launchctl_unload.
    destruct (launchctl_unload_run w (plist_path self w) (fs w)) as [status agents].
    destruct (fs w !! plist_path self w) as [[text mode |] |];
      cbn; try apply untouched_refl.
    + apply untouched_files.
      * reflexivity.
      * unfold same_machine. cbn. auto 10.
      * apply (only_new_dirs_at _ (plist_path self w)); [apply plist_path_own |].
        intros p Hp. apply lookup_delete_ne. congruence.
      * intros Hne. contradiction.
    + apply (untouched_set_launchd _ _ _ _ Hsys). apply untouched_refl.
  - rewrite (disable_unsupported _ _ H1 H2 H3). apply untouched_refl.
Qed.

(** X9: whatever they return, [is_enabled], [enable] and [disable] change
    and remove nothing but the registration of this application.  The
    other subkeys of the registry and the other values of the Run key are
    as before; away from the registration files, every file and directory
    that was there is there unchanged, and all that is new are directories
    on the way to the registration directory, those that [os.makedirs] has
    made; off macOS, launchd is as before; the home directory, the umask
    and the answers of the machine are as before. *)
Theorem methods_touch_only_registration (self : t) (w : World) :
  untouched self w (snd (is_enabled self w)) /\
  untouched self w (snd (enable self w)) /\
  untouched self w (snd (disable self w)).
Proof.
  split; [| split].
  - rewrite is_enabled_check. apply untouched_refl.
  - apply untouched_enable.
  - apply untouched_disable.
Qed.

(** On a fresh account [enable] makes the four directories down to the
    autostart directory, and the entry. *)
Example enable_on_fresh_account :
  fs (snd (enable Examples.on_linux Examples.fresh)) =
    {[ "/home" := Dir; "/home/u" := Dir; "/home/u/.config" := Dir;
       "/home/u/.config/autostart" := Dir;
       "/home/u/.config/autostart/InternetSpeedMonitor.desktop" :=
         File (desktop_entry Examples.on_linux) 493 ]}.
Proof. vm_compute. reflexivity. Qed.

(** *** Failures *)

Lemma registration_check_same (self : t) (w w' : World) :
  registry w' = registry w -> fs w' = fs w -> userhome w' = userhome w ->
  registration_check self w' = registration_check self w.
Proof.
  intros Hr Hf Hh.
  unfold registration_check, run_value, present, desktop_file, plist_path, autostart_dir.
  rewrite Hr, Hf, Hh. reflexivity.
Qed.

(** A path that is longer than the directory is not on the way to it. *)
Lemma longer_not_on_the_way (d rest : string) :
  is_empty rest = false -> ~ on_the_way (d +:+ rest) d.
Proof.
  intros Hne Hway. apply on_the_way_length in Hway.
  rewrite length_append in Hway. destruct rest; [discriminate | cbn in Hway; lia].
Qed.

(** Seeing to the directory does not make the registration file. *)
Lemma present_ensure_dir_below (d rest : string) (w : World) :
  is_empty rest = false ->
  present (ensure_dir d w) (d +:+ rest) = present w (d +:+ rest).
Proof.
  intros Hne. unfold present.
  destruct (ensure_dir_frame d w) as [_ Hn].
  specialize (Hn (d +:+ rest) (not_elem_of_nil _)).
  destruct (fs w !! (d +:+ rest)); [rewrite Hn; reflexivity |].
  destruct Hn as [-> | [_ Hway]]; [reflexivity |].
  exfalso. exact (longer_not_on_the_way d rest Hne Hway).
Qed.

Lemma desktop_file_below (self : t) (w : World) :
  relative_name self ->
  desktop_file self w = autostart_dir w +:+ ("/" +:+ app_name self +:+ ".desktop").
Proof.
  intros Hrel. rewrite (desktop_file_relative self w Hrel).
  unfold desktop_file_removed, autostart_dir. rewrite append_assoc. reflexivity.
Qed.

Lemma plist_path_below (self : t) (w : World) :
  plist_path self w = launch_agents_dir w +:+ ("/com." +:+ app_name self +:+ ".plist").
Proof. unfold plist_path, launch_agents_dir. rewrite append_assoc. reflexivity. Qed.

Lemma registration_check_ensure_dir (self : t) (w : World) :
  relative_name self ->
  registration_check self (ensure_dir (registration_dir self w) w) =
  registration_check self w.
Proof.
  intros Hrel.
  unfold registration_check, run_value, registration_dir.
  destruct (ensure_dir_fields
              (if (system self =? "Linux")%string
               then autostart_dir w else launch_agents_dir w) w) as (-> & _).
  destruct (system self =? "Windows")%string; [reflexivity |].
  destruct (system self =? "Linux")%string.
  - assert (Hf : desktop_file self (ensure_dir (autostart_dir w) w) = desktop_file self w).
    { unfold desktop_file, autostart_dir. rewrite userhome_ensure_dir. reflexivity. }
    rewrite Hf, (desktop_file_below self w Hrel).
    apply present_ensure_dir_below. reflexivity.
  - destruct (system self =? "Darwin")%string; [| reflexivity].
    assert (Hf : plist_path self (ensure_dir (launch_agents_dir w) w) = plist_path self w).
    { unfold plist_path. rewrite userhome_ensure_dir. reflexivity. }
    rewrite Hf, plist_path_below.
    apply present_ensure_dir_below. reflexivity.
Qed.

(** A failed [enable], on a machine whose writes do not break off. *)
Lemma enable_fails_keeps_check (self : t) (w w' : World) :
  relative_name self -> storage_sound w ->
  enable self w = (Return false, w') ->
  registration_check self w' = registration_check self w.
Proof.
  intros Hrel Hwhole Hen.
  destruct (enable_outcomes self w) as [[w1 H] | [H | [H | (f & n & _ & Hfault & _)]]].
  - rewrite H in Hen. discriminate.
  - rewrite H in Hen. injection Hen as <-. reflexivity.
  - rewrite H in Hen. injection Hen as <-. apply registration_check_ensure_dir. exact Hrel.
  - contradiction.
Qed.

(** A failed [disable] has changed neither the registry nor a file. *)
Lemma disable_fails (self : t) (w w' : World) :
  disable self w = (Return false, w') ->
  registry w' = registry w /\ fs w' = fs w /\ userhome w' = userhome w.
Proof.
  destruct (system_cases self) as [[Hsys | [Hsys | Hsys]] | (H1 & H2 & H3)].
  - rewrite (disable_Windows _ _ Hsys).
    destruct (registry w !! Run); [discriminate | intros [= <-]; auto].
  - rewrite (disable_Linux _ _ Hsys).
    destruct (fs w !! desktop_file_removed self w) as [[text mode |] |];
      try discriminate. intros [= <-]. auto.
  - rewrite (disable_Darwin _ _ Hsys). unfold launchctl_unload.
    destruct (launchctl_unload_run w (plist_path self w) (fs w)) as [status agents].
    destruct (fs w !! plist_path self w) as [[text mode |] |];
      try discriminate. intros [= <-]. auto.
  - rewrite (disable_unsupported _ _ H1 H2 H3). intros [= <-]. auto.
Qed.

Lemma disable_fails_keeps_check (self : t) (w w' : World) :
  disable self w = (Return false, w') ->
  registration_check self w' = registration_check self w.
Proof.
  intros Hd. destruct (disable_fails self w w' Hd) as (Hr & Hf & Hh).
  apply registration_check_same; assumption.
Qed.

(** What is registered stays registered through a failed [enable]. *)
Lemma enable_fails_keeps_registered (self : t) (w w' : World) :
  enable self w = (Return false, w') ->
  registration_check self w = true -> registration_check self w' = true.
Proof.
  intros Hen.
  assert (Hgrow : forall w1, registry w1 = registry w -> userhome w1 = userhome w ->
            (forall p, present w p = true -> present w1 p = true) ->
            registration_check self w = true -> registration_check self w1 = true).
  { intros w1 Hr Hh Hp.
    unfold registration_check, run_value, desktop_file, plist_path, autostart_dir.
    rewrite Hr, Hh.
    destruct (system self =? "Windows")%string; [auto |].
    destruct (system self =? "Linux")%string; [apply Hp |].
    destruct (system self =? "Darwin")%string; [apply Hp | auto]. }
  set (w0 := ensure_dir (registration_dir self w) w).
  assert (H0 : forall p, present w p = true -> present w0 p = true).
  { intros p Hp. unfold present in *. unfold w0.
    rewrite (present_ensure_dir_kept _ p w Hp). exact Hp. }
  destruct (ensure_dir_fields (registration_dir self w) w) as (Hr0 & _).
  pose proof (userhome_ensure_dir (registration_dir self w) w) as Hh0.
  destruct (enable_outcomes self w) as [[w1 H] | [H | [H | (f & n & _ & _ & H)]]];
    rewrite H in Hen.
  - discriminate.
  - injection Hen as <-. auto.
  - injection Hen as <-. apply Hgrow; assumption.
  - injection Hen as <-. apply Hgrow; cbn; try assumption.
    intros p Hp. apply present_insert. apply H0. exact Hp.
Qed.

(** X10: what a failed operation leaves.  A [disable] that returns false
    has changed neither the registry nor any file, so that [is_enabled]
    answers as before.  An [enable] that returns false has not taken a
    registration away: if [is_enabled] answered true before, it answers
    true afterwards.  It has left the answer as it was when the
    application name does not begin with a slash, no write breaks off on
    the machine and the mode can be changed; otherwise the registration
    file can be left behind (see [failed_enable_leaves_entry]). *)
Theorem failed_operation_keeps_is_enabled (self : t) (w w' : World) :
  (disable self w = (Return false, w') ->
   registry w' = registry w /\ fs w' = fs w /\
   fst (is_enabled self w') = fst (is_enabled self w)) /\
  (enable self w = (Return false, w') ->
   (fst (is_enabled self w) = Return true -> fst (is_enabled self w') = Return true) /\
   (relative_name self -> storage_sound w ->
    fst (is_enabled self w') = fst (is_enabled self w))).
Proof.
  rewrite !is_enabled_check. cbn [fst]. split.
  - intros Hd. destruct (disable_fails self w w' Hd) as (Hr & Hf & Hh).
    rewrite (disable_fails_keeps_check self w w' Hd). auto.
  - intros He. split.
    + intros [= Hreg]. rewrite (enable_fails_keeps_registered self w w' He Hreg).
      reflexivity.
    + intros Hrel Hsound. rewrite (enable_fails_keeps_check self w w' Hrel Hsound He).
      reflexivity.
Qed.

Lemma failed_operation_keeps_is_enabled_witness :
  fst (is_enabled Examples.on_linux
         (snd (disable Examples.on_linux MoreExamples.entry_is_directory))) =
    fst (is_enabled Examples.on_linux MoreExamples.entry_is_directory) /\
  fst (is_enabled Examples.on_linux
         (snd (enable Examples.on_linux MoreExamples.entry_is_directory))) = Return true /\
  fst (is_enabled Examples.on_linux
         (snd (enable Examples.on_linux MoreExamples.config_is_file))) =
    fst (is_enabled Examples.on_linux MoreExamples.config_is_file).
Proof.
  split; [| split].
  - destruct (failed_operation_keeps_is_enabled Examples.on_linux
                MoreExamples.entry_is_directory
                (snd (disable Examples.on_linux MoreExamples.entry_is_directory)))
      as [Hd _].
    destruct Hd as (_ & _ & H); [vm_compute; reflexivity | exact H].
  - destruct (failed_operation_keeps_is_enabled Examples.on_linux
                MoreExamples.entry_is_directory
                (snd (enable Examples.on_linux MoreExamples.entry_is_directory)))
      as [_ He].
    destruct He as [H _]; [vm_compute; reflexivity |].
    apply H. vm_compute. reflexivity.
  - destruct (failed_operation_keeps_is_enabled Examples.on_linux
                MoreExamples.config_is_file
                (snd (enable Examples.on_linux MoreExamples.config_is_file)))
      as [_ He].
    destruct He as [_ H]; [vm_compute; reflexivity |].
    apply H.
    + reflexivity.
    + split; [intros p text | intros p]; reflexivity.
Defined.

(** On a machine whose disk is full, [enable] makes the entry, fails to
    write into it and returns false; the empty entry stays, and
    [is_enabled], which answered false before, answers true. *)
Example failed_enable_leaves_entry :
  let w' := snd (enable Examples.on_linux MoreExamples.disk_full) in
  fst (is_enabled Examples.on_linux MoreExamples.disk_full) = Return false /\
  fst (enable Examples.on_linux MoreExamples.disk_full) = Return false /\
  fs w' !! "/home/u/.config/autostart/InternetSpeedMonitor.desktop" =
    Some (File "" 420) /\
  fst (is_enabled Examples.on_linux w') = Return true.
Proof. vm_compute. repeat split; reflexivity. Qed.

(** *** Undoing and repeating *)







(** On an account with an empty home directory, [enable] and then
    [disable] leave the two directories that [os.makedirs] has made. *)
Example enable_disable_leaves_directories :
  fs (snd (disable Examples.on_linux
             (snd (enable Examples.on_linux MoreExamples.empty_home)))) =
    <["/home/u/.config/autostart" := Dir]>
      (<["/home/u/.config" := Dir]> (fs MoreExamples.empty_home)).
Proof. vm_compute. reflexivity. Qed.

(** X12: [disable] is idempotent: after a [disable] that returned true, a
    second one returns true and changes nothing, for every application
    name. *)
Theorem disable_twice (self : t) (w w1 : World) :
  disable self w = (Return true, w1) -> disable self w1 = (Return true, w1).
Proof.
  destruct (system_cases self) as [[Hsys | [Hsys | Hsys]] | (H1 & H2 & H3)].
  - rewrite (disable_Windows self w Hsys).
    destruct (registry w !! Run) as [values |] eqn:Hrun; [| discriminate].
    intros [= <-]. rewrite (disable_Windows _ _ Hsys).
    destruct (values !! app_name self) eqn:Hv.
    + cbn. rewrite lookup_insert_eq, lookup_delete_eq. reflexivity.
    + rewrite Hrun, Hv. reflexivity.
  - rewrite (disable_Linux self w Hsys).
    destruct (fs w !! desktop_file_removed self w) as [[text mode |] |] eqn:Hf;
      [| discriminate |]; intros [= <-]; rewrite (disable_Linux _ _ Hsys).
    + unfold desktop_file_removed. cbn. rewrite lookup_delete_eq. reflexivity.
    + rewrite Hf. reflexivity.
  - rewrite (disable_Darwin self w Hsys).
    destruct (fs w !! plist_path self w) as [[text mode |] |] eqn:Hf;
      [| discriminate |]; intros [= <-]; rewrite (disable_Darwin _ _ Hsys).
    + unfold plist_path, launchctl_unload.
      destruct (launchctl_unload_run w _ (fs w)) as [status agents].
      cbn. rewrite lookup_delete_eq. reflexivity.
    + rewrite Hf. reflexivity.
  - rewrite (disable_unsupported _ _ H1 H2 H3). discriminate.
Qed.

Lemma disable_twice_witness :
  disable Examples.on_macos
    (snd (disable Examples.on_macos (snd (enable Examples.on_macos Examples.fresh)))) =
  (Return true,
   snd (disable Examples.on_macos (snd (enable Examples.on_macos Examples.fresh)))).
Proof.
  apply (disable_twice Examples.on_macos (snd (enable Examples.on_macos Examples.fresh))).
  vm_compute. reflexivity.
Defined.

End RegistrationFacts.

(** ** The application: what the user sees *)

Module InternetSpeedAppFacts.
Import PyFloat SpeedMonitor SpeedMonitorFacts Sampling SamplingFacts OS.
Import SpeedDisplayWindow SpeedDisplayWindowFacts InternetSpeedApp.
Import Registration AutoStartManagerFacts RegistrationFacts.

(** *** From the signal to the labels *)

Lemma update_speeds_result (upload download : float) (a : t) :
  exists a',
    update_speeds upload download a = (Return tt, a') /\
    shows a' upload download /\
    speed_monitor a' = speed_monitor a /\
    auto_start_manager a' = auto_start_manager a /\
    autostart_checked a' = autostart_checked a /\
    display_visible a' = display_visible a /\
    toggle_display_text a' = toggle_display_text a /\
    visible (display_window a') = visible (display_window a).
Proof.
  unfold update_speeds, try_except, bind, on_window.
  rewrite update_speeds_labels. cbn.
  rewrite !format_speed_returns. cbn.
  eexists. split; [reflexivity |]. unfold shows. cbn. repeat split; reflexivity.
Qed.

Lemma timeout_outcome (a : t) (io : net_reading) (now : float) :
  (emitted (snd (update_speed io now (speed_monitor a))) = emitted (speed_monitor a) /\
   timeout io now a =
     (Return tt, set_speed_monitor (snd (update_speed io now (speed_monitor a))) a)) \/
  (exists up down,
     emitted (snd (update_speed io now (speed_monitor a))) =
       emitted (speed_monitor a) ++ [(up, down)] /\
     timeout io now a =
       (Return tt,
        snd (update_speeds up down
               (set_speed_monitor (snd (update_speed io now (speed_monitor a))) a)))).
Proof.
  unfold timeout.
  destruct (update_speed_outcomes (speed_monitor a) io now)
    as [Hret [(He & _ & _) | (c & _ & _ & Hs)]];
    destruct (update_speed io now (speed_monitor a)) as [r p'];
    cbn in Hret; subst r; cbn in *.
  - left. rewrite He. rewrite drop_all. auto.
  - right. subst p'. unfold sampled. cbn [emitted].
    rewrite drop_app_length. cbn.
    eexists _, _. split; [reflexivity |].
    unfold bind.
    destruct (update_speeds_result
                (rate_KBps (bytes_sent c - last_upload (self (speed_monitor a)))
                   (elapsed (speed_monitor a) now))
                (rate_KBps (bytes_recv c - last_download (self (speed_monitor a)))
                   (elapsed (speed_monitor a) now))
                (set_speed_monitor (sampled (speed_monitor a) c now) a))
      as (a' & Hu & _).
    unfold sampled in Hu. rewrite Hu. reflexivity.
Qed.

(** X13: one timeout of the timer never raises.  When the monitor emits
    a sample (upload, download), the download label reads the arrow down
    followed by the formatted download rate, the upload label the arrow up
    followed by the formatted upload rate, and the tool tip has the same
    two lines: the rates are not swapped on their way through the two
    [update_speeds] methods.  When nothing is emitted, labels and tool tip
    stay as they are. *)
Theorem timeout_shows_sample (a : t) (io : net_reading) (now : float) :
  exists a',
    timeout io now a = (Return tt, a') /\
    speed_monitor a' = snd (update_speed io now (speed_monitor a)) /\
    ((emitted (speed_monitor a') = emitted (speed_monitor a) /\
      download_label (display_window a') = download_label (display_window a) /\
      upload_label (display_window a') = upload_label (display_window a) /\
      tooltip a' = tooltip a) \/
     (exists up down,
        emitted (speed_monitor a') = emitted (speed_monitor a) ++ [(up, down)] /\
        shows a' up down)).
Proof.
  destruct (timeout_outcome a io now) as [(He & Ht) | (up & down & He & Ht)].
  - eexists. split; [exact Ht |]. cbn. split; [reflexivity |]. left. auto.
  - destruct (update_speeds_result up down
                (set_speed_monitor (snd (update_speed io now (speed_monitor a))) a))
      as (a' & Hu & Hshow & Hm & _).
    rewrite Hu in Ht. cbn in Ht. exists a'. split; [exact Ht |].
    rewrite Hm. cbn. split; [reflexivity |]. right. eauto.
Qed.

(** How one timeout relates the application before and after. *)
Lemma timeout_step (a : t) (io : net_reading) (now : float) :
  exists a',
    timeout io now a = (Return tt, a') /\
    (display_current a -> display_current a') /\
    emitted (speed_monitor a) `prefix_of` emitted (speed_monitor a') /\
    (length (emitted (speed_monitor a')) <= S (length (emitted (speed_monitor a))))%nat /\
    auto_start_manager a' = auto_start_manager a /\
    autostart_checked a' = autostart_checked a /\
    display_visible a' = display_visible a /\
    toggle_display_text a' = toggle_display_text a /\
    visible (display_window a') = visible (display_window a).
Proof.
  destruct (timeout_outcome a io now) as [(He & Ht) | (up & down & He & Ht)].
  - eexists. split; [exact Ht |]. cbn. rewrite He.
    repeat split; auto. unfold display_current. cbn. rewrite He. auto.
  - destruct (update_speeds_result up down
                (set_speed_monitor (snd (update_speed io now (speed_monitor a))) a))
      as (a' & Hu & Hshow & Hm & Hmgr & Hchk & Hvis & Htxt & Hwin).
    rewrite Hu in Ht. cbn in Ht. exists a'. split; [exact Ht |].
    rewrite Hm, Hmgr, Hchk, Hvis, Htxt, Hwin. cbn. rewrite He.
    repeat split; auto.
    + intros _. unfold display_current. rewrite Hm. cbn. rewrite He, last_snoc.
      exact Hshow.
    + apply prefix_app_r. reflexivity.
    + rewrite length_app. cbn. lia.
Qed.

(** X14: however often the timer fires and whatever the counter queries
    do, the run never raises, each timeout adds at most one sample after
    the earlier ones, and if the window showed the last sample before, it
    shows the last sample afterwards. *)
Theorem timeouts_keep_display_current (ticks : list (net_reading * float)) : forall a : t,
  display_current a ->
  exists a',
    timeouts ticks a = (Return tt, a') /\
    display_current a' /\
    emitted (speed_monitor a) `prefix_of` emitted (speed_monitor a') /\
    (length (emitted (speed_monitor a')) <=
     length (emitted (speed_monitor a)) + length ticks)%nat.
Proof.
  induction ticks as [| [io now] rest IH]; intros a Hcur.
  - exists a. cbn. repeat split; auto. lia.
  - destruct (timeout_step a io now) as (a1 & Ht & Hc1 & Hp1 & Hl1 & _).
    destruct (IH a1 (Hc1 Hcur)) as (a' & Hr & Hc' & Hp' & Hl').
    exists a'. cbn. unfold bind. rewrite Ht. split; [exact Hr |].
    split; [exact Hc' |]. split; [etransitivity; eassumption |]. cbn. lia.
Qed.

Lemma timeouts_keep_display_current_witness :
  exists a',
    timeouts MoreExamples.two_ticks (ui MoreExamples.running_linux) = (Return tt, a') /\
    display_current a' /\
    emitted (speed_monitor (ui MoreExamples.running_linux)) `prefix_of`
      emitted (speed_monitor a') /\
    (length (emitted (speed_monitor a')) <=
     length (emitted (speed_monitor (ui MoreExamples.running_linux))) +
     length MoreExamples.two_ticks)%nat.
Proof.
  apply (timeouts_keep_display_current MoreExamples.two_ticks
           (ui MoreExamples.running_linux)).
  exact I.
Defined.

(** *** The toggle of the display *)

(** X15: [toggle_display] flips the visibility flag and always leaves
    flag, window and action text in agreement; it touches neither the
    labels nor the position; and from a state in agreement, toggling twice
    gives back that state. *)
Theorem toggle_display_consistent (a : t) :
  display_visible (toggle_display a) = negb (display_visible a) /\
  display_consistent (toggle_display a) /\
  download_label (display_window (toggle_display a)) = download_label (display_window a) /\
  upload_label (display_window (toggle_display a)) = upload_label (display_window a) /\
  position (display_window (toggle_display a)) = position (display_window a) /\
  (display_consistent a -> toggle_display (toggle_display a) = a).
Proof.
  unfold toggle_display, display_consistent.
  destruct a as [mgr chk vis txt win tip mon warn].
  destruct win as [dl ul p sz v dr off]. cbn.
  destruct vis; cbn; repeat split; try reflexivity.
  - intros [-> ->]. reflexivity.
  - intros [-> ->]. reflexivity.
Qed.

Lemma toggle_display_consistent_witness :
  display_consistent (ui MoreExamples.running_linux) /\
  display_visible (toggle_display (ui MoreExamples.running_linux)) = false /\
  toggle_display (toggle_display (ui MoreExamples.running_linux)) =
    ui MoreExamples.running_linux.
Proof.
  assert (H : display_consistent (ui MoreExamples.running_linux))
    by (split; reflexivity).
  destruct (toggle_display_consistent (ui MoreExamples.running_linux))
    as (Hflip & _ & _ & _ & _ & Hback).
  split; [exact H |]. split; [exact Hflip | exact (Hback H)].
Defined.

(** *** The check mark *)

Lemma enable_true_supported (self : AutoStartManager.t) (w w' : World) :
  AutoStartManager.enable self w = (Return true, w') -> AutoStartManager.supported self.
Proof.
  intros Hen. destruct (system_cases self) as [Hsup | (H1 & H2 & H3)]; [exact Hsup |].
  rewrite (enable_unsupported _ _ H1 H2 H3) in Hen. discriminate.
Qed.

Lemma disable_true_supported (self : AutoStartManager.t) (w w' : World) :
  AutoStartManager.disable self w = (Return true, w') -> AutoStartManager.supported self.
Proof.
  intros Hen. destruct (system_cases self) as [Hsup | (H1 & H2 & H3)]; [exact Hsup |].
  rewrite (disable_unsupported _ _ H1 H2 H3) in Hen. discriminate.
Qed.

Lemma storage_sound_same (w w' : World) :
  same_machine w w' -> storage_sound w -> storage_sound w'.
Proof.
  intros (_ & _ & Hw & Hc & _) Hs. unfold storage_sound. rewrite Hw, Hc. exact Hs.
Qed.

Lemma enable_same_machine (self : AutoStartManager.t) (w : World) :
  same_machine w (snd (AutoStartManager.enable self w)).
Proof. destruct (untouched_enable self w) as (_ & _ & _ & _ & Hm). exact Hm. Qed.

Lemma disable_same_machine (self : AutoStartManager.t) (w : World) :
  same_machine w (snd (AutoStartManager.disable self w)).
Proof. destruct (untouched_disable self w) as (_ & _ & _ & _ & Hm). exact Hm. Qed.

(** What a click on "Start with System" does: it never raises and touches
    nothing but the world, the check mark and the warnings.  When the
    operation succeeds the mark is flipped and no dialog is shown; when it
    fails the mark is put back and one warning is shown.  The mark stays
    true to the system unless an [enable] failed with a write that broke
    off. *)
Lemma click_autostart_step (m : machine) :
  exists m',
    click_autostart m = (Return tt, m') /\
    (AutoStartManager.relative_name (auto_start_manager (ui m)) -> check_mark_true m ->
     (autostart_checked (ui m') = negb (autostart_checked (ui m)) /\
      warnings (ui m') = warnings (ui m) /\ check_mark_true m') \/
     (autostart_checked (ui m') = autostart_checked (ui m) /\
      warnings (ui m') = warnings (ui m) ++ [(warning_title, warning_text)] /\
      (autostart_checked (ui m) = true \/ storage_sound (os m) -> check_mark_true m'))) /\
    auto_start_manager (ui m') = auto_start_manager (ui m) /\
    display_visible (ui m') = display_visible (ui m) /\
    toggle_display_text (ui m') = toggle_display_text (ui m) /\
    display_window (ui m') = display_window (ui m) /\
    tooltip (ui m') = tooltip (ui m) /\
    speed_monitor (ui m') = speed_monitor (ui m) /\
    screen m' = screen m /\
    same_machine (os m) (os m').
Proof.
  destruct m as [w scr a]. destruct a as [mgr chk vis txt win tip mon warn].
  unfold check_mark_true. cbn.
  unfold click_autostart, toggle_autostart, bind, modify, gets, on_os, ret. cbn.
  destruct chk; cbn.
  - destruct (methods_return mgr w) as (_ & _ & [b Hb]).
    pose proof (disable_same_machine mgr w) as Hfault.
    destruct (AutoStartManager.disable mgr w) as [r w'] eqn:Hd. cbn in Hb, Hfault. subst r.
    cbn. destruct b; cbn; eexists; (split; [reflexivity |]); cbn;
      (split; [| repeat split; auto; apply Hfault]); intros Hrel Hchk.
    + left. pose proof (disable_then_is_enabled mgr w w'
                          (disable_true_supported _ _ _ Hd) Hrel Hd) as His.
      rewrite is_enabled_check in His. injection His as His. auto.
    + right. rewrite (disable_fails_keeps_check mgr w w' Hd). auto.
  - destruct (methods_return mgr w) as (_ & [b Hb] & _).
    pose proof (enable_same_machine mgr w) as Hfault.
    destruct (AutoStartManager.enable mgr w) as [r w'] eqn:He. cbn in Hb, Hfault. subst r.
    cbn. destruct b; cbn; eexists; (split; [reflexivity |]); cbn;
      (split; [| repeat split; auto; apply Hfault]); intros Hrel Hchk.
    + left. pose proof (enable_then_is_enabled mgr w w'
                          (enable_true_supported _ _ _ He) He) as His.
      rewrite is_enabled_check in His. injection His as His. auto.
    + right. split; [reflexivity |]. split; [reflexivity |].
      intros [Habs | Hwhole]; [discriminate |].
      rewrite (enable_fails_keeps_check mgr w w' Hrel Hwhole He). exact Hchk.
Qed.

(** X16: a click on "Start with System", when the check mark shows what
    [is_enabled] answers and the application name does not begin with a
    slash.  The click does not raise.  Either the operation succeeded: the
    mark is flipped, no dialog is shown and the mark shows what
    [is_enabled] answers now.  Or it failed: the mark is put back where it
    was and exactly one warning dialog is shown; the mark then still shows
    what [is_enabled] answers if the click was to switch autostart off, or
    if no write breaks off on the machine.  After an [enable] whose write
    broke off it does not (see [failed_enable_unchecked]). *)
Theorem click_autostart_keeps_check_mark (m : machine) :
  AutoStartManager.relative_name (auto_start_manager (ui m)) ->
  check_mark_true m ->
  exists m',
    click_autostart m = (Return tt, m') /\
    ((autostart_checked (ui m') = negb (autostart_checked (ui m)) /\
      warnings (ui m') = warnings (ui m) /\ check_mark_true m') \/
     (autostart_checked (ui m') = autostart_checked (ui m) /\
      warnings (ui m') = warnings (ui m) ++ [(warning_title, warning_text)] /\
      (autostart_checked (ui m) = true \/ storage_sound (os m) -> check_mark_true m'))).
Proof.
  intros Hrel Hchk.
  destruct (click_autostart_step m) as (m' & Hc & Hm & _).
  exists m'. split; [exact Hc | exact (Hm Hrel Hchk)].
Qed.

Lemma click_autostart_keeps_check_mark_witness :
  exists m',
    click_autostart MoreExamples.running_linux = (Return tt, m') /\
    ((autostart_checked (ui m') = negb (autostart_checked (ui MoreExamples.running_linux)) /\
      warnings (ui m') = warnings (ui MoreExamples.running_linux) /\ check_mark_true m') \/
     (autostart_checked (ui m') = autostart_checked (ui MoreExamples.running_linux) /\
      warnings (ui m') =
        warnings (ui MoreExamples.running_linux) ++ [(warning_title, warning_text)] /\
      (autostart_checked (ui MoreExamples.running_linux) = true \/
       storage_sound (os MoreExamples.running_linux) -> check_mark_true m'))).
Proof.
  apply (click_autostart_keeps_check_mark MoreExamples.running_linux).
  - reflexivity.
  - reflexivity.
Defined.

(** On a machine whose disk is full, a click to switch autostart on
    fails, shows the warning and takes the check mark back, while the
    empty entry that [enable] left makes [is_enabled] answer true: the
    mark no longer shows what [is_enabled] answers. *)
Example failed_enable_unchecked :
  let m := MoreExamples.running_on MoreExamples.disk_full in
  let m' := snd (click_autostart m) in
  check_mark_true m /\
  fst (click_autostart m) = Return tt /\
  autostart_checked (ui m') = false /\
  warnings (ui m') = [(warning_title, warning_text)] /\
  fst (AutoStartManager.is_enabled (auto_start_manager (ui m')) (os m')) = Return true.
Proof. vm_compute. repeat split; reflexivity. Qed.

(** *** From startup on *)

Lemma deliver_frame (g : gesture) (w : SpeedDisplayWindow.t) :
  download_label (deliver g w) = download_label w /\
  upload_label (deliver g w) = upload_label w /\
  visible (deliver g w) = visible w.
Proof.
  destruct g as [b c | c | b c]; cbn.
  - unfold mousePressEvent. cbn. destruct (is_left b); auto.
  - unfold mouseMoveEvent. cbn.
    destruct (dragging w && offset_truthy (offset w)); [| auto].
    destruct (offset w); auto.
  - unfold mouseReleaseEvent. cbn. destruct (is_left b); auto.
Qed.

(** What every action keeps: it does not raise; the display stays in
    agreement with the flag and with the last sample; and the check mark
    stays true to the system on a machine whose writes do not break
    off. *)
Lemma handle_step (x : action) (m : machine) :
  AutoStartManager.relative_name (auto_start_manager (ui m)) ->
  display_consistent (ui m) -> display_current (ui m) ->
  exists m',
    handle x m = (Return tt, m') /\
    display_consistent (ui m') /\ display_current (ui m') /\
    (storage_sound (os m) -> check_mark_true m -> check_mark_true m') /\
    auto_start_manager (ui m') = auto_start_manager (ui m) /\
    same_machine (os m) (os m').
Proof.
  intros Hrel Hcons Hcur. destruct x as [| | | g | io now | minimum].
  - destruct (click_autostart_step m)
      as (m' & Hc & Hm & Hmgr & Hvis & Htxt & Hwin & Htip & Hmon & _ & Hfault).
    exists m'. split; [exact Hc |].
    unfold display_consistent, display_current.
    rewrite Hvis, Htxt, Hwin, Htip, Hmon.
    split; [exact Hcons |]. split; [exact Hcur |]. split; [| auto].
    intros Hwhole Hchk.
    destruct (Hm Hrel Hchk) as [(_ & _ & H) | (_ & _ & H)]; auto.
  - eexists. split; [reflexivity |].
    destruct m as [w scr a]. destruct a as [mgr chk vis txt win tip mon warn].
    unfold check_mark_true, display_consistent, display_current, toggle_display in *.
    cbn in *. destruct vis; cbn; repeat split; auto; try tauto.
  - eexists. split; [reflexivity |].
    destruct m as [w scr a]. destruct a as [mgr chk vis txt win tip mon warn].
    unfold check_mark_true, display_consistent, display_current in *.
    cbn in *. repeat split; auto; try tauto.
  - eexists. split; [reflexivity |].
    destruct m as [w scr a]. destruct a as [mgr chk vis txt win tip mon warn].
    unfold check_mark_true, display_consistent, display_current in *.
    cbn in *. destruct (deliver_frame g win) as (-> & -> & ->). repeat split; auto; try tauto.
  - destruct (timeout_step (ui m) io now)
      as (a' & Ht & Hc & _ & _ & Hmgr & Hck & Hvis & Htxt & Hwin).
    exists (set_ui a' m). cbn. unfold on_ui. rewrite Ht.
    split; [reflexivity |].
    unfold check_mark_true, display_consistent in *. cbn.
    rewrite Hmgr, Hck, Hvis, Htxt, Hwin. repeat split; auto; try tauto.
  - eexists. split; [reflexivity |].
    destruct m as [w scr a]. destruct a as [mgr chk vis txt win tip mon warn].
    unfold check_mark_true, display_consistent, display_current in *.
    cbn in *. repeat split; auto; try tauto.
Qed.

Lemma handle_all_keeps (xs : list action) : forall m : machine,
  AutoStartManager.relative_name (auto_start_manager (ui m)) ->
  display_consistent (ui m) -> display_current (ui m) ->
  exists m',
    handle_all xs m = (Return tt, m') /\
    display_consistent (ui m') /\ display_current (ui m') /\
    (storage_sound (os m) -> check_mark_true m -> check_mark_true m').
Proof.
  induction xs as [| x rest IH]; intros m Hrel Hcons Hcur.
  - exists m. auto.
  - destruct (handle_step x m Hrel Hcons Hcur)
      as (m1 & H1 & Hcons1 & Hcur1 & Hchk1 & Hmgr & Hfault).
    rewrite <- Hmgr in Hrel.
    destruct (IH m1 Hrel Hcons1 Hcur1) as (m' & Hr & Hcons' & Hcur' & Hchk').
    exists m'. cbn. unfold bind. rewrite H1.
    split; [exact Hr |]. split; [exact Hcons' |]. split; [exact Hcur' |].
    intros Hwhole Hchk. apply Hchk'; [| auto].
    exact (storage_sound_same _ _ Hfault Hwhole).
Qed.

Lemma init_cases (abspath_argv0 platform_system : string) (desktop : geometry)
    (layout_minimum : Z * Z) (io : net_reading) (now : float) (w : World) :
  (exists c m,
     io = Return (Some c) /\
     init abspath_argv0 platform_system desktop layout_minimum io now w = Started m /\
     os m = w /\ screen m = desktop /\
     auto_start_manager (ui m) =
       AutoStartManager.init AutoStartManager.default_app_name abspath_argv0
         platform_system /\
     faithful m /\
     speed_monitor (ui m) =
       {| self := {| upload_speed := zero; download_speed := zero;
                     last_upload := bytes_sent c; last_download := bytes_recv c;
                     last_time := now |};
          emitted := [] |} /\
     display_window (ui m) =
       set_visible true (SpeedDisplayWindow.init desktop layout_minimum) /\
     warnings (ui m) = []) \/
  ((io = Return None \/ exists e, io = Raise e) /\
   init abspath_argv0 platform_system desktop layout_minimum io now w = SysExit 1 w).
Proof.
  unfold init. rewrite is_enabled_check.
  destruct io as [[c |] | e]; cbn.
  - left. eexists _, _. split; [reflexivity |]. split; [reflexivity |].
    unfold faithful, check_mark_true, display_consistent, display_current. cbn.
    repeat split; reflexivity.
  - right. auto.
  - right. eauto.
Qed.

(** X17: how the application starts.  The constructor lets no exception
    out; it ends with [sys.exit(1)] exactly when the first counter query
    raises or finds no interface.  Otherwise the world is untouched, the
    check mark shows what [is_enabled] answers, the window is shown at the
    bottom right with both labels at 0.0 KB/s, in agreement with the flag
    and the action text, the monitor holds the counters and the time read
    at startup, and nothing has been emitted. *)
Theorem startup_outcome (abspath_argv0 platform_system : string) (desktop : geometry)
    (layout_minimum : Z * Z) (io : net_reading) (now : float) (w : World) :
  match init abspath_argv0 platform_system desktop layout_minimum io now w with
  | Started m =>
      (exists c, io = Return (Some c) /\
                 snapshot (speed_monitor (ui m)) = (bytes_sent c, bytes_recv c, now)) /\
      os m = w /\ faithful m /\
      emitted (speed_monitor (ui m)) = [] /\
      visible (display_window (ui m)) = true /\
      position (display_window (ui m)) =
        {| px := width desktop - 130; py := height desktop - 80 |} /\
      download_label (display_window (ui m)) = "↓ 0.0 KB/s" /\
      upload_label (display_window (ui m)) = "↑ 0.0 KB/s"
  | SysExit code w' =>
      code = 1 /\ w' = w /\ (io = Return None \/ exists e, io = Raise e)
  | Crashed e w' => False
  end.
Proof.
  destruct (init_cases abspath_argv0 platform_system desktop layout_minimum io now w)
    as [(c & m & Hio & -> & Hos & _ & _ & Hf & Hmon & Hwin & _) | (Hio & ->)].
  - split; [exists c; split; [exact Hio | rewrite Hmon; reflexivity] |].
    split; [exact Hos |]. split; [exact Hf |].
    rewrite Hmon, Hwin. cbn. repeat split; reflexivity.
  - auto.
Qed.

(** X18: from startup on, what the user sees of the display is true, and
    so is the check mark on a machine whose writes do not break off.
    After the application has started, any sequence of clicks on the three
    menu actions, mouse gestures on the window, timeouts of the timer and
    activations of the layout runs without an exception; at its end the visibility flag agrees with
    the window and the action text, and the labels and the tool tip show
    the sample emitted last; and if no write breaks off on the machine,
    the check mark shows what [is_enabled] answers. *)
Theorem running_application_faithful (abspath_argv0 platform_system : string)
    (desktop : geometry) (layout_minimum : Z * Z) (io : net_reading) (now : float)
    (w : World) (m : machine) (xs : list action) :
  init abspath_argv0 platform_system desktop layout_minimum io now w = Started m ->
  exists m',
    handle_all xs m = (Return tt, m') /\
    display_consistent (ui m') /\ display_current (ui m') /\
    (storage_sound w -> check_mark_true m').
Proof.
  intros Hinit.
  destruct (init_cases abspath_argv0 platform_system desktop layout_minimum io now w)
    as [(c & m0 & _ & H0 & Hos & _ & Hmgr & (Hchk & Hcons & Hcur) & _) | (_ & H0)];
    rewrite H0 in Hinit; [| discriminate].
  injection Hinit as Hm. subst m0.
  destruct (handle_all_keeps xs m) as (m' & Hrun & Hcons' & Hcur' & Hchk');
    [rewrite Hmgr; reflexivity | exact Hcons | exact Hcur |].
  exists m'. split; [exact Hrun |]. split; [exact Hcons' |]. split; [exact Hcur' |].
  intros Hwhole. apply Hchk'; [rewrite Hos; exact Hwhole | exact Hchk].
Qed.

Lemma running_application_faithful_witness :
  exists m',
    handle_all MoreExamples.session MoreExamples.running_linux = (Return tt, m') /\
    display_consistent (ui m') /\ display_current (ui m') /\
    (storage_sound Examples.fresh -> check_mark_true m').
Proof.
  apply (running_application_faithful "/opt/monitor/monitor.py" "Linux"
           MoreExamples.full_hd MoreExamples.small_layout
           (Return (Some MoreExamples.c_first)) zero Examples.fresh).
  vm_compute. reflexivity.
Defined.

(** The session above, run: the window ends at the bottom right, hidden
    and showing the one sample, and 160 wide although the program asked
    for 120; autostart is off again and no warning was shown. *)
Example session_outcome :
  let m' := snd (handle_all MoreExamples.session MoreExamples.running_linux) in
  fst (handle_all MoreExamples.session MoreExamples.running_linux) = Return tt /\
  autostart_checked (ui m') = false /\
  warnings (ui m') = [] /\
  visible (display_window (ui m')) = false /\
  position (display_window (ui m')) = {| px := 1790; py := 1000 |} /\
  size (display_window (ui m')) = (160, 70) /\
  download_label (display_window (ui m')) = "↓ 1.0 KB/s" /\
  upload_label (display_window (ui m')) = "↑ 1.0 KB/s".
Proof. vm_compute. repeat split; reflexivity. Qed.

End InternetSpeedAppFacts.
